(** * WebScraperAI: a shallow embedding of [backend.py]

    The class [WebScraperAI] of [backend.py] is modelled by explicit state
    passing.  The object's attributes form the record [WebScraperAI]; every
    method takes the object and the outside world and returns its result
    together with the updated object and world.  The remote services
    (newspaper's [Article], SerpAPI's [GoogleSearch], the HuggingFace
    inference endpoint) and the library functions [sent_tokenize] and
    [urlparse] are gathered in the class [Services]: the theorems hold for
    every behaviour of them.  [save_results] writes to a file system that is
    a map from files to what they hold, through a model of [json.dump] and
    of the UTF-8 codec; which file a path names, and whether [open] takes
    the path at all, is for the environment to say.

    [print] writes to a standard output that takes UTF-8: it raises when
    the line holds a surrogate.  The lines that print a URL, a path or a
    file name are modelled: lines 91, 107 and 117, line 191 and line 43.
    Of lines 43 and 107 the text of the exception that follows the path or
    the URL is taken to be one that standard output can encode, as the
    texts are that lines 79 and 153 print; line 76 prints a constant; line
    149 is inside a [try] whose handler returns what the line after it
    returns.  Line 166 prints the URL of a document the extractor has
    downloaded and stored, and is left out.

    The page [app.py] is modelled as far as the button of its first tab
    goes; [app1.py] calls methods the class does not have, and
    [scrapper.py] is a separate example. *)

From Stdlib Require Import List ZArith NArith Bool Lia String Ascii.
Import ListNotations.

Set Implicit Arguments.

(** * Python values *)

Module Py.

(** A Python [str] is a sequence of Unicode code points. *)
Definition char := N.
Definition str := list char.

(** String literals of the source. *)
Definition lit (s : string) : str := map N_of_ascii (list_ascii_of_string s).

(** ["\n"] *)
Definition newline : str := [10%N].

(** [len(x)] *)
Definition len {A} (l : list A) : Z := Z.of_nat (List.length l).

(** Truth value of a [str] or a [list]: empty is false. *)
Definition truthy {A} (l : list A) : bool :=
  match l with [] => false | _ :: _ => true end.

Fixpoint str_eqb (a b : str) : bool :=
  match a, b with
  | [], [] => true
  | x :: a', y :: b' => N.eqb x y && str_eqb a' b'
  | _, _ => false
  end.

(** The characters [str.strip()] removes when called without argument:
    CPython's Unicode white space. *)
Definition isspace (c : char) : bool :=
  (((0x09 <=? c) && (c <=? 0x0D)) || ((0x1C <=? c) && (c <=? 0x20))
   || (c =? 0x85) || (c =? 0xA0) || (c =? 0x1680)
   || ((0x2000 <=? c) && (c <=? 0x200A))
   || (c =? 0x2028) || (c =? 0x2029) || (c =? 0x202F) || (c =? 0x205F)
   || (c =? 0x3000))%N.

Fixpoint lstrip (s : str) : str :=
  match s with
  | [] => []
  | c :: s' => if isspace c then lstrip s' else s
  end.

Definition rstrip (s : str) : str := rev (lstrip (rev s)).

(** [s.strip()] *)
Definition strip (s : str) : str := rstrip (lstrip s).

(** [l[:n]], for a negative [n] too. *)
Definition slice_to {A} (n : Z) (l : list A) : list A :=
  if (0 <=? n)%Z then firstn (Z.to_nat n) l
  else firstn (Z.to_nat (len l + n)) l.

(** [sep.join(parts)] *)
Fixpoint join (sep : str) (parts : list str) : str :=
  match parts with
  | [] => []
  | p :: rest =>
      match rest with
      | [] => p
      | _ :: _ => p ++ sep ++ join sep rest
      end
  end.

(** A [dict] with [str] keys keeps its items in insertion order; assigning
    to a key that is present replaces the value where it stands. *)
Definition dict (V : Type) := list (str * V).

Fixpoint dict_get {V} (k : str) (d : dict V) : option V :=
  match d with
  | [] => None
  | (k', v) :: d' => if str_eqb k k' then Some v else dict_get k d'
  end.

Fixpoint dict_set {V} (k : str) (v : V) (d : dict V) : dict V :=
  match d with
  | [] => [(k, v)]
  | (k', v') :: d' =>
      if str_eqb k k' then (k', v) :: d' else (k', v') :: dict_set k v d'
  end.

Definition keys {V} (d : dict V) : list str := map fst d.

(** What a call gives back: a value, or an exception that leaves the
    method. *)
Inductive exn :=
| ValueError (msg : str)
| UnicodeEncodeError
| OSError.

Inductive outcome (A : Type) :=
| Returned (a : A)
| Raised (e : exn).
Arguments Raised {A} e.

End Py.

Import Py.

(** * Standard output *)

(** A Unicode scalar value: a code point that is not a surrogate. *)
Definition scalar (c : char) : bool :=
  ((c <? 0xD800) || ((0xDFFF <? c) && (c <? 0x110000)))%N.

(** The strings the UTF-8 codec accepts. *)
Definition plain (s : str) : bool := forallb scalar s.

(** [print(line)]: standard output encodes the line as UTF-8, the default
    of Python 3, and raises on a surrogate. *)
Definition print (line : str) : outcome unit :=
  if plain line then Returned tt else Raised UnicodeEncodeError.

(** * The outside world *)

(** What [Article(url)] holds after [download()] and [parse()]. *)
Record Article (datetime : Type) := {
  art_title : str;
  art_text : str;
  art_publish_date : option datetime;
  art_authors : list str;
  art_top_image : str
}.

Inductive Fetched (datetime : Type) :=
| FetchRaised
| FetchParsed (article : Article datetime).
Arguments FetchRaised {datetime}.

(** The [params] dictionary handed to [GoogleSearch]. *)
Record SearchParams := {
  sp_q : str;
  sp_api_key : str;
  sp_num : Z
}.

(** The dictionary [search.get_dict()] returns, as far as [search_web] reads
    it: the list under ["organic_results"] when that key is present, and of
    each of its entries the value under ["link"] when the entry has one. *)
Record SearchDict := {
  organic_results : option (list (option str))
}.

Inductive SearchReply :=
| SearchRaised
| SearchGot (results : SearchDict).

(** The summarization request: [headers] and the [json] payload. *)
Record Payload := {
  pl_authorization : str;
  pl_inputs : str;
  pl_max_length : Z;
  pl_min_length : Z
}.

(** The response of [requests.post]: [status_code] and what
    [response.json()[0]["summary_text"]] evaluates to, [None] when that
    expression raises. *)
Record Response := {
  status_code : Z;
  summary_text : option str
}.

Inductive PostReply :=
| PostRaised
| PostGot (response : Response).

(** What [urlparse(url)] gives: its [netloc], or the [ValueError] it
    raises on a URL it cannot take apart. *)
Inductive ParsedUrl :=
| UrlRaised (message : str)
| UrlParsed (netloc : str).

(** Every request that leaves the process is recorded. *)
Inductive Request :=
| ReqArticle (url : str)
| ReqSearch (params : SearchParams)
| ReqPost (api_url : str) (payload : Payload).

(** * The object *)

(** A value of [self.content]: the dictionary built in [scrape_website]. *)
Record Doc := {
  title : str;
  text : str;
  publish_date : option str;
  authors : list str;
  top_image : str;
  source_url : str
}.

Record WebScraperAI := {
  serpapi_key : str;
  hf_api_key : str;
  search_results : list str;
  content : dict Doc;
  summaries : dict str;
  failed_urls : list str
}.

Definition with_serpapi_key (v : str) (self : WebScraperAI) :=
  {| serpapi_key := v; hf_api_key := hf_api_key self;
     search_results := search_results self; content := content self;
     summaries := summaries self; failed_urls := failed_urls self |}.

Definition with_hf_api_key (v : str) (self : WebScraperAI) :=
  {| serpapi_key := serpapi_key self; hf_api_key := v;
     search_results := search_results self; content := content self;
     summaries := summaries self; failed_urls := failed_urls self |}.

Definition with_search_results (v : list str) (self : WebScraperAI) :=
  {| serpapi_key := serpapi_key self; hf_api_key := hf_api_key self;
     search_results := v; content := content self;
     summaries := summaries self; failed_urls := failed_urls self |}.

Definition with_content (v : dict Doc) (self : WebScraperAI) :=
  {| serpapi_key := serpapi_key self; hf_api_key := hf_api_key self;
     search_results := search_results self; content := v;
     summaries := summaries self; failed_urls := failed_urls self |}.

Definition with_summaries (v : dict str) (self : WebScraperAI) :=
  {| serpapi_key := serpapi_key self; hf_api_key := hf_api_key self;
     search_results := search_results self; content := content self;
     summaries := v; failed_urls := failed_urls self |}.

Definition with_failed_urls (v : list str) (self : WebScraperAI) :=
  {| serpapi_key := serpapi_key self; hf_api_key := hf_api_key self;
     search_results := search_results self; content := content self;
     summaries := summaries self; failed_urls := v |}.

(** [__init__]: the two keys come from the process environment, the empty
    string when a variable is not set. *)
Definition __init__ (env_serpapi_key env_huggingface_key : str)
  : WebScraperAI :=
  {| serpapi_key := env_serpapi_key; hf_api_key := env_huggingface_key;
     search_results := []; content := []; summaries := [];
     failed_urls := [] |}.

Definition set_serpapi_key (key : str) (self : WebScraperAI) : WebScraperAI :=
  with_serpapi_key key self.

Definition set_hf_api_key (key : str) (self : WebScraperAI) : WebScraperAI :=
  with_hf_api_key key self.

(** * The services the methods call *)

Class Services := {
  (** The remote servers and their state. *)
  Env : Type;
  datetime : Type;
  (** [str(d)] of a [datetime]. *)
  str_of_datetime : datetime -> str;
  (** [Article(url)], [download()], [parse()]. *)
  article_fetch : str -> Env -> Fetched datetime * Env;
  (** [GoogleSearch(params).get_dict()]. *)
  google_search : SearchParams -> Env -> SearchReply * Env;
  (** [requests.post(API_URL, headers=headers, json=payload)]. *)
  requests_post : str -> Payload -> Env -> PostReply * Env;
  (** [nltk.tokenize.sent_tokenize]. *)
  sent_tokenize : str -> list str;
  (** [urlparse(url)]. *)
  urlparse : str -> ParsedUrl;
  (** The file [open(path, "w")] and [open(path, "r")] work on, or [None]
      when [open] raises because the path names no place for a file: an
      empty path, a missing folder, a folder.  Two paths can name one
      file.  The folders do not change while the process runs. *)
  locate : str -> option str;
  (** The process can write [scraper_results.json], the default of
      [save_results], in its working directory. *)
  locate_default : locate (lit "scraper_results.json") <> None
}.

(** * The methods *)

Section Methods.

Context {services : Services}.

Record World := {
  env : Env;
  sent : list Request
}.

Definition download_and_parse (url : str) (w : World)
  : Fetched datetime * World :=
  let (r, e) := article_fetch url (env w) in
  (r, {| env := e; sent := sent w ++ [ReqArticle url] |}).

Definition get_dict (params : SearchParams) (w : World)
  : SearchReply * World :=
  let (r, e) := google_search params (env w) in
  (r, {| env := e; sent := sent w ++ [ReqSearch params] |}).

Definition post (api_url : str) (payload : Payload) (w : World)
  : PostReply * World :=
  let (r, e) := requests_post api_url payload (env w) in
  (r, {| env := e; sent := sent w ++ [ReqPost api_url payload] |}).

(** ** [search_web] *)

Definition serpapi_key_message : str :=
  lit "SerpAPI key is not set. Please set it using environment variable SERPAPI_KEY.".

(** [[result["link"] for result in entries]]: a [KeyError] when an entry has
    no link. *)
Fixpoint links (entries : list (option str)) : option (list str) :=
  match entries with
  | [] => Some []
  | Some link :: rest =>
      match links rest with
      | Some ls => Some (link :: ls)
      | None => None
      end
  | None :: _ => None
  end.

Definition search_web (query : str) (num_results : Z)
  (self : WebScraperAI) (w : World)
  : outcome (list str) * WebScraperAI * World :=
  if negb (truthy (serpapi_key self)) then
    (Raised (ValueError serpapi_key_message), self, w)
  else
    let params := {| sp_q := query; sp_api_key := serpapi_key self;
                     sp_num := num_results |} in
    let (reply, w') := get_dict params w in
    match reply with
    | SearchGot results =>
        match organic_results results with
        | Some entries =>
            match links (slice_to num_results entries) with
            | Some urls =>
                let self' := with_search_results urls self in
                (Returned (search_results self'), self', w')
            | None => (Returned [], self, w')
            end
        | None => (Returned [], self, w')
        end
    | SearchRaised => (Returned [], self, w')
    end.

(** ** [scrape_website] *)

(** The test of line 90: [not article.text or len(article.text.strip()) < 50]. *)
Definition no_significant_content (article : Article datetime) : bool :=
  negb (truthy (art_text article))
  || (len (strip (art_text article)) <? 50)%Z.

Definition make_doc (url : str) (article : Article datetime) : Doc :=
  {| title := art_title article;
     text := art_text article;
     publish_date :=
       match art_publish_date article with
       | Some d => Some (str_of_datetime d)
       | None => None
       end;
     authors := art_authors article;
     top_image := art_top_image article;
     source_url := url |}.

(** Lines 106 to 109, the handler of [except Exception as e]: the line
    it prints holds the URL and the text of the exception; when [print]
    raises, the exception leaves the method and line 108 is not reached. *)
Definition scrape_failed (url : str) (self : WebScraperAI)
  : outcome (option Doc) * WebScraperAI :=
  match print (lit "Error scraping " ++ url) with
  | Returned _ =>
      (Returned None, with_failed_urls (failed_urls self ++ [url]) self)
  | Raised e => (Raised e, self)
  end.

(** Lines 84 to 109.  Line 91 is inside the [try]: when its [print]
    raises, the handler runs. *)
Definition scrape_website (url : str) (self : WebScraperAI) (w : World)
  : outcome (option Doc) * WebScraperAI * World :=
  let (fetched, w') := download_and_parse url w in
  match fetched with
  | FetchParsed article =>
      if no_significant_content article then
        match print (lit "No significant content found on " ++ url) with
        | Returned _ =>
            (Returned None,
             with_failed_urls (failed_urls self ++ [url]) self, w')
        | Raised _ => (scrape_failed url self, w')
        end
      else
        let self' := with_content (dict_set url (make_doc url article)
                                            (content self)) self in
        (Returned (dict_get url (content self')), self', w')
  | FetchRaised => (scrape_failed url self, w')
  end.

(** ** [batch_scrape] *)

(** The [for] loop of lines 116 to 120.  Nothing catches what line 117 or
    [scrape_website] raises: the loop ends there and [results] is lost. *)
Fixpoint batch_loop (urls : list str) (results : list (str * Doc))
  (self : WebScraperAI) (w : World)
  : outcome (list (str * Doc)) * WebScraperAI * World :=
  match urls with
  | [] => (Returned results, self, w)
  | url :: rest =>
      match print (lit "Scraping: " ++ url) with
      | Returned _ =>
          let '(result, self', w') := scrape_website url self w in
          match result with
          | Returned (Some doc) =>
              batch_loop rest (results ++ [(url, doc)]) self' w'
          | Returned None => batch_loop rest results self' w'
          | Raised e => (Raised e, self', w')
          end
      | Raised e => (Raised e, self, w)
      end
  end.

Definition batch_scrape (urls : list str) (self : WebScraperAI) (w : World)
  : outcome (list (str * Doc)) * WebScraperAI * World :=
  batch_loop urls [] (with_failed_urls [] self) w.

(** ** [summarize_text] *)

Definition _simple_summarize (text : str) (num_sentences : Z) : str :=
  let sentences := sent_tokenize text in
  join (lit " ") (slice_to num_sentences sentences).

Definition API_URL : str :=
  lit "https://api-inference.huggingface.co/models/facebook/bart-large-cnn".

Definition summarize_text (text : str) (max_length : Z)
  (self : WebScraperAI) (w : World) : str * World :=
  if negb (truthy (hf_api_key self)) then (_simple_summarize text 5, w)
  else
    let text := if (5000 <? len text)%Z then slice_to 5000 text else text in
    let payload := {| pl_authorization := lit "Bearer " ++ hf_api_key self;
                      pl_inputs := text;
                      pl_max_length := max_length;
                      pl_min_length := 100 |} in
    let (reply, w') := post API_URL payload w in
    match reply with
    | PostGot response =>
        if (status_code response =? 200)%Z then
          match summary_text response with
          | Some summary => (summary, w')
          | None => (_simple_summarize text 5, w')
          end
        else (_simple_summarize text 5, w')
    | PostRaised => (_simple_summarize text 5, w')
    end.

(** ** [analyze_and_summarize] *)

(** The [for] loop of lines 165 to 170 over [self.content.items()].  Line
    166 prints the URL of a stored document, one whose page the extractor
    has downloaded; the line is left out. *)
Fixpoint analyze_loop (items : list (str * Doc)) (all_text : str)
  (self : WebScraperAI) (w : World) : str * WebScraperAI * World :=
  match items with
  | [] => (all_text, self, w)
  | (url, data) :: rest =>
      let (summary, w') := summarize_text (text data) 500 self w in
      let self' := with_summaries (dict_set url summary (summaries self))
                                  self in
      analyze_loop rest
        (all_text ++ title data ++ newline ++ text data ++ newline ++ newline)
        self' w'
  end.

Definition analyze_and_summarize (self : WebScraperAI) (w : World)
  : dict str * WebScraperAI * World :=
  let '(all_text, self1, w1) := analyze_loop (content self) [] self w in
  if truthy all_text then
    let (overall_summary, w2) := summarize_text all_text 1000 self1 w1 in
    let self2 := with_summaries
                   (dict_set (lit "overall") overall_summary (summaries self1))
                   self1 in
    (summaries self2, self2, w2)
  else (summaries self1, self1, w1).

(** ** [suggest_alternative_resources] *)

(** Lines 198 to 200, which are in no [try]: the query made from the
    failed URL, or the [ValueError] of [urlparse]. *)
Definition site_query (failed_url : str) : outcome str :=
  match urlparse failed_url with
  | UrlParsed domain =>
      Returned (lit "site:" ++ domain ++ lit " information")
  | UrlRaised message => Raised (ValueError message)
  end.

Definition suggest_alternative_resources (failed_url : str)
  (query : option str) (self : WebScraperAI) (w : World)
  : outcome (list str) * WebScraperAI * World :=
  let query :=
    match query with
    | Some q => if truthy q then Returned q else site_query failed_url
    | None => site_query failed_url
    end in
  match query with
  | Returned query =>
      match search_web query 3 self w with
      | (Returned urls, self', w') => (Returned urls, self', w')
      | (Raised _, self', w') => (Returned [], self', w')
      end
  | Raised e => (Raised e, self, w)
  end.

End Methods.

(** The three components of what a method gives back. *)
Definition value {A S W} (r : A * S * W) : A := fst (fst r).
Definition object {A S W} (r : A * S * W) : S := snd (fst r).
Definition world {A S W} (r : A * S * W) : W := snd r.

(** * The result store *)

(** ** The values [json.dump] is given and [json.load] gives back *)

Unset Elimination Schemes.

(** [None], a [str], a [list], a [dict] with [str] keys: the values the
    saved document is made of.  A [JDict] lists its items in order. *)
Inductive json :=
| JNull
| JStr (s : str)
| JList (items : list json)
| JDict (members : list (str * json)).

Set Elimination Schemes.

(** Induction on a value gives the property for the items of a list and
    for the values of a dictionary. *)
Section JsonInduction.

Variable P : json -> Prop.
Hypothesis Hnull : P JNull.
Hypothesis Hstr : forall s, P (JStr s).
Hypothesis Hlist : forall items, Forall P items -> P (JList items).
Hypothesis Hdict :
  forall members, Forall (fun m => P (snd m)) members -> P (JDict members).

Fixpoint json_ind (j : json) : P j :=
  match j with
  | JNull => Hnull
  | JStr s => @Hstr s
  | JList items =>
      @Hlist items ((fix all (l : list json) : Forall P l :=
                match l with
                | [] => Forall_nil P
                | x :: l' => Forall_cons x (json_ind x) (all l')
                end) items)
  | JDict members =>
      @Hdict members ((fix all (l : list (str * json))
                : Forall (fun m => P (snd m)) l :=
                match l with
                | [] => Forall_nil _
                | m :: l' => Forall_cons m (json_ind (snd m)) (all l')
                end) members)
  end.

End JsonInduction.

(** ** [json.dump(results, f, indent=2, ensure_ascii=False)] *)

Definition hex_digit (n : N) : char :=
  (if n <? 10 then 0x30 + n else 0x61 + (n - 10))%N.

(** One character inside a string literal: the quote, the backslash and
    the control characters are escaped, every other character is written as
    it is. *)
Definition escape_char (c : char) : str :=
  (if c =? 0x22 then [0x5C; 0x22]
   else if c =? 0x5C then [0x5C; 0x5C]
   else if c =? 0x0A then [0x5C; 0x6E]
   else if c =? 0x0D then [0x5C; 0x72]
   else if c =? 0x09 then [0x5C; 0x74]
   else if c =? 0x08 then [0x5C; 0x62]
   else if c =? 0x0C then [0x5C; 0x66]
   else if c <? 0x20 then
     [0x5C; 0x75; 0x30; 0x30; hex_digit (c / 16); hex_digit (c mod 16)]
   else [c])%N.

Definition encode_basestring (s : str) : str :=
  [0x22%N] ++ flat_map escape_char s ++ [0x22%N].

(** A line break and the indentation of a nesting level, two spaces a
    level. *)
Definition newline_indent (level : nat) : str :=
  newline ++ repeat 0x20%N (2 * level).

(** The comma between two items, and the line break after it. *)
Definition item_separator (level : nat) : str :=
  lit "," ++ newline_indent level.

Fixpoint encode (level : nat) (j : json) : str :=
  match j with
  | JNull => lit "null"
  | JStr s => encode_basestring s
  | JList items =>
      match map (encode (S level)) items with
      | [] => lit "[]"
      | chunks =>
          lit "[" ++ newline_indent (S level)
          ++ join (item_separator (S level)) chunks
          ++ newline_indent level ++ lit "]"
      end
  | JDict members =>
      match map (fun m => encode_basestring (fst m) ++ lit ": "
                          ++ encode (S level) (snd m)) members with
      | [] => lit "{}"
      | chunks =>
          lit "{" ++ newline_indent (S level)
          ++ join (item_separator (S level)) chunks
          ++ newline_indent level ++ lit "}"
      end
  end.

(** A key, the colon, and the value of the key. *)
Definition member_chunk (level : nat) (m : str * json) : str :=
  encode_basestring (fst m) ++ lit ": " ++ encode level (snd m).

Definition dumps (j : json) : str := encode 0 j.

(** ** The file, opened with [encoding="utf-8"] *)

(** The bytes of one code point; none for a surrogate, which the codec
    refuses, and for a number that is no code point. *)
Definition utf8_char (c : char) : option (list N) :=
  (if c <? 0x80 then Some [c]
   else if c <? 0x800 then Some [0xC0 + c / 0x40; 0x80 + c mod 0x40]
   else if c <? 0x10000 then
     if (0xD800 <=? c) && (c <=? 0xDFFF) then None
     else Some [0xE0 + c / 0x1000; 0x80 + (c / 0x40) mod 0x40;
                0x80 + c mod 0x40]
   else if c <? 0x110000 then
     Some [0xF0 + c / 0x40000; 0x80 + (c / 0x1000) mod 0x40;
           0x80 + (c / 0x40) mod 0x40; 0x80 + c mod 0x40]
   else None)%N.

Fixpoint utf8_encode (s : str) : option (list N) :=
  match s with
  | [] => Some []
  | c :: s' =>
      match utf8_char c, utf8_encode s' with
      | Some bs, Some bs' => Some (bs ++ bs')
      | _, _ => None
      end
  end.

Definition continuation (b : N) : bool := ((0x80 <=? b) && (b <? 0xC0))%N.

Definition cons_char (c : char) (s : option str) : option str :=
  match s with Some s' => Some (c :: s') | None => None end.

Fixpoint utf8_decode (bs : list N) : option str :=
  match bs with
  | [] => Some []
  | b0 :: r0 =>
      (if b0 <? 0x80 then cons_char b0 (utf8_decode r0)
       else if b0 <? 0xC2 then None
       else if b0 <? 0xE0 then
         match r0 with
         | b1 :: r1 =>
             if continuation b1 then
               cons_char ((b0 - 0xC0) * 0x40 + (b1 - 0x80)) (utf8_decode r1)
             else None
         | _ => None
         end
       else if b0 <? 0xF0 then
         match r0 with
         | b1 :: b2 :: r2 =>
             let c := (b0 - 0xE0) * 0x1000 + (b1 - 0x80) * 0x40
                      + (b2 - 0x80) in
             if continuation b1 && continuation b2
                && (0x800 <=? c) && negb ((0xD800 <=? c) && (c <=? 0xDFFF))
             then cons_char c (utf8_decode r2)
             else None
         | _ => None
         end
       else if b0 <? 0xF5 then
         match r0 with
         | b1 :: b2 :: b3 :: r3 =>
             let c := (b0 - 0xF0) * 0x40000 + (b1 - 0x80) * 0x1000
                      + (b2 - 0x80) * 0x40 + (b3 - 0x80) in
             if continuation b1 && continuation b2 && continuation b3
                && (0x10000 <=? c) && (c <? 0x110000)
             then cons_char c (utf8_decode r3)
             else None
         | _ => None
         end
       else None)%N
  end.

(** What a file holds: the bytes of a file that was written and closed, or
    a file whose writing stopped part-way, after [open] had emptied it. *)
Inductive file :=
| Complete (data : list N)
| Torn.

(** The files of the disk, each under the name [locate] gives it. *)
Definition Files := dict file.

(** ** [save_results] *)

Definition doc_value (d : Doc) : json :=
  JDict [(lit "title", JStr (title d));
         (lit "text", JStr (text d));
         (lit "publish_date",
          match publish_date d with Some s => JStr s | None => JNull end);
         (lit "authors", JList (map JStr (authors d)));
         (lit "top_image", JStr (top_image d));
         (lit "source_url", JStr (source_url d))].

Definition content_value (c : dict Doc) : json :=
  JDict (map (fun item => (fst item, doc_value (snd item))) c).

Definition summaries_value (s : dict str) : json :=
  JDict (map (fun item => (fst item, JStr (snd item))) s).

Definition results_of (self : WebScraperAI) : json :=
  JDict [(lit "search_results", JList (map JStr (search_results self)));
         (lit "content", content_value (content self));
         (lit "summaries", summaries_value (summaries self));
         (lit "failed_urls", JList (map JStr (failed_urls self)))].

Section Saving.

Context {services : Services}.

(** Lines 181 to 192.  [open] raises before anything is written; the codec
    raises in the middle of the writing; line 191 prints the path after the
    file is closed. *)
Definition save_results (filename : str) (self : WebScraperAI) (fs : Files)
  : outcome str * Files :=
  let results := results_of self in
  match locate filename with
  | Some place =>
      match utf8_encode (dumps results) with
      | Some data =>
          let fs' := dict_set place (Complete data) fs in
          match print (lit "Results saved to " ++ filename) with
          | Returned _ => (Returned filename, fs')
          | Raised e => (Raised e, fs')
          end
      | None => (Raised UnicodeEncodeError, dict_set place Torn fs)
      end
  | None => (Raised OSError, fs)
  end.

End Saving.

(** ** Reading the document back: [json.load] on the file *)

Definition is_ws (c : char) : bool :=
  ((c =? 0x20) || (c =? 0x09) || (c =? 0x0A) || (c =? 0x0D))%N.

Fixpoint skip_ws (s : str) : str :=
  match s with
  | [] => []
  | c :: s' => if is_ws c then skip_ws s' else s
  end.

Definition hex_value (c : char) : option N :=
  (if (0x30 <=? c) && (c <=? 0x39) then Some (c - 0x30)
   else if (0x61 <=? c) && (c <=? 0x66) then Some (c - 0x61 + 10)
   else if (0x41 <=? c) && (c <=? 0x46) then Some (c - 0x41 + 10)
   else None)%N.

(** The four hexadecimal digits after [\u]. *)
Definition hex4 (s : str) : option (N * str) :=
  match s with
  | a :: b :: c :: d :: rest =>
      match hex_value a, hex_value b, hex_value c, hex_value d with
      | Some a, Some b, Some c, Some d =>
          Some ((((a * 16 + b) * 16 + c) * 16 + d)%N, rest)
      | _, _, _, _ => None
      end
  | _ => None
  end.

Definition unescape (e : char) : option char :=
  (if e =? 0x22 then Some 0x22
   else if e =? 0x5C then Some 0x5C
   else if e =? 0x2F then Some 0x2F
   else if e =? 0x62 then Some 0x08
   else if e =? 0x66 then Some 0x0C
   else if e =? 0x6E then Some 0x0A
   else if e =? 0x72 then Some 0x0D
   else if e =? 0x74 then Some 0x09
   else None)%N.

(** The characters of a string literal after its opening quote, up to the
    closing quote, and what follows it. *)
Fixpoint scanstring (fuel : nat) (s : str) (acc : str)
  : option (str * str) :=
  match fuel with
  | O => None
  | S fuel' =>
      match s with
      | [] => None
      | c :: rest =>
          (if c =? 0x22 then Some (rev acc, rest)
           else if c =? 0x5C then
             match rest with
             | [] => None
             | e :: rest' =>
                 if e =? 0x75 then
                   match hex4 rest' with
                   | Some (uni, rest2) =>
                       if (0xD800 <=? uni) && (uni <=? 0xDBFF) then
                         match rest2 with
                         | b :: u :: rest3 =>
                             if (b =? 0x5C) && (u =? 0x75) then
                               match hex4 rest3 with
                               | Some (uni2, rest4) =>
                                   if (0xDC00 <=? uni2) && (uni2 <=? 0xDFFF)
                                   then
                                     scanstring fuel' rest4
                                       (0x10000 + ((uni - 0xD800) * 0x400
                                                   + (uni2 - 0xDC00)) :: acc)
                                   else scanstring fuel' rest2 (uni :: acc)
                               | None => None
                               end
                             else scanstring fuel' rest2 (uni :: acc)
                         | _ => scanstring fuel' rest2 (uni :: acc)
                         end
                       else scanstring fuel' rest2 (uni :: acc)
                   | None => None
                   end
                 else
                   match unescape e with
                   | Some c' => scanstring fuel' rest' (c' :: acc)
                   | None => None
                   end
             end
           else if c <? 0x20 then None
           else scanstring fuel' rest (c :: acc))%N
      end
  end.

Definition scan_string (s : str) : option (str * str) :=
  scanstring (List.length s) s [].

(** One value at the head of the text, and what follows it.  Numbers and
    the constants [true] and [false] are not read: the saved document has
    none. *)
Fixpoint scan_once (fuel : nat) (s : str) : option (json * str) :=
  match fuel with
  | O => None
  | S fuel' =>
      match s with
      | [] => None
      | c :: rest =>
          (if c =? 0x22 then
             match scan_string rest with
             | Some (k, r) => Some (JStr k, r)
             | None => None
             end
           else if c =? 0x7B then
             match skip_ws rest with
             | [] => None
             | c' :: rest' =>
                 if c' =? 0x7D then Some (JDict [], rest')
                 else scan_members fuel' (c' :: rest') []
             end
           else if c =? 0x5B then
             match skip_ws rest with
             | [] => None
             | c' :: rest' =>
                 if c' =? 0x5D then Some (JList [], rest')
                 else scan_items fuel' (c' :: rest') []
             end
           else
             match s with
             | n :: u :: l :: l' :: r =>
                 if (n =? 0x6E) && (u =? 0x75) && (l =? 0x6C) && (l' =? 0x6C)
                 then Some (JNull, r) else None
             | _ => None
             end)%N
      end
  end
with scan_items (fuel : nat) (s : str) (acc : list json)
  : option (json * str) :=
  match fuel with
  | O => None
  | S fuel' =>
      match scan_once fuel' s with
      | Some (x, r) =>
          match skip_ws r with
          | [] => None
          | c :: r' =>
              (if c =? 0x2C then scan_items fuel' (skip_ws r') (x :: acc)
               else if c =? 0x5D then Some (JList (rev (x :: acc)), r')
               else None)%N
          end
      | None => None
      end
  end
with scan_members (fuel : nat) (s : str) (acc : list (str * json))
  : option (json * str) :=
  match fuel with
  | O => None
  | S fuel' =>
      match s with
      | [] => None
      | q :: rest =>
          (if q =? 0x22 then
             match scan_string rest with
             | Some (k, r) =>
                 match skip_ws r with
                 | [] => None
                 | c :: r1 =>
                     if c =? 0x3A then
                       match scan_once fuel' (skip_ws r1) with
                       | Some (v, r2) =>
                           match skip_ws r2 with
                           | [] => None
                           | c2 :: r3 =>
                               if c2 =? 0x2C then
                                 scan_members fuel' (skip_ws r3)
                                              ((k, v) :: acc)
                               else if c2 =? 0x7D then
                                 Some (JDict (rev ((k, v) :: acc)), r3)
                               else None
                           end
                       | None => None
                       end
                     else None
                 end
             | None => None
             end
           else None)%N
      end
  end.

(** The text of a document as a syntax tree: one value, white space around
    it, nothing else. *)
Definition parse (s : str) : option json :=
  let s := skip_ws s in
  match scan_once (S (List.length s)) s with
  | Some (j, rest) =>
      match skip_ws rest with
      | [] => Some j
      | _ :: _ => None
      end
  | None => None
  end.

(** An object becomes a [dict]: a key that comes again replaces the value
    of the key. *)
Fixpoint from_pairs {V} (pairs : list (str * V)) (d : dict V) : dict V :=
  match pairs with
  | [] => d
  | (k, v) :: rest => from_pairs rest (dict_set k v d)
  end.

Fixpoint as_python (j : json) : json :=
  match j with
  | JNull => JNull
  | JStr s => JStr s
  | JList items => JList (map as_python items)
  | JDict members =>
      JDict (from_pairs (map (fun m => (fst m, as_python (snd m))) members)
                        [])
  end.

Definition loads (s : str) : option json :=
  match parse s with
  | Some j => Some (as_python j)
  | None => None
  end.

(** [json.load(open(filename, encoding="utf-8"))]: nothing when the path
    holds no complete file, when its bytes are not UTF-8, or when the text
    is not a document. *)
Definition read_back (place : str) (fs : Files) : option json :=
  match dict_get place fs with
  | Some (Complete data) =>
      match utf8_decode data with
      | Some s => loads s
      | None => None
      end
  | _ => None
  end.

Definition reload {services : Services} (filename : str) (fs : Files)
  : option json :=
  match locate filename with
  | Some place => read_back place fs
  | None => None
  end.

(** [document[key]] *)
Definition field (key : str) (document : json) : option json :=
  match document with
  | JDict members => dict_get key members
  | _ => None
  end.

(** ** What the proofs about the scanner speak of *)

(** The number of calls the scanner makes on the text of a value. *)
Fixpoint weight (j : json) : nat :=
  match j with
  | JNull => 1
  | JStr _ => 1
  | JList items => S (list_sum (map (fun x => S (weight x)) items))
  | JDict members =>
      S (list_sum (map (fun m => S (weight (snd m))) members))
  end.

(** The text of a value starts with [n], a quote, or an opening bracket. *)
Definition starts_value (s : str) : bool :=
  match s with
  | [] => false
  | c :: _ => ((c =? 0x6E) || (c =? 0x22) || (c =? 0x5B) || (c =? 0x7B))%N
  end.

(** What the induction gives for a value: the scanner reads its text back,
    whatever the nesting level and whatever follows. *)
Definition reads_back (j : json) : Prop :=
  forall (level : nat) (rest : str) (fuel : nat),
    (weight j <= fuel)%nat ->
    scan_once fuel (encode level j ++ rest) = Some (j, rest).

(** ** Strings the codec accepts *)

Definition plain_doc (d : Doc) : bool :=
  plain (title d) && plain (text d)
  && match publish_date d with Some s => plain s | None => true end
  && forallb plain (authors d)
  && plain (top_image d) && plain (source_url d).

(** Every string that [save_results] writes is made of scalar values. *)
Definition plain_state (self : WebScraperAI) : bool :=
  forallb plain (search_results self)
  && forallb (fun item => plain (fst item) && plain_doc (snd item))
             (content self)
  && forallb (fun item => plain (fst item) && plain (snd item))
             (summaries self)
  && forallb plain (failed_urls self).

Fixpoint plain_json (j : json) : bool :=
  match j with
  | JNull => true
  | JStr s => plain s
  | JList items => forallb plain_json items
  | JDict members =>
      forallb (fun m => plain (fst m) && plain_json (snd m)) members
  end.

(** * Runs and reachable states *)

Section Runs.

Context {services : Services}.

(** What a single extraction yields from what was fetched: the document of
    a success, nothing for a failure. *)
Definition extracted (url : str) (fetched : Fetched datetime) : option Doc :=
  match fetched with
  | FetchParsed article =>
      if no_significant_content article then None
      else Some (make_doc url article)
  | FetchRaised => None
  end.

(** The URLs a batch gets to: those before the first one that line 117
    cannot print. *)
Fixpoint reached (urls : list str) : list str :=
  match urls with
  | [] => []
  | url :: rest => if plain url then url :: reached rest else []
  end.

(** The pages the servers hand out when [urls] are requested one after the
    other, starting from [e]. *)
Fixpoint fetch_run (urls : list str) (e : Env)
  : list (str * Fetched datetime) :=
  match urls with
  | [] => []
  | url :: rest =>
      let (fetched, e') := article_fetch url e in
      (url, fetched) :: fetch_run rest e'
  end.

Fixpoint successes (run : list (str * Fetched datetime))
  : list (str * Doc) :=
  match run with
  | [] => []
  | (url, fetched) :: rest =>
      match extracted url fetched with
      | Some doc => (url, doc) :: successes rest
      | None => successes rest
      end
  end.

Fixpoint failures (run : list (str * Fetched datetime)) : list str :=
  match run with
  | [] => []
  | (url, fetched) :: rest =>
      match extracted url fetched with
      | Some _ => failures rest
      | None => url :: failures rest
      end
  end.



(** [l1] is [l2] with some entries left out, the others in their order. *)
Inductive subsequence {A : Type} : list A -> list A -> Prop :=
| sub_nil : subsequence [] []
| sub_skip x l1 l2 : subsequence l1 l2 -> subsequence l1 (x :: l2)
| sub_keep x l1 l2 : subsequence l1 l2 -> subsequence (x :: l1) (x :: l2).

(** The states an object goes through: created by [__init__], then changed
    by its methods only, whatever the servers answer. *)
Inductive reachable : WebScraperAI -> Prop :=
| reach_init k1 k2 :
    reachable (__init__ k1 k2)
| reach_set_serpapi_key key self :
    reachable self -> reachable (set_serpapi_key key self)
| reach_set_hf_api_key key self :
    reachable self -> reachable (set_hf_api_key key self)
| reach_search_web query n self w :
    reachable self -> reachable (snd (fst (search_web query n self w)))
| reach_scrape_website url self w :
    reachable self -> reachable (snd (fst (scrape_website url self w)))
| reach_batch_scrape urls self w :
    reachable self -> reachable (snd (fst (batch_scrape urls self w)))
| reach_analyze_and_summarize self w :
    reachable self -> reachable (snd (fst (analyze_and_summarize self w)))
| reach_suggest url query self w :
    reachable self ->
    reachable (snd (fst (suggest_alternative_resources url query self w))).

(** Every stored document passed the length test and sits under its own
    URL. *)
Definition content_checked (self : WebScraperAI) : Prop :=
  forall url doc,
    dict_get url (content self) = Some doc ->
    (50 <= len (strip (text doc)))%Z /\ source_url doc = url.

(** The world after one page was requested. *)
Definition after_fetch (url : str) (w : World) : World :=
  {| env := snd (article_fetch url (env w));
     sent := sent w ++ [ReqArticle url] |}.

(** The content map after the documents of a run were stored one by one. *)
Fixpoint store_all (docs : list (str * Doc)) (d : dict Doc) : dict Doc :=
  match docs with
  | [] => d
  | (url, doc) :: rest => store_all rest (dict_set url doc d)
  end.

(** The servers after [urls] were requested one after the other. *)
Fixpoint env_after (urls : list str) (e : Env) : Env :=
  match urls with
  | [] => e
  | url :: rest => env_after rest (snd (article_fetch url e))
  end.

(** The text that goes to the provider: the first 5000 characters. *)
Definition provider_input (text : str) : str :=
  if (5000 <? len text)%Z then slice_to 5000 text else text.

(** What the provider answers to the request [summarize_text] sends. *)
Definition provider_reply (text : str) (max_length : Z)
  (self : WebScraperAI) (w : World) : PostReply :=
  fst (requests_post API_URL
         {| pl_authorization := lit "Bearer " ++ hf_api_key self;
            pl_inputs := provider_input text;
            pl_max_length := max_length;
            pl_min_length := 100 |} (env w)).

(** The call raised, or the status is not 200, or the body of a 200 is not
    the expected list. *)
Definition provider_failed (reply : PostReply) : Prop :=
  match reply with
  | PostRaised => True
  | PostGot response =>
      status_code response <> 200%Z \/ summary_text response = None
  end.

(** What the search provider answers to the request [search_web] sends. *)
Definition search_reply (query : str) (num_results : Z)
  (self : WebScraperAI) (w : World) : SearchReply :=
  fst (google_search
         {| sp_q := query; sp_api_key := serpapi_key self;
            sp_num := num_results |} (env w)).

(** The links of the first [num_results] organic results of a reply; none
    when the call raised, when the reply has no organic results, or when
    one of those entries has no link. *)
Definition reply_links (num_results : Z) (reply : SearchReply)
  : option (list str) :=
  match reply with
  | SearchGot results =>
      match organic_results results with
      | Some entries => links (slice_to num_results entries)
      | None => None
      end
  | SearchRaised => None
  end.

(** What holds of an object in every state it goes through. *)
Record well_formed (self : WebScraperAI) : Prop := {
  wf_checked : content_checked self;
  wf_summaries : content self = [] -> summaries self = [];
  wf_content_keys : NoDup (keys (content self));
  wf_summaries_keys : NoDup (keys (summaries self))
}.

End Runs.

(** * More about runs *)

Section MoreRuns.

Context {services : Services}.

(** The document of the last successful extraction of [url] in a run. *)
Fixpoint last_success (url : str) (run : list (str * Fetched datetime))
  : option Doc :=
  match run with
  | [] => None
  | (url', fetched) :: rest =>
      match last_success url rest with
      | Some doc => Some doc
      | None => if str_eqb url url' then extracted url' fetched else None
      end
  end.

(** [all_text] after the loop of [analyze_and_summarize]: title and text
    of every document, in the order of the content map. *)
Fixpoint combined_text (items : list (str * Doc)) : str :=
  match items with
  | [] => []
  | (_, data) :: rest =>
      title data ++ newline ++ text data ++ newline ++ newline
      ++ combined_text rest
  end.

(** The [headers] and [payload] of a summarization request. *)
Definition summary_payload (text : str) (max_length : Z)
  (self : WebScraperAI) : Payload :=
  {| pl_authorization := lit "Bearer " ++ hf_api_key self;
     pl_inputs := provider_input text;
     pl_max_length := max_length;
     pl_min_length := 100 |}.

(** The query [suggest_alternative_resources] searches for. *)
Definition alternative_query (failed_url : str) (query : option str)
  : outcome str :=
  match query with
  | Some (c :: q) => Returned (c :: q)
  | _ => site_query failed_url
  end.

End MoreRuns.

Section MoreAnalysis.

Context {services : Services}.



(** Every key of the summaries is the URL of a stored document, or
    ["overall"]. *)
Definition summaries_of_content (self : WebScraperAI) : Prop :=
  forall url,
    In url (keys (summaries self)) ->
    url = lit "overall" \/ In url (keys (content self)).

End MoreAnalysis.

(** * The [data] folder *)

(** What [clear_data_folder] finds in the folder: a regular file, which
    [os.unlink] deletes unless the system refuses ([locked]), or something
    that [os.path.isfile] turns down, such as a folder. *)
Inductive entry :=
| RegularFile (locked : bool)
| Subfolder.

(** What the path [data] is: nothing, something that is not a folder, a
    folder the process may not list, or a folder with its entries by
    name.  A name is what [os.listdir] gives: bytes of the name that are
    not UTF-8 come as surrogates. *)
Inductive data_path :=
| Missing
| NotAFolder
| Unlistable
| Folder (listing : dict entry).

(** [os.path.isfile(file_path)] *)
Definition isfile (filename : str) (listing : dict entry) : bool :=
  match dict_get filename listing with
  | Some (RegularFile _) => true
  | _ => false
  end.

Fixpoint dict_remove {V} (k : str) (d : dict V) : dict V :=
  match d with
  | [] => []
  | (k', v) :: d' =>
      if str_eqb k k' then d' else (k', v) :: dict_remove k d'
  end.

(** [os.unlink(file_path)]: the folder without the file, or nothing when
    the call raises. *)
Definition unlink (filename : str) (listing : dict entry)
  : option (dict entry) :=
  match dict_get filename listing with
  | Some (RegularFile false) => Some (dict_remove filename listing)
  | _ => None
  end.

(** The [for] loop of lines 37 to 43, over the names [os.listdir] gave.
    Line 43 prints the path of the file that could not be deleted; what
    its [print] raises leaves the method. *)
Fixpoint clear_loop (filenames : list str) (listing : dict entry)
  : outcome unit * dict entry :=
  match filenames with
  | [] => (Returned tt, listing)
  | filename :: rest =>
      if isfile filename listing then
        match unlink filename listing with
        | Some listing' => clear_loop rest listing'
        | None =>
            match print (lit "Failed to delete data/" ++ filename) with
            | Returned _ => clear_loop rest listing
            | Raised e => (Raised e, listing)
            end
        end
      else clear_loop rest listing
  end.

(** [os.listdir] is in no [try]: it raises [NotADirectoryError] or
    [PermissionError], both an [OSError]. *)
Definition clear_data_folder (data : data_path) : outcome unit * data_path :=
  match data with
  | Missing => (Returned tt, Missing)
  | NotAFolder => (Raised OSError, NotAFolder)
  | Unlistable => (Raised OSError, Unlistable)
  | Folder listing =>
      let (result, listing') := clear_loop (keys listing) listing in
      (result, Folder listing')
  end.

(** The entries [clear_data_folder] leaves: all but the regular files that
    can be deleted. *)
Definition stays (e : entry) : bool :=
  match e with
  | RegularFile false => false
  | _ => true
  end.

(** What one turn of the loop deletes: the file of that name, when it can
    be deleted. *)
Definition deleted_now (filename : str) (item : str * entry) : bool :=
  str_eqb filename (fst item) && negb (stays (snd item)).

(** Line 43 can print the name of every file that cannot be deleted. *)
Definition reports_print (listing : dict entry) : bool :=
  forallb (fun item =>
             match snd item with
             | RegularFile true => plain (fst item)
             | _ => true
             end) listing.

(** The names of a folder are distinct. *)
Definition well_listed (data : data_path) : Prop :=
  match data with
  | Folder listing => NoDup (keys listing)
  | _ => True
  end.

(** * The page [app.py] *)

(** ** The URLs of the text area *)

(** [s.split("\n")] *)
Fixpoint split_from (current : str) (s : str) : list str :=
  match s with
  | [] => [rev current]
  | c :: rest =>
      if (c =? 0x0A)%N then rev current :: split_from [] rest
      else split_from (c :: current) rest
  end.

Definition split_newline (s : str) : list str := split_from [] s.

(** Line 72:
    [[url.strip() for url in urls_input.split("\n") if url.strip()]]. *)
Definition typed_urls (urls_input : str) : list str :=
  map strip
      (filter (fun url => truthy (strip url)) (split_newline urls_input)).

(** ** The session and what the page shows *)

(** The attributes of [st.session_state] that [app.py] reads or writes.
    [ss_urls] and [ss_filename] are [None] while the attribute is not set;
    [ss_search_query] is [None] also when the attribute holds [None];
    [ss_scraped] tells that the attribute is set, which is to [True];
    [ss_summaries] tells that the attribute is set: it then names the
    dictionary [scraper.summaries] itself.  [ss_failed_urls] is the
    attribute the third tab reads. *)
Record Session := {
  ss_urls : option (list str);
  ss_search_query : option str;
  ss_scraped : bool;
  ss_summaries : bool;
  ss_filename : option str;
  ss_failed_urls : option (list str)
}.

Definition new_session : Session :=
  {| ss_urls := None; ss_search_query := None; ss_scraped := false;
     ss_summaries := false; ss_filename := None; ss_failed_urls := None |}.

(** The calls of [st.error], [st.success], [st.warning] and [st.balloons]
    of lines 55 to 108, with the number or the text they format. *)
Inductive Message :=
| ErrorKeyRequired
| SuccessFound (n : Z)
| ErrorNoResults
| ErrorText (message : str)
| SuccessProcessing (n : Z)
| WarningNoInput
| SuccessScraped (n : Z)
| SuccessAnalysisComplete
| Balloons
| WarningNoContent.

(** The search requests among the requests sent. *)
Definition is_search (r : Request) : bool :=
  match r with
  | ReqSearch _ => true
  | _ => false
  end.

Definition searches (sent : list Request) : list Request :=
  filter is_search sent.

(** The default of [save_results]. *)
Definition default_filename : str := lit "scraper_results.json".

Section Page.

Context {services : Services}.

(** What a run of the script works on: the cached scraper, the session,
    the servers and the disk. *)
Record Page := {
  pg_scraper : WebScraperAI;
  pg_session : Session;
  pg_world : World;
  pg_disk : Files
}.

(** ** The sidebar, lines 17 to 35 *)

Definition sidebar (env_serpapi_key env_huggingface_key : str)
  (serpapi_input hf_input : str) (scraper : WebScraperAI) : WebScraperAI :=
  let scraper :=
    if negb (truthy env_serpapi_key) then
      if truthy serpapi_input then set_serpapi_key serpapi_input scraper
      else scraper
    else scraper in
  if negb (truthy env_huggingface_key) then
    if truthy hf_input then set_hf_api_key hf_input scraper else scraper
  else scraper.

(** ** The button, lines 55 to 108 *)

(** Lines 57 to 77: where the URLs come from.  The [try] of line 60
    catches a [ValueError] only. *)
Definition choose_urls (env_serpapi_key query : str) (num_results : Z)
  (urls_input : str) (p : Page) : outcome unit * list Message * Page :=
  if negb (truthy env_serpapi_key)
     && negb (truthy (serpapi_key (pg_scraper p))) && truthy query then
    (Returned tt, [ErrorKeyRequired], p)
  else if truthy query then
    match search_web query num_results (pg_scraper p) (pg_world p) with
    | (Returned urls, scraper, w) =>
        if truthy urls then
          (Returned tt, [SuccessFound (len urls)],
           {| pg_scraper := scraper;
              pg_session :=
                {| ss_urls := Some urls;
                   ss_search_query := Some query;
                   ss_scraped := ss_scraped (pg_session p);
                   ss_summaries := ss_summaries (pg_session p);
                   ss_filename := ss_filename (pg_session p);
                   ss_failed_urls := ss_failed_urls (pg_session p) |};
              pg_world := w; pg_disk := pg_disk p |})
        else
          (Returned tt, [ErrorNoResults],
           {| pg_scraper := scraper; pg_session := pg_session p;
              pg_world := w; pg_disk := pg_disk p |})
    | (Raised (ValueError message), scraper, w) =>
        (Returned tt, [ErrorText message],
         {| pg_scraper := scraper; pg_session := pg_session p;
            pg_world := w; pg_disk := pg_disk p |})
    | (Raised e, scraper, w) =>
        (Raised e, [],
         {| pg_scraper := scraper; pg_session := pg_session p;
            pg_world := w; pg_disk := pg_disk p |})
    end
  else if truthy urls_input then
    let urls := typed_urls urls_input in
    (Returned tt, [SuccessProcessing (len urls)],
     {| pg_scraper := pg_scraper p;
        pg_session :=
          {| ss_urls := Some urls;
             ss_search_query := None;
             ss_scraped := ss_scraped (pg_session p);
             ss_summaries := ss_summaries (pg_session p);
             ss_filename := ss_filename (pg_session p);
             ss_failed_urls := ss_failed_urls (pg_session p) |};
        pg_world := pg_world p; pg_disk := pg_disk p |})
  else (Returned tt, [WarningNoInput], p).

(** Lines 99 to 108: summaries and the file, once something was scraped. *)
Definition analyze_and_save (p : Page)
  : outcome unit * list Message * Page :=
  if ss_scraped (pg_session p) then
    let '(summaries, scraper, w) :=
      analyze_and_summarize (pg_scraper p) (pg_world p) in
    if truthy summaries then
      let session :=
        {| ss_urls := ss_urls (pg_session p);
           ss_search_query := ss_search_query (pg_session p);
           ss_scraped := ss_scraped (pg_session p);
           ss_summaries := true;
           ss_filename := ss_filename (pg_session p);
           ss_failed_urls := ss_failed_urls (pg_session p) |} in
      match save_results default_filename scraper (pg_disk p) with
      | (Returned filename, disk) =>
          (Returned tt, [SuccessAnalysisComplete; Balloons],
           {| pg_scraper := scraper;
              pg_session :=
                {| ss_urls := ss_urls session;
                   ss_search_query := ss_search_query session;
                   ss_scraped := ss_scraped session;
                   ss_summaries := ss_summaries session;
                   ss_filename := Some filename;
                   ss_failed_urls := ss_failed_urls session |};
              pg_world := w; pg_disk := disk |})
      | (Raised e, disk) =>
          (Raised e, [SuccessAnalysisComplete],
           {| pg_scraper := scraper; pg_session := session;
              pg_world := w; pg_disk := disk |})
      end
    else
      (Returned tt, [WarningNoContent],
       {| pg_scraper := scraper; pg_session := pg_session p;
          pg_world := w; pg_disk := pg_disk p |})
  else (Returned tt, [], p).

(** The page once the batch of line 82 has returned: line 87 marks the
    session when the batch returned something. *)
Definition after_batch (results : list (str * Doc))
  (scraper : WebScraperAI) (w : World) (p : Page) : Page :=
  {| pg_scraper := scraper;
     pg_session :=
       if truthy results then
         {| ss_urls := ss_urls (pg_session p);
            ss_search_query := ss_search_query (pg_session p);
            ss_scraped := true;
            ss_summaries := ss_summaries (pg_session p);
            ss_filename := ss_filename (pg_session p);
            ss_failed_urls := ss_failed_urls (pg_session p) |}
       else pg_session p;
     pg_world := w; pg_disk := pg_disk p |}.

(** Lines 80 to 108: the batch over the URLs of the session.  The batch
    is in no [try]: what it raises ends the run of the script. *)
Definition scrape_and_analyze (p : Page)
  : outcome unit * list Message * Page :=
  match ss_urls (pg_session p) with
  | Some (url :: urls) =>
      match batch_scrape (url :: urls) (pg_scraper p) (pg_world p) with
      | (Returned results, scraper, w) =>
          let shown :=
            if truthy results then [SuccessScraped (len results)] else [] in
          let '(result, shown', p') :=
            analyze_and_save (after_batch results scraper w p) in
          (result, shown ++ shown', p')
      | (Raised e, scraper, w) =>
          (Raised e, [],
           {| pg_scraper := scraper; pg_session := pg_session p;
              pg_world := w; pg_disk := pg_disk p |})
      end
  | _ => (Returned tt, [], p)
  end.

(** A click on [Search & Scrape]. *)
Definition click (env_serpapi_key query : str) (num_results : Z)
  (urls_input : str) (p : Page) : outcome unit * list Message * Page :=
  let '(chosen, shown, p1) :=
    choose_urls env_serpapi_key query num_results urls_input p in
  match chosen with
  | Returned _ =>
      let '(result, shown', p2) := scrape_and_analyze p1 in
      (result, shown ++ shown', p2)
  | Raised e => (Raised e, shown, p1)
  end.

(** The three components of what a click gives. *)
Definition outcome_of (r : outcome unit * list Message * Page)
  : outcome unit := fst (fst r).
Definition shown_by (r : outcome unit * list Message * Page)
  : list Message := snd (fst r).
Definition page_after (r : outcome unit * list Message * Page) : Page :=
  snd r.

(** ** The pages a process goes through *)

(** The scraper is made once, from the environment the script reads; then
    the script runs again and again, with whatever is typed in the sidebar
    and in the first tab.  Between two runs the servers and the disk may
    change.  The pages are those of one browser session after the other:
    a new session starts empty, on the scraper the process already has. *)
Inductive page_reachable (env_serpapi_key env_huggingface_key : str)
  : Page -> Prop :=
| page_start w disk :
    page_reachable env_serpapi_key env_huggingface_key
      {| pg_scraper := __init__ env_serpapi_key env_huggingface_key;
         pg_session := new_session; pg_world := w; pg_disk := disk |}
| page_sidebar serpapi_input hf_input p :
    page_reachable env_serpapi_key env_huggingface_key p ->
    page_reachable env_serpapi_key env_huggingface_key
      {| pg_scraper := sidebar env_serpapi_key env_huggingface_key
                               serpapi_input hf_input (pg_scraper p);
         pg_session := pg_session p;
         pg_world := pg_world p; pg_disk := pg_disk p |}
| page_click query num_results urls_input p :
    page_reachable env_serpapi_key env_huggingface_key p ->
    page_reachable env_serpapi_key env_huggingface_key
      (snd (click env_serpapi_key query num_results urls_input p))
| page_elsewhere w disk p :
    page_reachable env_serpapi_key env_huggingface_key p ->
    page_reachable env_serpapi_key env_huggingface_key
      {| pg_scraper := pg_scraper p; pg_session := pg_session p;
         pg_world := w; pg_disk := disk |}
| page_new_session p :
    page_reachable env_serpapi_key env_huggingface_key p ->
    page_reachable env_serpapi_key env_huggingface_key
      {| pg_scraper := pg_scraper p; pg_session := new_session;
         pg_world := pg_world p; pg_disk := pg_disk p |}.

(** What holds of every such page. *)
Record page_sound (env_serpapi_key : str) (p : Page) : Prop := {
  ps_reachable : reachable (pg_scraper p);
  ps_key : truthy env_serpapi_key = true ->
           truthy (serpapi_key (pg_scraper p)) = true;
  ps_scraped : ss_scraped (pg_session p) = true ->
               content (pg_scraper p) <> [];
  ps_failed : ss_failed_urls (pg_session p) = None;
  ps_filename : forall f, ss_filename (pg_session p) = Some f ->
                          f = default_filename
}.

End Page.

(** * A small world to run the methods in *)

Module Demo.

(** Sentences end at a full stop, question mark or exclamation mark that is
    followed by white space: enough of [sent_tokenize] for plain English
    text, and like it a text without such a mark is a single sentence. *)
Definition ends_sentence (c : char) : bool :=
  ((c =? 0x2E) || (c =? 0x3F) || (c =? 0x21))%N.

Fixpoint split_sentences (current : str) (s : str) : list str :=
  match s with
  | [] => match current with [] => [] | _ :: _ => [rev current] end
  | c :: rest =>
      if ends_sentence c then
        match rest with
        | c' :: rest' =>
            if isspace c' then rev (c :: current) :: split_sentences [] rest'
            else split_sentences (c :: current) rest
        | [] => [rev (c :: current)]
        end
      else split_sentences (c :: current) rest
  end.

Definition good_url : str := lit "https://example.org/good".
Definition short_url : str := lit "https://example.org/short".
Definition gone_url : str := lit "https://example.org/gone".

(** A URL that ends in the first half of a surrogate pair, as the JSON
    escape of half an emoji gives it. *)
Definition odd_url : str := lit "https://example.org/" ++ [0xD83D%N].

(** A URL whose host opens a square bracket and does not close it. *)
Definition bracket_url : str := lit "http://[oops/page".

(** Enough of [urlparse] for a URL with a scheme: the [netloc] is what
    stands between the two slashes and the next slash, question mark or
    hash, and is empty without two slashes; a square bracket without its
    partner is refused. *)
Fixpoint after_slashes (s : str) : option str :=
  match s with
  | [] => None
  | c :: rest =>
      match rest with
      | c' :: rest' =>
          if ((c =? 0x2F) && (c' =? 0x2F))%N then Some rest'
          else after_slashes rest
      | [] => None
      end
  end.

Fixpoint up_to_path (s : str) : str :=
  match s with
  | [] => []
  | c :: rest =>
      if ((c =? 0x2F) || (c =? 0x3F) || (c =? 0x23))%N then []
      else c :: up_to_path rest
  end.

Definition parse_url (url : str) : ParsedUrl :=
  match after_slashes url with
  | Some rest =>
      let domain := up_to_path rest in
      if xorb (existsb (N.eqb 0x5B) domain) (existsb (N.eqb 0x5D) domain)
      then UrlRaised (lit "Invalid IPv6 URL")
      else UrlParsed domain
  | None => UrlParsed []
  end.

(** A working directory without folders: a path names a file when it is
    not empty and has no slash. *)
Definition in_working_directory (path : str) : option str :=
  if truthy path && negb (existsb (N.eqb 0x2F) path) then Some path
  else None.

Definition good_text : str :=
  lit "Rocq is a proof assistant. It checks proofs. It also runs programs.".

Definition good_article : Article unit :=
  {| art_title := lit "Good"; art_text := good_text;
     art_publish_date := Some tt; art_authors := [lit "A. Author"];
     art_top_image := lit "https://example.org/good.png" |}.

Definition short_article : Article unit :=
  {| art_title := lit "Short"; art_text := lit "   Not much here.   ";
     art_publish_date := None; art_authors := [];
     art_top_image := [] |}.

(** The servers count the requests they have answered.  One page is a full
    article, one is too short, every other URL cannot be downloaded; the
    search finds three links unless asked for ["nothing"] or ["broken"],
    and for ["emoji"] a good link and one cut in the middle of an emoji;
    the summarization endpoint is overloaded. *)
#[local] Instance services : Services := {|
  Env := nat;
  datetime := unit;
  str_of_datetime := fun _ => lit "2024-01-01 00:00:00";
  article_fetch := fun url n =>
    (if str_eqb url good_url then FetchParsed good_article
     else if str_eqb url short_url then FetchParsed short_article
     else FetchRaised, S n);
  google_search := fun params n =>
    (if str_eqb (sp_q params) (lit "nothing") then
       SearchGot {| organic_results := None |}
     else if str_eqb (sp_q params) (lit "broken") then SearchRaised
     else if str_eqb (sp_q params) (lit "emoji") then
       SearchGot {| organic_results := Some [Some good_url; Some odd_url] |}
     else SearchGot {| organic_results :=
            Some [Some good_url; Some short_url; Some gone_url] |}, S n);
  requests_post := fun _ _ n =>
    (PostGot {| status_code := 503; summary_text := None |}, S n);
  sent_tokenize := split_sentences [];
  urlparse := parse_url;
  locate := in_working_directory;
  locate_default := ltac:(discriminate)
|}.

(** The same servers, except that the summarization endpoint answers 200
    with a summary cut in the middle of an emoji: its JSON body holds the
    escape of the first half of a surrogate pair, which [response.json()]
    reads as a lone surrogate. *)
Definition garbling : Services := {|
  Env := nat;
  datetime := unit;
  str_of_datetime := fun _ => lit "2024-01-01 00:00:00";
  article_fetch := @article_fetch services;
  google_search := @google_search services;
  requests_post := fun _ _ n =>
    (PostGot {| status_code := 200;
                summary_text := Some (lit "Proofs " ++ [0xD83D%N]) |}, S n);
  sent_tokenize := split_sentences [];
  urlparse := parse_url;
  locate := in_working_directory;
  locate_default := ltac:(discriminate)
|}.

Definition fresh : World := {| env := 0%nat; sent := [] |}.

Definition fresh_garbling : @World garbling := @Build_World garbling 0%nat [].

(** An object with both keys, as [__init__] makes it. *)
Definition scraper : WebScraperAI :=
  __init__ (lit "serp-key") (lit "hf-key").

(** An object without the summarization key. *)
Definition frugal : WebScraperAI := __init__ (lit "serp-key") [].

(** An object without the search key. *)
Definition keyless : WebScraperAI := __init__ [] (lit "hf-key").

Definition six_sentences : str :=
  lit "One is first. Two is next! Is three here? Four. Five. Six is left out.".

(** A text of 5001 letters without any punctuation. *)
Definition long_word : str := repeat 0x61%N (N.to_nat 5001).

Definition results_file : str := lit "scraper_results.json".

(** The same object after an earlier search. *)
Definition searched : WebScraperAI :=
  with_search_results [lit "https://example.org/earlier"] scraper.

(** A [data] folder with a file, a subfolder and a file in use. *)
Definition data_folder : dict entry :=
  [(lit "old.json", RegularFile false);
   (lit "cache", Subfolder);
   (lit "busy.log", RegularFile true)].

(** A [data] folder with a file in use whose name is not UTF-8: the byte
    [0xFF] of the name comes as the surrogate [U+DCFF]. *)
Definition sealed_folder : dict entry :=
  [(lit "old.json", RegularFile false);
   (lit "busy" ++ [0xDCFF%N], RegularFile true)].

(** The page of a new process without keys in the environment, nothing
    typed yet and nothing on the disk. *)
Definition first_page : Page :=
  {| pg_scraper := __init__ [] []; pg_session := new_session;
     pg_world := fresh; pg_disk := [] |}.

(** The page of a new process that found both keys in its environment. *)
Definition keyed_page : Page :=
  {| pg_scraper := scraper; pg_session := new_session;
     pg_world := fresh; pg_disk := [] |}.

(** The page of a new process with the summarization key only, in front of
    the endpoint that cuts its summaries. *)
Definition garbled_page : @Page garbling :=
  @Build_Page garbling keyless new_session fresh_garbling [].

(** Two URLs typed with blanks around them and an empty line between. *)
Definition typed : str :=
  lit "  https://example.org/good " ++ newline ++ newline
  ++ lit "https://example.org/gone".

End Demo.

(** * Properties *)

Section DictFacts.

Lemma str_eqb_refl (a : str) : str_eqb a a = true.
Proof.
  induction a as [|c a IH]; simpl; [reflexivity|].
  now rewrite N.eqb_refl, IH.
Qed.

Lemma str_eqb_eq (a b : str) : str_eqb a b = true <-> a = b.
Proof.
  split.
  - revert b; induction a as [|x a IH]; intros [|y b] H; simpl in H;
      try discriminate; [reflexivity|].
    apply andb_true_iff in H as [Hxy Hab].
    apply N.eqb_eq in Hxy. apply IH in Hab. congruence.
  - intros ->. apply str_eqb_refl.
Qed.

Lemma str_eqb_neq (a b : str) : str_eqb a b = false <-> a <> b.
Proof.
  rewrite <- str_eqb_eq. destruct (str_eqb a b); split; congruence.
Qed.

Variable V : Type.

Lemma dict_get_set_same (k : str) (v : V) (d : dict V) :
  dict_get k (dict_set k v d) = Some v.
Proof.
  induction d as [|[k' v'] d IH]; simpl.
  - now rewrite str_eqb_refl.
  - destruct (str_eqb k k') eqn:E; simpl; rewrite E; [reflexivity|exact IH].
Qed.

Lemma dict_get_set_other (k k0 : str) (v : V) (d : dict V) :
  k0 <> k -> dict_get k0 (dict_set k v d) = dict_get k0 d.
Proof.
  intros Hne. induction d as [|[k' v'] d IH]; simpl.
  - apply str_eqb_neq in Hne. now rewrite Hne.
  - destruct (str_eqb k k') eqn:E; simpl.
    + apply str_eqb_eq in E; subst k'.
      apply str_eqb_neq in Hne. now rewrite Hne.
    + now rewrite IH.
Qed.

Lemma dict_set_not_empty (k : str) (v : V) (d : dict V) :
  dict_set k v d <> [].
Proof.
  destruct d as [|[k' v'] d]; simpl; [discriminate|].
  destruct (str_eqb k k'); discriminate.
Qed.

End DictFacts.

Section OutputFacts.

Lemma plain_app (a b : str) : plain (a ++ b) = plain a && plain b.
Proof. apply forallb_app. Qed.

(** A line made of a constant and a URL is printed when the URL can be. *)
Lemma print_labelled (label url : str) :
  plain label = true ->
  print (label ++ url)
  = if plain url then Returned tt else Raised UnicodeEncodeError.
Proof.
  intros Hlabel. unfold print. now rewrite plain_app, Hlabel.
Qed.

Lemma reached_all (urls : list str) :
  forallb plain urls = true -> reached urls = urls.
Proof.
  induction urls as [|url rest IH]; simpl; [reflexivity|].
  intros H. apply andb_true_iff in H as [-> Hrest]. now rewrite IH.
Qed.

Lemma reached_plain (urls : list str) : forallb plain (reached urls) = true.
Proof.
  induction urls as [|url rest IH]; simpl; [reflexivity|].
  destruct (plain url) eqn:E; simpl; [now rewrite E|reflexivity].
Qed.

Lemma reached_prefix (urls : list str) :
  exists rest : list str,
    urls = reached urls ++ rest /\
    (forallb plain urls = true <-> rest = []).
Proof.
  induction urls as [|url urls IH]; simpl.
  - exists []. now split.
  - destruct (plain url) eqn:E; simpl.
    + destruct IH as (rest & Heq & Hall). exists rest.
      split; [now rewrite <- Heq|exact Hall].
    + exists (url :: urls). split; [reflexivity|].
      split; discriminate.
Qed.

Lemma reached_in (urls : list str) (url : str) :
  In url (reached urls) -> In url urls.
Proof.
  destruct (reached_prefix urls) as (rest & Heq & _).
  intros Hin. rewrite Heq. apply in_or_app. now left.
Qed.

Lemma reached_app (a b : list str) :
  reached (a ++ b)
  = if forallb plain a then a ++ reached b else reached a.
Proof.
  induction a as [|url a IH]; simpl; [reflexivity|].
  destruct (plain url); simpl; [|reflexivity].
  rewrite IH. now destruct (forallb plain a).
Qed.

End OutputFacts.

Section ScrapeFacts.

Context {services : Services}.

Lemma scrape_failed_plain (url : str) (self : WebScraperAI) :
  scrape_failed url self
  = if plain url then
      (Returned None, with_failed_urls (failed_urls self ++ [url]) self)
    else (Raised UnicodeEncodeError, self).
Proof.
  unfold scrape_failed. rewrite print_labelled by reflexivity.
  now destruct (plain url).
Qed.

(** What a call does, from what the extraction gives and from whether the
    URL can be printed. *)
Lemma scrape_website_extracted (url : str) (self : WebScraperAI) (w : World) :
  scrape_website url self w =
  match extracted url (fst (article_fetch url (env w))) with
  | Some doc =>
      (Returned (Some doc),
       with_content (dict_set url doc (content self)) self,
       after_fetch url w)
  | None =>
      if plain url then
        (Returned None, with_failed_urls (failed_urls self ++ [url]) self,
         after_fetch url w)
      else (Raised UnicodeEncodeError, self, after_fetch url w)
  end.
Proof.
  unfold scrape_website, download_and_parse, after_fetch, extracted.
  destruct (article_fetch url (env w)) as [fetched e]; cbn [fst snd].
  destruct fetched as [|article].
  - rewrite scrape_failed_plain. now destruct (plain url).
  - destruct (no_significant_content article).
    + rewrite print_labelled, scrape_failed_plain by reflexivity.
      now destruct (plain url).
    + cbn [content with_content]. now rewrite dict_get_set_same.
Qed.

(** The first half of the test of line 90 is covered by its second half:
    an empty text is shorter than 50 once stripped. *)
Lemma no_significant_content_length (article : Article datetime) :
  no_significant_content article = true <->
  (len (strip (art_text article)) < 50)%Z.
Proof.
  unfold no_significant_content.
  rewrite orb_true_iff, Z.ltb_lt.
  split; [|now right].
  intros [H|H]; [|exact H].
  destruct (art_text article); [vm_compute; reflexivity|discriminate].
Qed.

Lemma extracted_some (url : str) (fetched : Fetched datetime) (doc : Doc) :
  extracted url fetched = Some doc ->
  (50 <= len (strip (text doc)))%Z /\ source_url doc = url.
Proof.
  destruct fetched as [|article]; simpl; [discriminate|].
  destruct (no_significant_content article) eqn:E; [discriminate|].
  intros [= <-]; simpl. split; [|reflexivity].
  destruct (Z.lt_ge_cases (len (strip (art_text article))) 50) as [Hlt|Hge];
    [|exact Hge].
  apply no_significant_content_length in Hlt. congruence.
Qed.

Lemma content_checked_set (url : str) (doc : Doc) (self : WebScraperAI) :
  content_checked self ->
  (50 <= len (strip (text doc)))%Z -> source_url doc = url ->
  content_checked (with_content (dict_set url doc (content self)) self).
Proof.
  intros Hself Hlen Hsrc u d; simpl.
  destruct (list_eq_dec N.eq_dec u url) as [->|Hne].
  - rewrite dict_get_set_same. intros [= <-]. now split.
  - rewrite dict_get_set_other by exact Hne. apply Hself.
Qed.

Lemma scrape_website_checked (url : str) (self : WebScraperAI) (w : World) :
  content_checked self -> content_checked (object (scrape_website url self w)).
Proof.
  intros Hself. rewrite scrape_website_extracted.
  destruct (extracted url _) as [doc|] eqn:E; unfold object; simpl.
  - apply extracted_some in E as [Hlen Hsrc].
    now apply content_checked_set.
  - destruct (plain url); exact Hself.
Qed.

(** The loop is a run over the URLs it gets to: it returns when it gets to
    all of them, and raises where it stopped otherwise. *)
Lemma batch_loop_run (urls : list str) :
  forall (results : list (str * Doc)) (self : WebScraperAI) (w : World),
  batch_loop urls results self w =
  ((if forallb plain urls then
      Returned (results ++ successes (fetch_run (reached urls) (env w)))
    else Raised UnicodeEncodeError),
   with_failed_urls
     (failed_urls self ++ failures (fetch_run (reached urls) (env w)))
     (with_content (store_all (successes (fetch_run (reached urls) (env w)))
                              (content self)) self),
   {| env := env_after (reached urls) (env w);
      sent := sent w ++ map ReqArticle (reached urls) |}).
Proof.
  induction urls as [|url rest IH]; intros results self w.
  - simpl. rewrite !app_nil_r. destruct self, w; reflexivity.
  - cbn [batch_loop forallb reached].
    rewrite print_labelled by reflexivity.
    destruct (plain url) eqn:Eplain.
    + rewrite scrape_website_extracted, Eplain.
      destruct (article_fetch url (env w)) as [fetched e] eqn:Efetch; simpl.
      rewrite Efetch; simpl.
      destruct (extracted url fetched) as [doc|]; rewrite IH; simpl;
        unfold after_fetch; rewrite Efetch; simpl;
        rewrite <- !app_assoc; reflexivity.
    + simpl. rewrite !app_nil_r. destruct self, w; reflexivity.
Qed.


(** A batch returns exactly when every URL can be printed. *)
Lemma batch_scrape_returns (urls : list str) (self : WebScraperAI)
  (w : World) :
  (exists results, value (batch_scrape urls self w) = Returned results) <->
  forallb plain urls = true.
Proof.
  unfold batch_scrape. rewrite batch_loop_run. unfold value; simpl.
  destruct (forallb plain urls); split; try reflexivity.
  - now eexists.
  - intros [results H]. discriminate.
  - discriminate.
Qed.

Lemma fetch_run_urls (urls : list str) :
  forall e, map fst (fetch_run urls e) = urls.
Proof.
  induction urls as [|url rest IH]; intros e; simpl; [reflexivity|].
  destruct (article_fetch url e) as [fetched e']; simpl. now rewrite IH.
Qed.



Lemma failures_subsequence (run : list (str * Fetched datetime)) :
  subsequence (failures run) (map fst run).
Proof.
  induction run as [|[url fetched] run IH]; simpl; [constructor|].
  destruct (extracted url fetched); simpl; now constructor.
Qed.




End ScrapeFacts.

Section Invariants.

Context {services : Services}.

Lemma keys_dict_set {V} (k : str) (v : V) (d : dict V) :
  keys (dict_set k v d) = keys d \/
  (~ In k (keys d) /\ keys (dict_set k v d) = keys d ++ [k]).
Proof.
  induction d as [|[k' v'] d IH]; simpl.
  - right. split; [tauto|reflexivity].
  - destruct (str_eqb k k') eqn:E; simpl; [now left|].
    apply str_eqb_neq in E.
    destruct IH as [IH|[Hnotin IH]]; rewrite IH; [now left|].
    right. split; [|reflexivity]. intros [Heq|Hin]; [congruence|tauto].
Qed.

Lemma NoDup_snoc (k : str) (l : list str) :
  NoDup l -> ~ In k l -> NoDup (l ++ [k]).
Proof.
  intros Hl Hk. apply NoDup_rev in Hl.
  rewrite <- (rev_involutive (l ++ [k])). apply NoDup_rev.
  rewrite rev_app_distr; simpl. constructor; [|exact Hl].
  now rewrite <- in_rev.
Qed.

Lemma NoDup_keys_dict_set {V} (k : str) (v : V) (d : dict V) :
  NoDup (keys d) -> NoDup (keys (dict_set k v d)).
Proof.
  intros Hd. destruct (keys_dict_set k v d) as [->|[Hnotin ->]];
    [exact Hd|now apply NoDup_snoc].
Qed.

Lemma well_formed_init (k1 k2 : str) : well_formed (__init__ k1 k2).
Proof.
  split; simpl; [|reflexivity|constructor|constructor].
  intros url doc; simpl; discriminate.
Qed.

Lemma well_formed_failed_urls (l : list str) (self : WebScraperAI) :
  well_formed self -> well_formed (with_failed_urls l self).
Proof. intros [H1 H2 H3 H4]. split; assumption. Qed.

Lemma well_formed_search_results (l : list str) (self : WebScraperAI) :
  well_formed self -> well_formed (with_search_results l self).
Proof. intros [H1 H2 H3 H4]. split; assumption. Qed.

Lemma well_formed_keys (k : str) (self : WebScraperAI) :
  well_formed self ->
  well_formed (with_serpapi_key k self) /\ well_formed (with_hf_api_key k self).
Proof. intros [H1 H2 H3 H4]. split; split; assumption. Qed.

Lemma well_formed_scrape_website (url : str) (self : WebScraperAI)
  (w : World) :
  well_formed self -> well_formed (object (scrape_website url self w)).
Proof.
  intros Hwf. pose proof (scrape_website_checked url w (wf_checked Hwf)) as Hc.
  destruct Hwf as [H1 H2 H3 H4].
  rewrite scrape_website_extracted in *.
  destruct (extracted url _) as [doc|]; [|destruct (plain url)];
    unfold object in *; simpl in *.
  - split; simpl; try assumption.
    + intros Hempty. now apply dict_set_not_empty in Hempty.
    + now apply NoDup_keys_dict_set.
  - split; assumption.
  - split; assumption.
Qed.

Lemma batch_loop_preserves (P : WebScraperAI -> Prop) :
  (forall url self w, P self -> P (object (scrape_website url self w))) ->
  forall urls results self w,
    P self -> P (object (batch_loop urls results self w)).
Proof.
  intros Hstep urls. induction urls as [|url rest IH]; intros results self w HP;
    [exact HP|].
  cbn [batch_loop]. destruct (print _); [|exact HP].
  specialize (Hstep url self w HP).
  destruct (scrape_website url self w) as [[result self'] w'].
  unfold object in Hstep; simpl in Hstep.
  destruct result as [[doc|]|e]; [now apply IH|now apply IH|exact Hstep].
Qed.

Lemma well_formed_batch_scrape (urls : list str) (self : WebScraperAI)
  (w : World) :
  well_formed self -> well_formed (object (batch_scrape urls self w)).
Proof.
  intros Hwf. unfold batch_scrape.
  apply batch_loop_preserves.
  - intros. now apply well_formed_scrape_website.
  - now apply well_formed_failed_urls.
Qed.

Lemma well_formed_search_web (query : str) (n : Z) (self : WebScraperAI)
  (w : World) :
  well_formed self -> well_formed (object (search_web query n self w)).
Proof.
  intros Hwf. unfold search_web.
  destruct (negb (truthy (serpapi_key self))); [exact Hwf|].
  destruct (get_dict _ w) as [[|results] w']; [exact Hwf|].
  destruct (organic_results results) as [entries|]; [|exact Hwf].
  destruct (links _); [|exact Hwf].
  now apply well_formed_search_results.
Qed.

(** The loop of [analyze_and_summarize] touches the summaries only, and
    adds one for each document it visits. *)
Lemma analyze_loop_frame (items : list (str * Doc)) :
  forall all_text self w,
  let r := analyze_loop items all_text self w in
  content (object r) = content self /\
  failed_urls (object r) = failed_urls self /\
  search_results (object r) = search_results self /\
  serpapi_key (object r) = serpapi_key self /\
  hf_api_key (object r) = hf_api_key self /\
  (NoDup (keys (summaries self)) -> NoDup (keys (summaries (object r)))) /\
  (items = [] -> r = (all_text, self, w)).
Proof.
  induction items as [|[url data] rest IH]; intros all_text self w; simpl.
  - repeat split; auto.
  - destruct (summarize_text (text data) 500 self w) as [summary w'].
    specialize (IH (all_text ++ title data ++ newline ++ text data
                             ++ newline ++ newline)
                   (with_summaries (dict_set url summary (summaries self)) self)
                   w').
    simpl in IH. destruct IH as (H1 & H2 & H3 & H4 & H5 & H6 & _).
    repeat split; auto; try discriminate.
    intros Hnd. apply H6. now apply NoDup_keys_dict_set.
Qed.

Lemma well_formed_analyze_and_summarize (self : WebScraperAI) (w : World) :
  well_formed self -> well_formed (object (analyze_and_summarize self w)).
Proof.
  intros [H1 H2 H3 H4]. unfold analyze_and_summarize.
  pose proof (analyze_loop_frame (content self) [] self w) as Hframe.
  simpl in Hframe.
  destruct (analyze_loop (content self) [] self w) as [[all_text self1] w1].
  unfold object in Hframe; simpl in Hframe.
  destruct Hframe as (Hc & _ & _ & _ & _ & Hnd & Hempty).
  assert (Hchk : content_checked self1)
    by (unfold content_checked; rewrite Hc; exact H1).
  destruct (truthy all_text) eqn:Et.
  - destruct (summarize_text all_text 1000 self1 w1) as [overall w2].
    unfold object; simpl. split; simpl; auto.
    + rewrite Hc. intros Hnil. specialize (Hempty Hnil).
      injection Hempty as Ht _ _. subst all_text. discriminate.
    + rewrite Hc. exact H3.
    + apply NoDup_keys_dict_set. auto.
  - unfold object; simpl. split; auto.
    + rewrite Hc. intros Hnil. specialize (Hempty Hnil).
      injection Hempty as _ Hs _. subst self1. auto.
    + rewrite Hc. exact H3.
Qed.

Lemma suggest_alternative_resources_object (url : str) (query : option str)
  (self : WebScraperAI) (w : World) :
  object (suggest_alternative_resources url query self w) = self \/
  exists q,
    object (suggest_alternative_resources url query self w)
    = object (search_web q 3 self w).
Proof.
  unfold suggest_alternative_resources.
  match goal with
  | |- context [match ?chosen with Returned _ => _ | Raised _ => _ end] =>
      destruct chosen as [q|e]
  end; [right|now left].
  exists q.
  destruct (search_web q 3 self w) as [[[urls|e] self'] w']; reflexivity.
Qed.

Lemma reachable_well_formed (self : WebScraperAI) :
  reachable self -> well_formed self.
Proof.
  induction 1 as [k1 k2|key self _ IH|key self _ IH|query n self w _ IH
                 |url self w _ IH|urls self w _ IH|self w _ IH
                 |url query self w _ IH].
  - apply well_formed_init.
  - now apply well_formed_keys.
  - now apply well_formed_keys.
  - now apply well_formed_search_web.
  - now apply well_formed_scrape_website.
  - now apply well_formed_batch_scrape.
  - now apply well_formed_analyze_and_summarize.
  - change (well_formed
              (object (suggest_alternative_resources url query self w))).
    destruct (suggest_alternative_resources_object url query self w)
      as [->|[q ->]]; [exact IH|now apply well_formed_search_web].
Qed.

End Invariants.

(** * The content extractor and the batch coordinator *)

Section Extraction.

Context {services : Services}.


(** C2.  [batch_scrape] starts by emptying the failed list: whatever the
    list held before, the call does the same and gives the same, and the
    failed list afterwards holds the failures of this call only: those of
    the URLs the call got to, which are all the URLs when each of them can
    be printed. *)
Theorem batch_scrape_resets_failed_urls (urls prior : list str)
  (self : WebScraperAI) (w : World) :
  batch_scrape urls (with_failed_urls prior self) w = batch_scrape urls self w
  /\ failed_urls (object (batch_scrape urls self w))
     = failures (fetch_run (reached urls) (env w))
  /\ (forallb plain urls = true ->
      failed_urls (object (batch_scrape urls self w))
      = failures (fetch_run urls (env w))).
Proof.
  unfold batch_scrape. split; [reflexivity|].
  rewrite batch_loop_run. split; [reflexivity|].
  intros Hplain. now rewrite (reached_all urls Hplain).
Qed.



End Extraction.

(** * The summarizer *)

Section Summarizer.

Context {services : Services}.

Lemma provider_input_short (text : str) :
  (len text <= 5000)%Z -> provider_input text = text.
Proof.
  intros H. unfold provider_input.
  destruct (5000 <? len text)%Z eqn:E; [|reflexivity].
  apply Z.ltb_lt in E. lia.
Qed.

Lemma summarize_text_without_key (text : str) (max_length : Z)
  (self : WebScraperAI) (w : World) :
  truthy (hf_api_key self) = false ->
  summarize_text text max_length self w
  = (join (lit " ") (firstn 5 (sent_tokenize text)), w).
Proof.
  intros Hkey. unfold summarize_text. rewrite Hkey. reflexivity.
Qed.

Lemma summarize_text_fallback (text : str) (max_length : Z)
  (self : WebScraperAI) (w : World) :
  truthy (hf_api_key self) = true ->
  provider_failed (provider_reply text max_length self w) ->
  fst (summarize_text text max_length self w)
  = join (lit " ") (firstn 5 (sent_tokenize (provider_input text))).
Proof.
  intros Hkey Hfailed. unfold summarize_text, post, provider_reply in *.
  rewrite Hkey; simpl. fold (provider_input text).
  destruct (requests_post _ _ (env w)) as [reply e]; simpl in *.
  destruct reply as [|response]; [reflexivity|].
  destruct (status_code response =? 200)%Z eqn:Estatus; [|reflexivity].
  apply Z.eqb_eq in Estatus.
  destruct Hfailed as [Hstatus|Hbody]; [contradiction|].
  rewrite Hbody. reflexivity.
Qed.

(** C4.  Without a summarization key, [summarize_text] returns the first
    five sentences of the text, as [sent_tokenize] gives them, joined by
    one space, whatever [max_length] is; it sends no request. *)
Theorem summarize_text_no_credential (text : str) (max_length : Z)
  (self : WebScraperAI) (w : World) :
  truthy (hf_api_key self) = false ->
  fst (summarize_text text max_length self w)
  = join (lit " ") (firstn 5 (sent_tokenize text))
  /\ snd (summarize_text text max_length self w) = w
  /\ forall max_length',
       summarize_text text max_length' self w
       = summarize_text text max_length self w.
Proof.
  intros Hkey. rewrite summarize_text_without_key by exact Hkey.
  repeat split. intros max_length'.
  now rewrite summarize_text_without_key.
Qed.

(** C6, as amended.  With a key, when the provider call raises or answers
    with a status other than 200 (or with a body that is not the expected
    list), [summarize_text] returns what it returns without a key on the
    text cut to its first 5000 characters; for a text of at most 5000
    characters that is what it returns without a key on the text itself. *)
Theorem summarize_text_provider_failure (text : str) (max_length : Z)
  (self : WebScraperAI) (w : World) :
  truthy (hf_api_key self) = true ->
  provider_failed (provider_reply text max_length self w) ->
  fst (summarize_text text max_length self w)
  = fst (summarize_text (provider_input text) max_length
             (set_hf_api_key [] self) w)
  /\ ((len text <= 5000)%Z ->
      fst (summarize_text text max_length self w)
      = fst (summarize_text text max_length (set_hf_api_key [] self) w)).
Proof.
  intros Hkey Hfailed.
  rewrite (summarize_text_fallback text max_length self w Hkey Hfailed).
  split.
  - now rewrite summarize_text_without_key.
  - intros Hshort. rewrite summarize_text_without_key by reflexivity.
    now rewrite provider_input_short.
Qed.

End Summarizer.

(** * The search client *)

Section Search.

Context {services : Services}.

Lemma search_web_with_key (query : str) (n : Z) (self : WebScraperAI)
  (w : World) :
  truthy (serpapi_key self) = true ->
  let params := {| sp_q := query; sp_api_key := serpapi_key self;
                   sp_num := n |} in
  let w' := {| env := snd (google_search params (env w));
               sent := sent w ++ [ReqSearch params] |} in
  search_web query n self w =
  match reply_links n (search_reply query n self w) with
  | Some urls => (Returned urls, with_search_results urls self, w')
  | None => (Returned [], self, w')
  end.
Proof.
  intros Hkey params w'. unfold search_web, get_dict, search_reply.
  rewrite Hkey; simpl. fold params.
  destruct (google_search params (env w)) as [reply e]; simpl.
  destruct reply as [|results]; simpl; [reflexivity|].
  destruct (organic_results results) as [entries|]; [|reflexivity].
  destruct (links (slice_to n entries)); reflexivity.
Qed.

Lemma search_web_without_key (query : str) (n : Z) (self : WebScraperAI)
  (w : World) :
  truthy (serpapi_key self) = false ->
  search_web query n self w
  = (Raised (ValueError serpapi_key_message), self, w).
Proof. intros Hkey. unfold search_web. now rewrite Hkey. Qed.

(** C7.  Without a search key, [search_web] raises the [ValueError] that
    reports the missing key, with no request sent and the object untouched.
    With a key it never raises: it sends one request and returns a list,
    which is empty when the provider call raised or its reply could not be
    read (no organic results, or an entry without a link). *)
Theorem search_web_errors (query : str) (n : Z) (self : WebScraperAI)
  (w : World) :
  (truthy (serpapi_key self) = false ->
   search_web query n self w
   = (Raised (ValueError serpapi_key_message), self, w)) /\
  (truthy (serpapi_key self) = true ->
   (exists urls, value (search_web query n self w) = Returned urls) /\
   sent (world (search_web query n self w))
   = sent w ++ [ReqSearch {| sp_q := query; sp_api_key := serpapi_key self;
                             sp_num := n |}] /\
   (reply_links n (search_reply query n self w) = None ->
    value (search_web query n self w) = Returned [])).
Proof.
  split; intros Hkey; [now apply search_web_without_key|].
  rewrite search_web_with_key by exact Hkey.
  destruct (reply_links n (search_reply query n self w)) as [urls|];
    unfold value, world; simpl.
  - split; [now exists urls|]. split; [reflexivity|discriminate].
  - split; [now exists []|]. split; reflexivity.
Qed.

(** C8, as amended.  [search_web] overwrites the cached search results
    exactly when it has a key and the reply carries organic results whose
    first [num_results] entries all have a link: the cache then holds those
    links, which are also returned.  In every other case (no key, the call
    raised, no organic results, an entry without a link) the object is left
    as it was, cache included. *)
Theorem search_web_cache (query : str) (n : Z) (self : WebScraperAI)
  (w : World) :
  (forall urls,
     truthy (serpapi_key self) = true ->
     reply_links n (search_reply query n self w) = Some urls ->
     value (search_web query n self w) = Returned urls /\
     object (search_web query n self w) = with_search_results urls self) /\
  (truthy (serpapi_key self) = false \/
   reply_links n (search_reply query n self w) = None ->
   object (search_web query n self w) = self).
Proof.
  split.
  - intros urls Hkey Hlinks.
    rewrite search_web_with_key by exact Hkey. rewrite Hlinks. now split.
  - intros [Hkey|Hlinks].
    + now rewrite search_web_without_key.
    + destruct (truthy (serpapi_key self)) eqn:Hkey.
      * rewrite search_web_with_key by exact Hkey. now rewrite Hlinks.
      * now rewrite search_web_without_key.
Qed.

End Search.

(** * Summaries of the stored content *)

Section Analysis.

Context {services : Services}.

(** With nothing stored, the loop does nothing and [all_text] stays empty:
    the method hands back the table it already has. *)
Lemma analyze_and_summarize_nothing_stored (self : WebScraperAI)
  (w : World) :
  content self = [] ->
  analyze_and_summarize self w = (summaries self, self, w).
Proof.
  intros Hempty. unfold analyze_and_summarize. now rewrite Hempty.
Qed.

(** C5.  On an object in a reachable state whose content map is empty,
    [analyze_and_summarize] returns an empty table: no entry for a URL, no
    ["overall"] entry.  It changes nothing and sends no request. *)
Theorem analyze_and_summarize_empty_content (self : WebScraperAI)
  (w : World) :
  reachable self ->
  content self = [] ->
  analyze_and_summarize self w = ([], self, w).
Proof.
  intros Hreach Hempty.
  apply reachable_well_formed in Hreach.
  rewrite analyze_and_summarize_nothing_stored by exact Hempty.
  now rewrite (wf_summaries Hreach Hempty).
Qed.

End Analysis.

(** * Facts about the result store *)

Section StoreFacts.

(** ** The codec *)

(** [lia] is given the equations of the divisions by 64 that cut a code
    point into bytes. *)
Ltac Zify.zify_post_hook ::= Z.to_euclidean_division_equations.

(** Settle the comparisons the decoder makes on the bytes. *)
Ltac decide_tests :=
  repeat match goal with
  | |- context [(?a <? ?b)%N] =>
      let H := fresh in
      destruct (N.ltb_spec a b) as [H|H]; try (exfalso; lia)
  | |- context [(?a <=? ?b)%N] =>
      let H := fresh in
      destruct (N.leb_spec a b) as [H|H]; try (exfalso; lia)
  end.

(** Give each byte of the encoder a name, and keep its equation. *)
Ltac name_bytes :=
  repeat match goal with
  | |- context [(?k + ?q)%N :: _] =>
      let b := fresh "b" in
      let Hb := fresh "Hb" in
      remember (k + q)%N as b eqn:Hb
  end.

Lemma utf8_decode_char (c : char) (bs rest : list N) :
  utf8_char c = Some bs ->
  utf8_decode (bs ++ rest) = cons_char c (utf8_decode rest).
Proof.
  unfold utf8_char.
  destruct (N.ltb_spec c 0x80) as [H1|H1].
  { intros [= <-]. simpl. apply N.ltb_lt in H1. now rewrite H1. }
  destruct (N.ltb_spec c 0x800) as [H2|H2].
  { name_bytes. intros [= <-]. cbn [app utf8_decode]. unfold continuation.
    decide_tests. cbn [andb]. f_equal. lia. }
  destruct (N.ltb_spec c 0x10000) as [H3|H3].
  { destruct (N.leb_spec 0xD800 c) as [H4|H4];
      destruct (N.leb_spec c 0xDFFF) as [H5|H5]; cbn [andb];
      try discriminate; name_bytes; intros [= <-]; cbn [app utf8_decode];
      cbv zeta; unfold continuation; decide_tests; cbn [andb negb];
      f_equal; lia. }
  destruct (N.ltb_spec c 0x110000) as [H4|H4]; [|discriminate].
  name_bytes. intros [= <-]. cbn [app utf8_decode]. cbv zeta.
  unfold continuation. decide_tests. cbn [andb negb]. f_equal. lia.
Qed.

Lemma utf8_roundtrip (s : str) :
  forall bs, utf8_encode s = Some bs -> utf8_decode bs = Some s.
Proof.
  induction s as [|c s IH]; simpl; intros bs.
  - now intros [= <-].
  - destruct (utf8_char c) as [cs|] eqn:Ec; [|discriminate].
    destruct (utf8_encode s) as [bs'|]; [|discriminate].
    intros [= <-]. rewrite (@utf8_decode_char c cs bs' Ec).
    now rewrite (IH bs' eq_refl).
Qed.

(** ** String literals *)

Lemma escape_char_control (c : char) (tail acc : str) (fuel : nat) :
  (c < 0x20)%N ->
  scanstring (S fuel) (escape_char c ++ tail) acc
  = scanstring fuel tail (c :: acc).
Proof.
  intros Hc.
  destruct c as [|p]; [reflexivity|].
  do 5 (try destruct p as [p|p|]); try (exfalso; lia); reflexivity.
Qed.

Lemma escape_char_plain (c : char) (tail acc : str) (fuel : nat) :
  (0x20 <= c)%N ->
  scanstring (S fuel) (escape_char c ++ tail) acc
  = scanstring fuel tail (c :: acc).
Proof.
  intros Hc. unfold escape_char.
  destruct (N.eqb_spec c 0x22) as [->|Hquote]; [reflexivity|].
  destruct (N.eqb_spec c 0x5C) as [->|Hslash]; [reflexivity|].
  repeat match goal with
  | |- context [(c =? ?k)%N] =>
      destruct (N.eqb_spec c k) as [?|?]; [exfalso; lia|]
  end.
  destruct (N.ltb_spec c 0x20) as [?|_]; [exfalso; lia|].
  cbn [app scanstring].
  apply N.eqb_neq in Hquote, Hslash. rewrite Hquote, Hslash.
  destruct (N.ltb_spec c 0x20) as [?|_]; [exfalso; lia|]. reflexivity.
Qed.

Lemma scanstring_escape_char (c : char) (tail acc : str) (fuel : nat) :
  scanstring (S fuel) (escape_char c ++ tail) acc
  = scanstring fuel tail (c :: acc).
Proof.
  destruct (N.lt_ge_cases c 0x20);
    [now apply escape_char_control|now apply escape_char_plain].
Qed.

Lemma scanstring_body (s : str) :
  forall (acc tail : str) (fuel : nat),
    (List.length s < fuel)%nat ->
    scanstring fuel (flat_map escape_char s ++ 0x22%N :: tail) acc
    = Some (rev acc ++ s, tail).
Proof.
  induction s as [|c s IH]; intros acc tail fuel Hfuel;
    destruct fuel as [|fuel]; simpl in Hfuel; try lia.
  - simpl. now rewrite app_nil_r.
  - cbn [flat_map]. rewrite <- app_assoc, scanstring_escape_char.
    rewrite IH by lia. simpl. now rewrite <- app_assoc.
Qed.

Lemma escape_char_length (c : char) : (1 <= List.length (escape_char c))%nat.
Proof.
  unfold escape_char.
  repeat match goal with
  | |- context [if ?b then _ else _] => destruct b
  end; simpl; lia.
Qed.

Lemma flat_map_escape_length (s : str) :
  (List.length s <= List.length (flat_map escape_char s))%nat.
Proof.
  induction s as [|c s IH]; simpl; [lia|].
  rewrite length_app. pose proof (escape_char_length c). lia.
Qed.

Lemma scan_string_encode (s tail : str) :
  scan_string (flat_map escape_char s ++ 0x22%N :: tail) = Some (s, tail).
Proof.
  unfold scan_string. rewrite scanstring_body; [reflexivity|].
  rewrite length_app; simpl. pose proof (flat_map_escape_length s). lia.
Qed.

Lemma starts_value_encode (level : nat) (j : json) (rest : str) :
  starts_value (encode level j ++ rest) = true.
Proof.
  destruct j as [|s|[|x xs]|[|m ms]]; reflexivity.
Qed.

Lemma starts_value_head (s : str) :
  starts_value s = true ->
  exists c tl, s = c :: tl /\ is_ws c = false /\
               (c =? 0x5D)%N = false /\ (c =? 0x7D)%N = false.
Proof.
  destruct s as [|c tl]; simpl; [discriminate|].
  intros H. exists c, tl. split; [reflexivity|].
  repeat (apply orb_true_iff in H as [H|H]);
    apply N.eqb_eq in H; subst c; repeat split.
Qed.

Lemma skip_ws_value (s : str) : starts_value s = true -> skip_ws s = s.
Proof.
  intros H. destruct (starts_value_head s H) as (c & tl & -> & Hws & _).
  simpl. now rewrite Hws.
Qed.

Lemma skip_ws_spaces (n : nat) (s : str) :
  skip_ws (repeat 0x20%N n ++ s) = skip_ws s.
Proof. induction n as [|n IH]; simpl; [reflexivity|exact IH]. Qed.

Lemma skip_ws_newline_indent (level : nat) (s : str) :
  skip_ws (newline_indent level ++ s) = skip_ws s.
Proof.
  unfold newline_indent, newline. rewrite <- app_assoc. simpl.
  apply skip_ws_spaces.
Qed.

Lemma join_one (sep a : str) : join sep [a] = a.
Proof. reflexivity. Qed.

Lemma join_more (sep a b : str) (l : list str) :
  join sep (a :: b :: l) = a ++ sep ++ join sep (b :: l).
Proof. reflexivity. Qed.

Lemma starts_value_join (sep : str) (level : nat) (x : json)
  (items : list json) (rest : str) :
  starts_value (join sep (map (encode level) (x :: items)) ++ rest) = true.
Proof.
  destruct items as [|y items]; cbn [map join].
  - apply starts_value_encode.
  - rewrite <- app_assoc. apply starts_value_encode.
Qed.

Lemma scan_items_encode (level : nat) (items : list json) :
  Forall reads_back items ->
  forall (x : json) (acc : list json) (rest : str) (fuel : nat),
    reads_back x ->
    (list_sum (map (fun y => S (weight y)) (x :: items)) <= fuel)%nat ->
    scan_items fuel
      (join (item_separator (S level)) (map (encode (S level)) (x :: items))
       ++ newline_indent level ++ 0x5D%N :: rest) acc
    = Some (JList (rev acc ++ x :: items), rest).
Proof.
  induction 1 as [|y items Hy Hitems IH]; intros x acc rest fuel Hx Hfuel;
    destruct fuel as [|fuel]; simpl in Hfuel; try lia.
  - cbn [map]. rewrite join_one. cbn [scan_items]. rewrite Hx by lia.
    rewrite skip_ws_newline_indent. simpl. reflexivity.
  - cbn [map]. rewrite join_more. cbn [scan_items].
    rewrite <- !app_assoc. rewrite Hx by lia.
    unfold item_separator at 1. rewrite <- app_assoc.
    change (lit "," ++ ?t) with (0x2C%N :: t).
    cbn [skip_ws is_ws N.eqb Pos.eqb orb].
    rewrite skip_ws_newline_indent.
    rewrite skip_ws_value by apply (starts_value_join _ _ y items).
    pose proof (IH y (x :: acc) rest fuel Hy) as IH'. cbn [map] in IH'.
    rewrite IH' by (simpl; lia).
    simpl. now rewrite <- app_assoc.
Qed.

Lemma starts_value_members (sep : str) (level : nat) (m : str * json)
  (members : list (str * json)) (rest : str) :
  starts_value (join sep (map (member_chunk level) (m :: members)) ++ rest)
  = true.
Proof. destruct members; reflexivity. Qed.

Lemma scan_members_encode (level : nat) (members : list (str * json)) :
  Forall (fun m => reads_back (snd m)) members ->
  forall (m : str * json) (acc : list (str * json)) (rest : str)
         (fuel : nat),
    reads_back (snd m) ->
    (list_sum (map (fun y => S (weight (snd y))) (m :: members)) <= fuel)%nat ->
    scan_members fuel
      (join (item_separator (S level))
            (map (member_chunk (S level)) (m :: members))
       ++ newline_indent level ++ 0x7D%N :: rest) acc
    = Some (JDict (rev acc ++ m :: members), rest).
Proof.
  assert (Hkey : forall (k : str) (v : json) (tail : str) (fuel : nat)
                        (acc : list (str * json)),
             reads_back v -> (weight v <= fuel)%nat ->
             scan_members (S fuel)
               (member_chunk (S level) (k, v) ++ tail) acc
             = match skip_ws tail with
               | [] => None
               | c2 :: r3 =>
                   if (c2 =? 0x2C)%N then
                     scan_members fuel (skip_ws r3) ((k, v) :: acc)
                   else if (c2 =? 0x7D)%N then
                     Some (JDict (rev ((k, v) :: acc)), r3)
                   else None
               end).
  { intros k v tail fuel acc Hv Hfuel.
    unfold member_chunk, encode_basestring. cbn [fst snd].
    rewrite <- !app_assoc.
    change ([0x22%N] ++ ?t) with (0x22%N :: t).
    cbn [scan_members N.eqb Pos.eqb].
    cbn [app]. rewrite scan_string_encode.
    change (lit ": " ++ ?t) with (0x3A%N :: 0x20%N :: t).
    cbn [skip_ws is_ws N.eqb Pos.eqb orb].
    rewrite skip_ws_value by apply starts_value_encode.
    rewrite Hv by exact Hfuel. reflexivity. }
  induction 1 as [|y members Hy Hmembers IH];
    intros [k v] acc rest fuel Hm Hfuel;
    destruct fuel as [|fuel]; simpl in Hfuel; try lia.
  - cbn [map]. rewrite join_one. rewrite Hkey by (auto; lia).
    rewrite skip_ws_newline_indent. simpl. reflexivity.
  - cbn [map]. rewrite join_more. rewrite <- !app_assoc.
    rewrite Hkey by (auto; lia).
    unfold item_separator at 1. rewrite <- app_assoc.
    change (lit "," ++ ?t) with (0x2C%N :: t).
    cbn [skip_ws is_ws N.eqb Pos.eqb orb].
    rewrite skip_ws_newline_indent.
    rewrite skip_ws_value by apply (starts_value_members _ _ y members).
    pose proof (IH y ((k, v) :: acc) rest fuel Hy) as IH'. cbn [map] in IH'.
    rewrite IH' by (simpl; lia).
    simpl. now rewrite <- app_assoc.
Qed.

Lemma encode_JList (level : nat) (x : json) (items : list json) :
  encode level (JList (x :: items))
  = 0x5B%N :: newline_indent (S level)
    ++ join (item_separator (S level)) (map (encode (S level)) (x :: items))
    ++ newline_indent level ++ [0x5D%N].
Proof. reflexivity. Qed.

Lemma encode_JDict (level : nat) (m : str * json)
  (members : list (str * json)) :
  encode level (JDict (m :: members))
  = 0x7B%N :: newline_indent (S level)
    ++ join (item_separator (S level))
            (map (member_chunk (S level)) (m :: members))
    ++ newline_indent level ++ [0x7D%N].
Proof. reflexivity. Qed.

Lemma scan_once_encode (j : json) : reads_back j.
Proof.
  induction j as [|s|items IH|members IH] using json_ind;
    intros level rest fuel Hfuel;
    (destruct fuel as [|fuel]; [simpl in Hfuel; lia|]).
  - reflexivity.
  - cbn [encode]. unfold encode_basestring. rewrite <- !app_assoc.
    change ([0x22%N] ++ ?t) with (0x22%N :: t).
    cbn [scan_once N.eqb Pos.eqb]. cbn [app].
    now rewrite scan_string_encode.
  - destruct items as [|x items]; [reflexivity|].
    rewrite encode_JList. cbn [app scan_once N.eqb Pos.eqb].
    rewrite <- !app_assoc. rewrite skip_ws_newline_indent.
    cbn [app].
    match goal with
    | |- context [skip_ws ?t] =>
        assert (Hstart : starts_value t = true) by apply starts_value_join;
        rewrite (skip_ws_value t Hstart);
        destruct (starts_value_head t Hstart) as (c & tl & Htext & _ & Hc & _)
    end.
    rewrite Htext, Hc, <- Htext.
    inversion IH as [|? ? Hx Hitems]; subst.
    rewrite (scan_items_encode level Hitems [] rest Hx)
      by (simpl in Hfuel; simpl; lia).
    reflexivity.
  - destruct members as [|m members]; [reflexivity|].
    rewrite encode_JDict. cbn [app scan_once N.eqb Pos.eqb].
    rewrite <- !app_assoc. rewrite skip_ws_newline_indent.
    cbn [app].
    match goal with
    | |- context [skip_ws ?t] =>
        assert (Hstart : starts_value t = true) by apply starts_value_members;
        rewrite (skip_ws_value t Hstart);
        destruct (starts_value_head t Hstart) as (c & tl & Htext & _ & _ & Hc)
    end.
    rewrite Htext, Hc, <- Htext.
    inversion IH as [|? ? Hm Hmembers]; subst.
    rewrite (scan_members_encode level Hmembers [] rest Hm)
      by (simpl in Hfuel; simpl; lia).
    reflexivity.
Qed.

Lemma join_length {A} (f : A -> str) (w : A -> nat) (sep : str)
  (items : list A) :
  (1 <= List.length sep)%nat ->
  Forall (fun x => (w x <= List.length (f x))%nat) items ->
  (list_sum (map (fun x => S (w x)) items)
   <= S (List.length (join sep (map f items))))%nat.
Proof.
  intros Hsep. induction 1 as [|x items Hx Hitems IH]; simpl; [lia|].
  destruct items as [|y items].
  - simpl. lia.
  - cbn [map] in *. rewrite !length_app.
    change (list_sum (map (fun x => S (w x)) (y :: items)))
      with (list_sum (S (w y) :: map (fun x => S (w x)) items)). lia.
Qed.

Lemma item_separator_length (level : nat) :
  (1 <= List.length (item_separator level))%nat.
Proof. simpl. lia. Qed.

Lemma weight_length (j : json) :
  forall level, (weight j <= List.length (encode level j))%nat.
Proof.
  induction j as [|s|items IH|members IH] using json_ind; intros level.
  - simpl. lia.
  - simpl. lia.
  - destruct items as [|x items]; [simpl; lia|].
    rewrite encode_JList. cbn [weight List.length].
    rewrite !length_app.
    pose proof (@join_length json (encode (S level)) weight
                  (item_separator (S level)) (x :: items)
                  (item_separator_length (S level))) as Hjoin.
    assert (Hall : Forall (fun y => (weight y
                     <= List.length (encode (S level) y))%nat) (x :: items)).
    { apply Forall_forall. intros y Hy.
      rewrite Forall_forall in IH. now apply IH. }
    specialize (Hjoin Hall). simpl (List.length [_]). lia.
  - destruct members as [|m members]; [simpl; lia|].
    rewrite encode_JDict. cbn [weight List.length].
    rewrite !length_app.
    pose proof (@join_length (str * json) (member_chunk (S level))
                  (fun y => weight (snd y))
                  (item_separator (S level)) (m :: members)
                  (item_separator_length (S level))) as Hjoin.
    assert (Hall : Forall (fun y => (weight (snd y)
                     <= List.length (member_chunk (S level) y))%nat)
                          (m :: members)).
    { apply Forall_forall. intros y Hy.
      rewrite Forall_forall in IH. unfold member_chunk.
      rewrite !length_app. specialize (IH y Hy (S level)). lia. }
    specialize (Hjoin Hall). simpl (List.length [_]). lia.
Qed.

Lemma parse_dumps (j : json) : parse (dumps j) = Some j.
Proof.
  unfold parse, dumps.
  rewrite <- (app_nil_r (encode 0 j)).
  rewrite skip_ws_value by apply starts_value_encode.
  rewrite scan_once_encode; [reflexivity|].
  rewrite app_nil_r. pose proof (weight_length j 0). lia.
Qed.

(** ** The [dict]s of a document with distinct keys *)

Lemma from_pairs_distinct {V} (pairs : list (str * V)) :
  forall d : dict V,
    NoDup (keys d ++ keys pairs) -> from_pairs pairs d = d ++ pairs.
Proof.
  induction pairs as [|[k v] pairs IH]; intros d Hnd; simpl.
  - now rewrite app_nil_r.
  - assert (Hset : dict_set k v d = d ++ [(k, v)]).
    { assert (Hk : ~ In k (keys d)).
      { intros Hin. apply NoDup_remove_2 in Hnd. apply Hnd.
        apply in_or_app. now left. }
      clear - Hk. induction d as [|[k' v'] d IHd]; simpl; [reflexivity|].
      destruct (str_eqb k k') eqn:E.
      - apply str_eqb_eq in E. subst. exfalso. apply Hk. now left.
      - rewrite IHd; [reflexivity|]. intros Hin. apply Hk. now right. }
    rewrite Hset, IH.
    + now rewrite <- app_assoc.
    + unfold keys in *. rewrite map_app. simpl.
      rewrite <- app_assoc. exact Hnd.
Qed.

Lemma utf8_char_scalar (c : char) :
  scalar c = true <-> utf8_char c <> None.
Proof.
  unfold scalar, utf8_char.
  destruct (N.ltb_spec c 0x80); destruct (N.ltb_spec c 0x800);
    destruct (N.ltb_spec c 0x10000); destruct (N.ltb_spec c 0x110000);
    destruct (N.ltb_spec c 0xD800); destruct (N.ltb_spec 0xDFFF c);
    destruct (N.leb_spec 0xD800 c); destruct (N.leb_spec c 0xDFFF);
    try (exfalso; lia); simpl; split; congruence.
Qed.

Lemma utf8_encode_plain (s : str) :
  plain s = true <-> utf8_encode s <> None.
Proof.
  induction s as [|c s IH]; simpl; [split; congruence|].
  rewrite andb_true_iff, IH, utf8_char_scalar.
  destruct (utf8_char c); destruct (utf8_encode s); split;
    try tauto; try congruence; intros; split; congruence.
Qed.

Lemma plain_escape_char (c : char) : plain (escape_char c) = scalar c.
Proof.
  destruct (N.lt_ge_cases c 0x20) as [Hc|Hc].
  - destruct c as [|p]; [reflexivity|].
    do 5 (try destruct p as [p|p|]); try (exfalso; lia); reflexivity.
  - unfold escape_char.
    destruct (N.eqb_spec c 0x22) as [->|_]; [reflexivity|].
    destruct (N.eqb_spec c 0x5C) as [->|_]; [reflexivity|].
    repeat match goal with
    | |- context [(c =? ?k)%N] =>
        destruct (N.eqb_spec c k) as [?|?]; [exfalso; lia|]
    end.
    destruct (N.ltb_spec c 0x20) as [?|_]; [exfalso; lia|].
    simpl. apply andb_true_r.
Qed.

Lemma plain_encode_basestring (s : str) :
  plain (encode_basestring s) = plain s.
Proof.
  unfold encode_basestring. rewrite !plain_app. simpl.
  rewrite andb_true_r.
  induction s as [|c s IH]; simpl; [reflexivity|].
  now rewrite plain_app, plain_escape_char, IH.
Qed.

Lemma plain_newline_indent (level : nat) : plain (newline_indent level) = true.
Proof.
  unfold newline_indent. rewrite plain_app. simpl.
  induction (level + (level + 0))%nat; simpl; auto.
Qed.

Lemma plain_join {A} (f : A -> str) (sep : str) (items : list A) :
  plain sep = true ->
  plain (join sep (map f items)) = forallb (fun x => plain (f x)) items.
Proof.
  intros Hsep. induction items as [|x items IH]; [reflexivity|].
  destruct items as [|y items].
  - simpl. now rewrite andb_true_r.
  - cbn [map] in *. rewrite join_more, !plain_app, Hsep, IH. reflexivity.
Qed.

Lemma plain_item_separator (level : nat) :
  plain (item_separator level) = true.
Proof.
  unfold item_separator. rewrite plain_app, plain_newline_indent. reflexivity.
Qed.

Lemma forallb_ext_in {A} (f g : A -> bool) (l : list A) :
  Forall (fun x => f x = g x) l -> forallb f l = forallb g l.
Proof.
  induction 1 as [|x l Hx _ IH]; simpl; [reflexivity|].
  now rewrite Hx, IH.
Qed.

Lemma plain_encode (j : json) :
  forall level, plain (encode level j) = plain_json j.
Proof.
  induction j as [|s|items IH|members IH] using json_ind; intros level.
  - reflexivity.
  - apply plain_encode_basestring.
  - destruct items as [|x items]; [reflexivity|].
    rewrite encode_JList.
    change (0x5B%N :: ?t) with ([0x5B%N] ++ t).
    rewrite !plain_app, !plain_newline_indent,
            (plain_join _ _ _ (plain_item_separator (S level))).
    change (plain [0x5B%N]) with true. change (plain [0x5D%N]) with true.
    cbn [plain_json andb]. rewrite !andb_true_r.
    apply (forallb_ext_in (fun y => plain (encode (S level) y)) plain_json).
    apply Forall_forall. intros y Hy. rewrite Forall_forall in IH.
    now apply IH.
  - destruct members as [|m members]; [reflexivity|].
    rewrite encode_JDict.
    change (0x7B%N :: ?t) with ([0x7B%N] ++ t).
    rewrite !plain_app, !plain_newline_indent,
            (plain_join _ _ _ (plain_item_separator (S level))).
    change (plain [0x7B%N]) with true. change (plain [0x7D%N]) with true.
    cbn [plain_json andb]. rewrite !andb_true_r.
    apply (forallb_ext_in (fun y => plain (member_chunk (S level) y))
             (fun y => plain (fst y) && plain_json (snd y))).
    apply Forall_forall. intros y Hy. rewrite Forall_forall in IH.
    unfold member_chunk. rewrite !plain_app, plain_encode_basestring.
    rewrite (IH y Hy). reflexivity.
Qed.

Lemma forallb_map {A B} (f : B -> bool) (g : A -> B) (l : list A) :
  forallb f (map g l) = forallb (fun x => f (g x)) l.
Proof. induction l as [|x l IH]; simpl; [reflexivity|]. now rewrite IH. Qed.

Lemma plain_json_doc (d : Doc) : plain_json (doc_value d) = plain_doc d.
Proof.
  unfold plain_doc. destruct d as [t x p a i u].
  cbn [doc_value plain_json forallb fst snd title text publish_date authors
       top_image source_url].
  rewrite forallb_map. cbn [plain_json].
  replace (plain (lit "title")) with true by reflexivity.
  replace (plain (lit "text")) with true by reflexivity.
  replace (plain (lit "publish_date")) with true by reflexivity.
  replace (plain (lit "authors")) with true by reflexivity.
  replace (plain (lit "top_image")) with true by reflexivity.
  replace (plain (lit "source_url")) with true by reflexivity.
  cbn [andb]. rewrite andb_true_r.
  destruct p; cbn [plain_json]; rewrite !andb_assoc; reflexivity.
Qed.

Lemma plain_json_results (self : WebScraperAI) :
  plain_json (results_of self) = plain_state self.
Proof.
  unfold plain_state, results_of, content_value, summaries_value.
  cbn [plain_json forallb fst snd]. rewrite !forallb_map.
  replace (plain (lit "search_results")) with true by reflexivity.
  replace (plain (lit "content")) with true by reflexivity.
  replace (plain (lit "summaries")) with true by reflexivity.
  replace (plain (lit "failed_urls")) with true by reflexivity.
  cbn [andb plain_json fst snd]. rewrite andb_true_r, !andb_assoc.
  f_equal. f_equal. f_equal.
  apply forallb_ext_in, Forall_forall. intros [k d] _. cbn [fst snd].
  now rewrite plain_json_doc.
Qed.

(** ** Reading a written document back *)

Lemma as_python_strs (l : list str) :
  map as_python (map JStr l) = map JStr l.
Proof. induction l as [|s l IH]; simpl; [reflexivity|]. now rewrite IH. Qed.

Lemma as_python_doc (d : Doc) : as_python (doc_value d) = doc_value d.
Proof.
  destruct d as [t x p a i u]. unfold doc_value.
  cbn [as_python map fst snd title text publish_date authors top_image
       source_url].
  rewrite as_python_strs. destruct p; reflexivity.
Qed.

Lemma as_python_members {V} (f : V -> json) (d : dict V) :
  (forall v, as_python (f v) = f v) ->
  NoDup (keys d) ->
  as_python (JDict (map (fun item => (fst item, f (snd item))) d))
  = JDict (map (fun item => (fst item, f (snd item))) d).
Proof.
  intros Hf Hnd. cbn [as_python]. f_equal.
  rewrite map_map. cbn [fst snd].
  rewrite (map_ext _ (fun item => (fst item, f (snd item))))
    by (intros item; now rewrite Hf).
  rewrite from_pairs_distinct; [reflexivity|].
  simpl. unfold keys in *. rewrite map_map. simpl.
  rewrite (map_ext _ fst) by reflexivity. exact Hnd.
Qed.

Lemma as_python_results (self : WebScraperAI) :
  NoDup (keys (content self)) -> NoDup (keys (summaries self)) ->
  as_python (results_of self) = results_of self.
Proof.
  intros Hc Hs. unfold results_of. cbn [as_python map fst snd].
  unfold content_value, summaries_value.
  rewrite (@as_python_members _ doc_value (content self) as_python_doc Hc).
  rewrite (@as_python_members _ JStr (summaries self) (fun s => eq_refl) Hs).
  rewrite !as_python_strs. reflexivity.
Qed.

Lemma loads_dumps_results (self : WebScraperAI) :
  NoDup (keys (content self)) -> NoDup (keys (summaries self)) ->
  loads (dumps (results_of self)) = Some (results_of self).
Proof.
  intros Hc Hs. unfold loads. rewrite parse_dumps.
  now rewrite as_python_results.
Qed.

End StoreFacts.

(** * Saving and reading back *)

Section Store.

Context {services : Services}.

Lemma map_JStr_inj (a b : list str) : map JStr a = map JStr b -> a = b.
Proof.
  revert b. induction a as [|x a IH]; intros [|y b] H; simpl in H;
    try discriminate; [reflexivity|].
  injection H as Hxy Hab. f_equal; [exact Hxy|now apply IH].
Qed.

Lemma doc_value_inj (a b : Doc) : doc_value a = doc_value b -> a = b.
Proof.
  destruct a as [t1 x1 p1 a1 i1 u1], b as [t2 x2 p2 a2 i2 u2].
  unfold doc_value; simpl. intros H.
  injection H as Ht Hx Hp Ha Hi Hu. apply map_JStr_inj in Ha.
  assert (p1 = p2) by (destruct p1, p2; congruence).
  congruence.
Qed.

Lemma content_items_inj (a b : dict Doc) :
  map (fun item => (fst item, doc_value (snd item))) a
  = map (fun item => (fst item, doc_value (snd item))) b -> a = b.
Proof.
  revert b. induction a as [|[k d] a IH]; intros [|[k' d'] b] H;
    simpl in H; try discriminate; [reflexivity|].
  pose proof (f_equal (@List.tl _) H) as Htl.
  pose proof (f_equal (fun l => option_map fst (hd_error l)) H) as Hk.
  pose proof (f_equal (fun l => option_map snd (hd_error l)) H) as Hd.
  simpl in Htl, Hk, Hd. injection Hk as ->.
  assert (Hdoc : doc_value d = doc_value d') by congruence.
  apply doc_value_inj in Hdoc. subst d'. f_equal. now apply IH.
Qed.

Lemma summaries_items_inj (a b : dict str) :
  map (fun item => (fst item, JStr (snd item))) a
  = map (fun item => (fst item, JStr (snd item))) b -> a = b.
Proof.
  revert b. induction a as [|[k v] a IH]; intros [|[k' v'] b] H;
    simpl in H; try discriminate; [reflexivity|].
  injection H as Hk Hv Hab. f_equal; [congruence|now apply IH].
Qed.

(** The document tells the four saved attributes apart. *)
Lemma results_of_inj (a b : WebScraperAI) :
  results_of a = results_of b ->
  search_results a = search_results b /\ content a = content b /\
  summaries a = summaries b /\ failed_urls a = failed_urls b.
Proof.
  unfold results_of. intros H. injection H as Hr Hc Hs Hf.
  apply map_JStr_inj in Hr, Hf.
  apply content_items_inj in Hc. apply summaries_items_inj in Hs. auto.
Qed.

Lemma save_results_plain (filename place : str) (self : WebScraperAI)
  (fs : Files) :
  locate filename = Some place ->
  plain_state self = true ->
  exists data,
    utf8_decode data = Some (dumps (results_of self)) /\
    save_results filename self fs
    = ((if plain filename then Returned filename
        else Raised UnicodeEncodeError),
       dict_set place (Complete data) fs).
Proof.
  intros Hplace Hplain. unfold save_results. rewrite Hplace.
  destruct (utf8_encode (dumps (results_of self))) as [data|] eqn:E.
  - exists data. split; [now apply utf8_roundtrip|].
    rewrite print_labelled by reflexivity. now destruct (plain filename).
  - exfalso. rewrite <- plain_json_results in Hplain.
    rewrite <- (plain_encode (results_of self) 0) in Hplain.
    apply utf8_encode_plain in Hplain. now apply Hplain.
Qed.

Lemma save_results_surrogate (filename place : str) (self : WebScraperAI)
  (fs : Files) :
  locate filename = Some place ->
  plain_state self = false ->
  save_results filename self fs
  = (Raised UnicodeEncodeError, dict_set place Torn fs).
Proof.
  intros Hplace Hplain. unfold save_results. rewrite Hplace.
  destruct (utf8_encode (dumps (results_of self))) as [data|] eqn:E;
    [|reflexivity].
  assert (H : plain (dumps (results_of self)) = true)
    by (apply utf8_encode_plain; congruence).
  unfold dumps in H. rewrite plain_encode, plain_json_results in H.
  congruence.
Qed.

Lemma save_results_refused (filename : str) (self : WebScraperAI)
  (fs : Files) :
  locate filename = None ->
  save_results filename self fs = (Raised OSError, fs).
Proof.
  intros Hplace. unfold save_results. now rewrite Hplace.
Qed.

(** C9, as amended.  The content map and the summaries are dictionaries: a
    key occurs once.  On an object whose saved strings hold Unicode scalar
    values only (no lone surrogate), and for a path that [open] takes,
    [save_results] writes a file, and reading the file back gives a
    document whose four fields are the four saved attributes as they were:
    [content], [summaries] and [failed_urls] among them; any object that
    would be saved as this document has the same content, summaries and
    failed list.  The call returns the path when line 191 can print it.
    When a saved string holds a lone surrogate, [save_results] raises
    [UnicodeEncodeError] and leaves no document to read back; when [open]
    refuses the path, [save_results] raises [OSError] and writes
    nothing. *)
Theorem save_results_round_trip (filename : str) (self : WebScraperAI)
  (fs : Files) :
  NoDup (keys (content self)) ->
  NoDup (keys (summaries self)) ->
  let r := save_results filename self fs in
  (locate filename <> None ->
   plain_state self = true ->
   (plain filename = true -> fst r = Returned filename) /\
   reload filename (snd r) = Some (results_of self) /\
   field (lit "content") (results_of self)
   = Some (content_value (content self)) /\
   field (lit "summaries") (results_of self)
   = Some (summaries_value (summaries self)) /\
   field (lit "failed_urls") (results_of self)
   = Some (JList (map JStr (failed_urls self))) /\
   forall other,
     reload filename (snd r) = Some (results_of other) ->
     content other = content self /\ summaries other = summaries self /\
     failed_urls other = failed_urls self) /\
  (locate filename <> None ->
   plain_state self = false ->
   fst r = Raised UnicodeEncodeError /\ reload filename (snd r) = None) /\
  (locate filename = None -> r = (Raised OSError, fs)).
Proof.
  intros Hc Hs r. subst r.
  split; [|split]; [| |apply save_results_refused].
  - intros Hopen Hplain.
    destruct (locate filename) as [place|] eqn:Hplace; [|now elim Hopen].
    destruct (@save_results_plain filename place self fs Hplace Hplain)
      as (data & Hdata & ->).
    assert (Hreload :
              reload filename (dict_set place (Complete data) fs)
              = Some (results_of self)).
    { unfold reload, read_back. rewrite Hplace, dict_get_set_same, Hdata.
      now apply loads_dumps_results. }
    cbn [fst snd]. rewrite Hreload.
    split; [now intros ->|]. split; [reflexivity|].
    split; [reflexivity|]. split; [reflexivity|]. split; [reflexivity|].
    intros other Hother.
    assert (Hsame : results_of other = results_of self) by congruence.
    apply results_of_inj in Hsame. tauto.
  - intros Hopen Hplain.
    destruct (locate filename) as [place|] eqn:Hplace; [|now elim Hopen].
    rewrite (@save_results_surrogate filename place self fs Hplace Hplain).
    cbn [fst snd].
    split; [reflexivity|].
    unfold reload, read_back. now rewrite Hplace, dict_get_set_same.
Qed.

End Store.

(** * More about the search client *)

Section MoreSearch.

Context {services : Services}.

Lemma slice_to_length {A} (n : Z) (l : list A) :
  (0 <= n)%Z -> (len (slice_to n l) <= n)%Z.
Proof.
  intros Hn. unfold slice_to, len.
  destruct (0 <=? n)%Z eqn:E; [|apply Z.leb_gt in E; lia].
  rewrite length_firstn. lia.
Qed.

Lemma links_length (entries : list (option str)) (urls : list str) :
  links entries = Some urls -> List.length urls = List.length entries.
Proof.
  revert urls. induction entries as [|[link|] entries IH]; simpl; intros urls.
  - now intros [= <-].
  - destruct (links entries) as [ls|]; [|discriminate].
    intros [= <-]. simpl. now rewrite (IH ls eq_refl).
  - discriminate.
Qed.

Lemma reply_links_length (n : Z) (reply : SearchReply) (urls : list str) :
  (0 <= n)%Z -> reply_links n reply = Some urls -> (len urls <= n)%Z.
Proof.
  intros Hn. destruct reply as [|results]; simpl; [discriminate|].
  destruct (organic_results results) as [entries|]; [|discriminate].
  intros Hlinks. apply links_length in Hlinks.
  pose proof (slice_to_length entries Hn) as Hslice.
  unfold len in *. lia.
Qed.

Lemma search_web_value (query : str) (n : Z) (self : WebScraperAI)
  (w : World) (urls : list str) :
  value (search_web query n self w) = Returned urls ->
  urls = [] \/ reply_links n (search_reply query n self w) = Some urls.
Proof.
  destruct (truthy (serpapi_key self)) eqn:Hkey.
  - rewrite search_web_with_key by exact Hkey.
    destruct (reply_links n (search_reply query n self w)) as [ls|];
      unfold value; simpl; intros [= <-]; auto.
  - rewrite search_web_without_key by exact Hkey. discriminate.
Qed.

(** X1.  For a count that is not negative, [search_web] returns at most
    that many links, and the cache afterwards is as it was or holds at most
    that many links. *)
Theorem search_web_at_most_count (query : str) (n : Z)
  (self : WebScraperAI) (w : World) :
  (0 <= n)%Z ->
  (forall urls,
     value (search_web query n self w) = Returned urls ->
     (len urls <= n)%Z) /\
  (search_results (object (search_web query n self w))
   = search_results self \/
   (len (search_results (object (search_web query n self w))) <= n)%Z).
Proof.
  intros Hn. split.
  - intros urls Hvalue.
    destruct (search_web_value query n self w Hvalue) as [->|Hlinks].
    + exact Hn.
    + exact (reply_links_length _ Hn Hlinks).
  - destruct (truthy (serpapi_key self)) eqn:Hkey.
    + rewrite search_web_with_key by exact Hkey.
      destruct (reply_links n (search_reply query n self w)) as [ls|] eqn:E;
        unfold object; simpl; [|now left].
      right. exact (reply_links_length _ Hn E).
    + rewrite search_web_without_key by exact Hkey. now left.
Qed.

(** X2.  After [set_serpapi_key], [search_web] raises exactly when the key
    that was set is empty; the other attributes are as they were. *)
Theorem set_serpapi_key_then_search (key query : str) (n : Z)
  (self : WebScraperAI) (w : World) :
  let self' := set_serpapi_key key self in
  ((exists e, value (search_web query n self' w) = Raised e) <-> key = []) /\
  hf_api_key self' = hf_api_key self /\
  search_results self' = search_results self /\
  content self' = content self /\
  summaries self' = summaries self /\
  failed_urls self' = failed_urls self.
Proof.
  intros self'. split; [|repeat split].
  destruct key as [|c key].
  - split; [reflexivity|]. intros _.
    exists (ValueError serpapi_key_message).
    now rewrite search_web_without_key.
  - split; [|discriminate]. intros [e He].
    rewrite search_web_with_key in He by reflexivity.
    destruct (reply_links _ _); discriminate.
Qed.

Lemma suggest_alternative_resources_search (failed_url : str)
  (query : option str) (self : WebScraperAI) (w : World) :
  suggest_alternative_resources failed_url query self w =
  match alternative_query failed_url query with
  | Returned q =>
      match search_web q 3 self w with
      | (Returned urls, self', w') => (Returned urls, self', w')
      | (Raised _, self', w') => (Returned [], self', w')
      end
  | Raised e => (Raised e, self, w)
  end.
Proof.
  unfold suggest_alternative_resources, alternative_query.
  destruct query as [[|c q]|]; reflexivity.
Qed.

(** The query is the one given, or is made from the failed URL when none
    is given or the one given is empty. *)
Lemma alternative_query_cases (failed_url : str) (query : option str) :
  (forall q, query = Some q -> q <> [] ->
     alternative_query failed_url query = Returned q) /\
  (query = None \/ query = Some [] ->
   match urlparse failed_url with
   | UrlParsed domain =>
       alternative_query failed_url query
       = Returned (lit "site:" ++ domain ++ lit " information")
   | UrlRaised message =>
       alternative_query failed_url query = Raised (ValueError message)
   end).
Proof.
  split.
  - intros q -> Hq. destruct q; [contradiction|reflexivity].
  - intros [-> | ->]; unfold alternative_query, site_query;
      now destruct (urlparse failed_url).
Qed.

(** X3.  Without a search key, [suggest_alternative_resources] sends no
    request and leaves the object as it was.  It returns the empty list,
    swallowing the error of [search_web], unless it has to make the query
    itself, because none was given or the one given is empty, and
    [urlparse] raises on the failed URL: that [ValueError] leaves the
    method. *)
Theorem suggest_alternative_resources_without_key (failed_url : str)
  (query : option str) (self : WebScraperAI) (w : World) :
  truthy (serpapi_key self) = false ->
  let r := suggest_alternative_resources failed_url query self w in
  object r = self /\ world r = w /\
  (forall q, query = Some q -> q <> [] -> value r = Returned []) /\
  (query = None \/ query = Some [] ->
   match urlparse failed_url with
   | UrlParsed _ => value r = Returned []
   | UrlRaised message => value r = Raised (ValueError message)
   end).
Proof.
  intros Hkey r. subst r. rewrite suggest_alternative_resources_search.
  destruct (alternative_query_cases failed_url query) as [Hgiven Hmade].
  assert (Hsame : forall q,
             alternative_query failed_url query = Returned q ->
             match alternative_query failed_url query with
             | Returned q =>
                 match search_web q 3 self w with
                 | (Returned urls, self', w') => (Returned urls, self', w')
                 | (Raised _, self', w') => (Returned [], self', w')
                 end
             | Raised e => (Raised e, self, w)
             end = (Returned [], self, w)).
  { intros q ->. now rewrite search_web_without_key. }
  split; [|split; [|split]].
  - destruct (alternative_query failed_url query) as [q|e] eqn:E;
      [now rewrite (Hsame q)|reflexivity].
  - destruct (alternative_query failed_url query) as [q|e] eqn:E;
      [now rewrite (Hsame q)|reflexivity].
  - intros q Hq Hne. now rewrite (Hsame q (Hgiven q Hq Hne)).
  - intros Hnone. specialize (Hmade Hnone).
    destruct (urlparse failed_url) as [message|domain].
    + now rewrite Hmade.
    + now rewrite (Hsame _ Hmade).
Qed.

(** X4.  With a search key, [suggest_alternative_resources] searches for
    the query it was given or, when that is missing or empty, for
    [site:<netloc of the failed URL> information]: it sends one search
    request, for three results, and returns the links [search_web] returns
    for that query, at most three.  When it has to make the query and
    [urlparse] raises on the failed URL, it raises that [ValueError],
    sends nothing and leaves the object as it was. *)
Theorem suggest_alternative_resources_with_key (failed_url : str)
  (query : option str) (self : WebScraperAI) (w : World) :
  truthy (serpapi_key self) = true ->
  let r := suggest_alternative_resources failed_url query self w in
  (forall q,
     alternative_query failed_url query = Returned q ->
     value r = value (search_web q 3 self w) /\
     object r = object (search_web q 3 self w) /\
     sent (world r)
     = sent w ++ [ReqSearch {| sp_q := q; sp_api_key := serpapi_key self;
                               sp_num := 3 |}] /\
     exists urls, value r = Returned urls /\ (len urls <= 3)%Z) /\
  (forall e,
     alternative_query failed_url query = Raised e ->
     r = (Raised e, self, w)) /\
  (forall q, query = Some q -> q <> [] ->
     alternative_query failed_url query = Returned q) /\
  (query = None \/ query = Some [] ->
   match urlparse failed_url with
   | UrlParsed domain =>
       alternative_query failed_url query
       = Returned (lit "site:" ++ domain ++ lit " information")
   | UrlRaised message =>
       alternative_query failed_url query = Raised (ValueError message)
   end).
Proof.
  intros Hkey r. subst r. rewrite suggest_alternative_resources_search.
  destruct (alternative_query_cases failed_url query) as [Hgiven Hmade].
  split; [|split; [|split; [exact Hgiven|exact Hmade]]].
  - intros q ->.
    assert (Hlen : forall urls,
               value (search_web q 3 self w) = Returned urls ->
               (len urls <= 3)%Z).
    { intros urls Hv.
      destruct (search_web_value q 3 self w Hv) as [->|Hl];
        [unfold len; simpl; lia|].
      eapply reply_links_length; [|exact Hl]. lia. }
    rewrite search_web_with_key in * by exact Hkey.
    destruct (reply_links 3 (search_reply q 3 self w)) as [urls|];
      unfold value, object, world in *; simpl in *.
    + split; [reflexivity|]. split; [reflexivity|]. split; [reflexivity|].
      exists urls. split; [reflexivity|now apply Hlen].
    + split; [reflexivity|]. split; [reflexivity|]. split; [reflexivity|].
      exists []. split; [reflexivity|now apply Hlen].
  - now intros e ->.
Qed.

End MoreSearch.

(** * More about the extractor and the batch coordinator *)

Section MoreExtraction.

Context {services : Services}.

Lemma dict_get_in_keys {V} (k : str) (d : dict V) :
  In k (keys d) <-> exists v, dict_get k d = Some v.
Proof.
  induction d as [|[k' v'] d IH]; simpl.
  - split; [tauto|]. intros [v Hv]. discriminate.
  - destruct (str_eqb k k') eqn:E.
    + apply str_eqb_eq in E. subst k'. split; [|now left].
      intros _. now exists v'.
    + apply str_eqb_neq in E. rewrite <- IH. split; [|now right].
      intros [Heq|Hin]; [congruence|exact Hin].
Qed.

Lemma keys_dict_set_present {V} (k : str) (v : V) (d : dict V) :
  In k (keys d) -> keys (dict_set k v d) = keys d.
Proof.
  intros Hin. destruct (keys_dict_set k v d) as [H|[Hnotin _]];
    [exact H|contradiction].
Qed.

Lemma keys_dict_set_absent {V} (k : str) (v : V) (d : dict V) :
  ~ In k (keys d) -> keys (dict_set k v d) = keys d ++ [k].
Proof.
  intros Hnotin. destruct (keys_dict_set k v d) as [H|[_ H]]; [|exact H].
  exfalso. apply Hnotin. rewrite <- H. apply dict_get_in_keys.
  exists v. apply dict_get_set_same.
Qed.

(** X5.  A page that is scraped again replaces its document where it
    stands: [scrape_website] leaves the documents of all other URLs and the
    order of the URLs already stored as they were, and puts a new URL
    last. *)
Theorem scrape_website_overwrites_in_place (url : str)
  (self : WebScraperAI) (w : World) :
  let r := scrape_website url self w in
  (forall other, other <> url ->
     dict_get other (content (object r)) = dict_get other (content self)) /\
  (In url (keys (content self)) ->
   keys (content (object r)) = keys (content self)) /\
  (~ In url (keys (content self)) ->
   (exists doc, value r = Returned (Some doc)) ->
   keys (content (object r)) = keys (content self) ++ [url]).
Proof.
  intros r. subst r. rewrite scrape_website_extracted.
  destruct (extracted url _) as [doc|]; [|destruct (plain url)];
    unfold value, object; simpl.
  - split; [|split].
    + intros other Hne. now apply dict_get_set_other.
    + apply keys_dict_set_present.
    + intros Hnotin _. now apply keys_dict_set_absent.
  - split; [reflexivity|]. split; [reflexivity|].
    intros _ [doc H]. discriminate.
  - split; [reflexivity|]. split; [reflexivity|].
    intros _ [doc H]. discriminate.
Qed.

(** X6.  [scrape_website] sends one request, for the page, and does one of
    three things: it stores the document it returns and leaves the failed
    list alone; or it returns nothing, leaves the content map alone and
    adds the URL to the failed list; or, when the extraction failed and the
    URL cannot be printed, it raises [UnicodeEncodeError] and leaves the
    object as it was.  It never touches the keys, the cached search results
    or the summaries. *)
Theorem scrape_website_one_request (url : str) (self : WebScraperAI)
  (w : World) :
  let r := scrape_website url self w in
  sent (world r) = sent w ++ [ReqArticle url] /\
  serpapi_key (object r) = serpapi_key self /\
  hf_api_key (object r) = hf_api_key self /\
  search_results (object r) = search_results self /\
  summaries (object r) = summaries self /\
  ((exists doc, value r = Returned (Some doc) /\
                dict_get url (content (object r)) = Some doc /\
                failed_urls (object r) = failed_urls self) \/
   (value r = Returned None /\ plain url = true /\
    content (object r) = content self /\
    failed_urls (object r) = failed_urls self ++ [url]) \/
   (value r = Raised UnicodeEncodeError /\ plain url = false /\
    extracted url (fst (article_fetch url (env w))) = None /\
    object r = self)).
Proof.
  intros r. subst r. rewrite scrape_website_extracted.
  destruct (extracted url _) as [doc|]; [|destruct (plain url)];
    unfold value, object, world; simpl.
  - repeat split. left. exists doc. rewrite dict_get_set_same. auto.
  - repeat split. right. left. auto.
  - repeat split. right. right. auto.
Qed.

Lemma store_all_last (run : list (str * Fetched datetime)) :
  forall (url : str) (c : dict Doc),
    dict_get url (store_all (successes run) c)
    = match last_success url run with
      | Some doc => Some doc
      | None => dict_get url c
      end.
Proof.
  induction run as [|[url' fetched] run IH]; intros url c; simpl;
    [reflexivity|].
  destruct (extracted url' fetched) as [doc|] eqn:E; simpl; rewrite IH;
    destruct (last_success url run); try reflexivity.
  - destruct (str_eqb url url') eqn:Eu.
    + apply str_eqb_eq in Eu. subst url'. apply dict_get_set_same.
    + apply str_eqb_neq in Eu. now apply dict_get_set_other.
  - destruct (str_eqb url url'); reflexivity.
Qed.

Lemma last_success_not_requested (url : str)
  (run : list (str * Fetched datetime)) :
  ~ In url (map fst run) -> last_success url run = None.
Proof.
  induction run as [|[url' fetched] run IH]; simpl; [reflexivity|].
  intros Hnotin. rewrite IH by tauto.
  destruct (str_eqb url url') eqn:E; [|reflexivity].
  apply str_eqb_eq in E. subst. tauto.
Qed.

Lemma store_all_keys (docs : list (str * Doc)) :
  forall c : dict Doc,
  exists added,
    keys (store_all docs c) = keys c ++ added /\
    forall url, In url added -> In url (map fst docs).
Proof.
  induction docs as [|[url doc] docs IH]; intros c; simpl.
  - exists []. split; [now rewrite app_nil_r|tauto].
  - destruct (IH (dict_set url doc c)) as (added & Hkeys & Hadded).
    destruct (keys_dict_set url doc c) as [Hsame|[_ Hnew]].
    + exists added. rewrite Hkeys, Hsame. split; [reflexivity|].
      intros u Hu. right. now apply Hadded.
    + exists (url :: added). rewrite Hkeys, Hnew, <- app_assoc.
      split; [reflexivity|]. intros u [->|Hu]; [now left|].
      right. now apply Hadded.
Qed.

Lemma successes_urls (run : list (str * Fetched datetime)) (url : str) :
  In url (map fst (successes run)) -> In url (map fst run).
Proof.
  induction run as [|[url' fetched] run IH]; simpl; [tauto|].
  destruct (extracted url' fetched); simpl; tauto.
Qed.

(** X7.  After [batch_scrape], whether it returned or raised, the content
    map holds, under every URL, the document of the last extraction of that
    URL that succeeded among the URLs the batch got to, and what it held
    before the batch when none did; a URL that is not in the batch keeps
    what it had.  The batch gets to the URLs before the first one that
    cannot be printed: to all of them when each can be. *)
Theorem batch_scrape_content (urls : list str) (self : WebScraperAI)
  (w : World) (url : str) :
  let after := content (object (batch_scrape urls self w)) in
  dict_get url after
  = match last_success url (fetch_run (reached urls) (env w)) with
    | Some doc => Some doc
    | None => dict_get url (content self)
    end /\
  (~ In url urls -> dict_get url after = dict_get url (content self)) /\
  (forallb plain urls = true -> reached urls = urls).
Proof.
  intros after. subst after. unfold batch_scrape. rewrite batch_loop_run.
  unfold object; simpl. rewrite store_all_last.
  split; [reflexivity|]. split; [|apply reached_all].
  intros Hnotin. rewrite last_success_not_requested; [reflexivity|].
  rewrite fetch_run_urls. intros Hin. now apply Hnotin, reached_in.
Qed.

(** X8.  [batch_scrape] does not empty the content map: the URLs stored
    before the batch stay, in their order, and the URLs the batch stores
    for the first time come after them. *)
Theorem batch_scrape_keeps_content (urls : list str) (self : WebScraperAI)
  (w : World) :
  exists added,
    keys (content (object (batch_scrape urls self w)))
    = keys (content self) ++ added /\
    forall url, In url added -> In url urls.
Proof.
  unfold batch_scrape. rewrite batch_loop_run. unfold object; simpl.
  destruct (store_all_keys (successes (fetch_run (reached urls) (env w)))
                           (content self)) as (added & Hkeys & Hadded).
  exists added. split; [exact Hkeys|].
  intros url Hin. apply Hadded, successes_urls in Hin.
  rewrite fetch_run_urls in Hin. now apply reached_in.
Qed.

(** X9.  [batch_scrape] sends one request for every URL it gets to, in the
    order of the input and a URL that comes twice is fetched twice; it
    sends nothing else.  It gets to the URLs before the first one that
    cannot be printed, which it does not request: to all of them when each
    can be printed. *)
Theorem batch_scrape_requests (urls : list str) (self : WebScraperAI)
  (w : World) :
  world (batch_scrape urls self w)
  = {| env := env_after (reached urls) (env w);
       sent := sent w ++ map ReqArticle (reached urls) |} /\
  (exists rest : list str,
     urls = reached urls ++ rest /\
     (forallb plain urls = true <-> rest = []) /\
     (forall url, hd_error rest = Some url -> plain url = false)).
Proof.
  unfold batch_scrape. rewrite batch_loop_run. split; [reflexivity|].
  induction urls as [|url urls IH]; simpl.
  - exists []. repeat split; discriminate.
  - destruct (plain url) eqn:E; simpl.
    + destruct IH as (rest & Heq & Hall & Hfirst). exists rest.
      split; [now rewrite <- Heq|]. split; assumption.
    + exists (url :: urls). split; [reflexivity|].
      split; [split; discriminate|]. now intros u [= <-].
Qed.

Lemma fetch_run_app (a b : list str) :
  forall e,
    fetch_run (a ++ b) e = fetch_run a e ++ fetch_run b (env_after a e).
Proof.
  induction a as [|url a IH]; intros e; simpl; [reflexivity|].
  destruct (article_fetch url e) as [fetched e']; simpl. now rewrite IH.
Qed.

Lemma successes_app (a b : list (str * Fetched datetime)) :
  successes (a ++ b) = successes a ++ successes b.
Proof.
  induction a as [|[url fetched] a IH]; simpl; [reflexivity|].
  destruct (extracted url fetched); simpl; now rewrite IH.
Qed.

Lemma failures_app (a b : list (str * Fetched datetime)) :
  failures (a ++ b) = failures a ++ failures b.
Proof.
  induction a as [|[url fetched] a IH]; simpl; [reflexivity|].
  destruct (extracted url fetched); simpl; now rewrite IH.
Qed.

Lemma store_all_app (a b : list (str * Doc)) :
  forall c, store_all (a ++ b) c = store_all b (store_all a c).
Proof.
  induction a as [|[url doc] a IH]; intros c; simpl; [reflexivity|].
  apply IH.
Qed.

Lemma env_after_app (a b : list str) :
  forall e, env_after (a ++ b) e = env_after b (env_after a e).
Proof.
  induction a as [|url a IH]; intros e; simpl; [reflexivity|]. apply IH.
Qed.

(** X10.  One batch over [a ++ b], when every URL of [a] can be printed,
    is a batch over [a] followed by a batch over [b], but for the failed
    list, which the second batch empties: it returns the pairs of the two
    batches one after the other when the second returns and raises when
    the second raises, the content map and the world are those after the
    second batch, and the failed list is that of the first batch followed
    by that of the second.  When a URL of [a] cannot be printed, the batch
    over [a ++ b] is the batch over [a]. *)
Theorem batch_scrape_app (a b : list str) (self : WebScraperAI)
  (w : World) :
  let first := batch_scrape a self w in
  let second := batch_scrape b (object first) (world first) in
  let whole := batch_scrape (a ++ b) self w in
  value whole
  = match value first, value second with
    | Returned x, Returned y => Returned (x ++ y)
    | Returned _, Raised e => Raised e
    | Raised e, _ => Raised e
    end /\
  (forallb plain a = true ->
   content (object whole) = content (object second) /\
   failed_urls (object whole)
   = failed_urls (object first) ++ failed_urls (object second) /\
   world whole = world second) /\
  (forallb plain a = false -> whole = first).
Proof.
  intros first second whole. subst first second whole.
  unfold batch_scrape. rewrite !batch_loop_run.
  unfold value, object, world; simpl.
  rewrite reached_app, forallb_app.
  destruct (forallb plain a) eqn:Ea.
  - rewrite (reached_all a Ea).
    rewrite fetch_run_app, successes_app, failures_app, store_all_app,
            env_after_app, map_app, app_assoc.
    split; [now destruct (forallb plain b)|]. split; [|discriminate].
    intros _. repeat split.
  - split; [reflexivity|]. split; [discriminate|reflexivity].
Qed.

Lemma successes_stored (run : list (str * Fetched datetime)) :
  forall (c : dict Doc) (url : str),
    In url (keys c) \/ In url (map fst (successes run)) ->
    In url (keys (store_all (successes run) c)).
Proof.
  induction run as [|[url' fetched] run IH]; intros c url; simpl.
  - tauto.
  - destruct (extracted url' fetched) as [doc|]; simpl.
    + intros H. apply IH.
      destruct H as [H|[->|H]]; [left|left|now right].
      * destruct (keys_dict_set url' doc c) as [-> | [_ ->]];
          [exact H|apply in_or_app; now left].
      * apply dict_get_in_keys. exists doc. apply dict_get_set_same.
    + apply IH.
Qed.

Lemma run_accounted (run : list (str * Fetched datetime)) (url : str) :
  In url (map fst run) ->
  In url (map fst (successes run)) \/ In url (failures run).
Proof.
  induction run as [|[url' fetched] run IH]; simpl; [tauto|].
  destruct (extracted url' fetched); simpl; tauto.
Qed.

(** X11.  No URL the batch gets to is lost: after [batch_scrape] every
    URL before the first one that cannot be printed is a key of the
    content map or an entry of the failed list; so is every input URL when
    the batch returns. *)
Theorem batch_scrape_accounts_for_every_url (urls : list str)
  (self : WebScraperAI) (w : World) (url : str) :
  In url urls ->
  let r := batch_scrape urls self w in
  (In url (reached urls) \/ exists results, value r = Returned results) ->
  In url (keys (content (object r))) \/ In url (failed_urls (object r)).
Proof.
  intros Hin r Hreached.
  assert (Hgot : In url (reached urls)).
  { destruct Hreached as [H|H]; [exact H|].
    apply batch_scrape_returns in H. now rewrite (reached_all urls H). }
  subst r. unfold batch_scrape.
  rewrite batch_loop_run. unfold object; simpl.
  rewrite <- (fetch_run_urls (reached urls) (env w)) in Hgot.
  destruct (run_accounted _ _ Hgot) as [H|H]; [left|now right].
  apply successes_stored. now right.
Qed.

End MoreExtraction.

(** * More about the summarizer *)

Section MoreSummarizer.

Context {services : Services}.

Lemma provider_input_firstn (text : str) :
  provider_input text = firstn (Z.to_nat 5000) text.
Proof.
  unfold provider_input, slice_to, len.
  destruct (5000 <? Z.of_nat (List.length text))%Z eqn:E; [reflexivity|].
  apply Z.ltb_ge in E. symmetry. apply firstn_all2. lia.
Qed.

Lemma provider_input_length (text : str) :
  (len (provider_input text) <= 5000)%Z.
Proof.
  rewrite provider_input_firstn. unfold len. rewrite length_firstn. lia.
Qed.

Lemma summarize_text_with_key (text : str) (max_length : Z)
  (self : WebScraperAI) (w : World) :
  truthy (hf_api_key self) = true ->
  summarize_text text max_length self w =
  let payload := summary_payload text max_length self in
  let w' := {| env := snd (requests_post API_URL payload (env w));
               sent := sent w ++ [ReqPost API_URL payload] |} in
  match fst (requests_post API_URL payload (env w)) with
  | PostGot response =>
      if (status_code response =? 200)%Z then
        match summary_text response with
        | Some summary => (summary, w')
        | None => (_simple_summarize (provider_input text) 5, w')
        end
      else (_simple_summarize (provider_input text) 5, w')
  | PostRaised => (_simple_summarize (provider_input text) 5, w')
  end.
Proof.
  intros Hkey. unfold summarize_text, post, summary_payload.
  rewrite Hkey; simpl. fold (provider_input text).
  destruct (requests_post _ _ (env w)) as [reply e]; reflexivity.
Qed.

Lemma summarize_text_sent (text : str) (max_length : Z)
  (self : WebScraperAI) (w : World) :
  truthy (hf_api_key self) = true ->
  sent (snd (summarize_text text max_length self w))
  = sent w ++ [ReqPost API_URL (summary_payload text max_length self)].
Proof.
  intros Hkey. rewrite summarize_text_with_key by exact Hkey. cbv zeta.
  destruct (fst (requests_post API_URL _ (env w))) as [|response];
    [reflexivity|].
  destruct (status_code response =? 200)%Z; [|reflexivity].
  destruct (summary_text response); reflexivity.
Qed.

(** X12.  With a key, [summarize_text] sends one request, to the
    summarization endpoint: its input is the first 5000 characters of the
    text and never more, its parameters are the [max_length] asked for and
    a [min_length] of 100, its authorization the key after [Bearer].  When
    the answer has status 200 and a summary, that summary is returned as it
    is. *)
Theorem summarize_text_request (text : str) (max_length : Z)
  (self : WebScraperAI) (w : World) :
  truthy (hf_api_key self) = true ->
  let payload := summary_payload text max_length self in
  let r := summarize_text text max_length self w in
  sent (snd r) = sent w ++ [ReqPost API_URL payload] /\
  pl_inputs payload = firstn (Z.to_nat 5000) text /\
  (len (pl_inputs payload) <= 5000)%Z /\
  pl_max_length payload = max_length /\
  pl_min_length payload = 100%Z /\
  pl_authorization payload = lit "Bearer " ++ hf_api_key self /\
  (forall response summary,
     fst (requests_post API_URL payload (env w)) = PostGot response ->
     status_code response = 200%Z ->
     summary_text response = Some summary ->
     fst r = summary).
Proof.
  intros Hkey payload r. subst r.
  rewrite summarize_text_with_key by exact Hkey. fold payload. cbv zeta.
  split.
  - pose proof (summarize_text_sent text max_length self w Hkey) as Hsent.
    now rewrite summarize_text_with_key in Hsent by exact Hkey.
  - split; [apply provider_input_firstn|].
    split; [apply provider_input_length|].
    split; [reflexivity|]. split; [reflexivity|]. split; [reflexivity|].
    intros response summary -> Hstatus Hsummary.
    apply Z.eqb_eq in Hstatus. now rewrite Hstatus, Hsummary.
Qed.

(** X13.  With a key, [summarize_text] never looks beyond the first 5000
    characters: two texts that agree on them get the same request and the
    same summary, from the provider or from the fallback. *)
Theorem summarize_text_reads_5000 (text text' : str) (max_length : Z)
  (self : WebScraperAI) (w : World) :
  truthy (hf_api_key self) = true ->
  firstn (Z.to_nat 5000) text = firstn (Z.to_nat 5000) text' ->
  summarize_text text max_length self w
  = summarize_text text' max_length self w.
Proof.
  intros Hkey Hprefix. rewrite !summarize_text_with_key by exact Hkey.
  unfold summary_payload. rewrite !provider_input_firstn, Hprefix.
  reflexivity.
Qed.

End MoreSummarizer.

(** * More about the analysis *)

Section AnalysisCoverage.

Context {services : Services}.

Lemma analyze_loop_text (items : list (str * Doc)) :
  forall all_text self w,
    value (analyze_loop items all_text self w)
    = all_text ++ combined_text items.
Proof.
  induction items as [|[url data] items IH]; intros all_text self w;
    cbn [analyze_loop combined_text].
  - unfold value; simpl. now rewrite app_nil_r.
  - destruct (summarize_text (text data) 500 self w) as [summary w'].
    rewrite IH. now rewrite <- !app_assoc.
Qed.

Lemma combined_text_empty (items : list (str * Doc)) :
  truthy (combined_text items) = false <-> items = [].
Proof.
  destruct items as [|[url data] items]; simpl; [tauto|].
  split; [|discriminate].
  destruct (title data); simpl; discriminate.
Qed.

Lemma in_keys_dict_set {V} (k k0 : str) (v : V) (d : dict V) :
  In k0 (keys (dict_set k v d)) <-> k0 = k \/ In k0 (keys d).
Proof.
  destruct (keys_dict_set k v d) as [Hsame|[Hnotin Hnew]].
  - rewrite Hsame. split; [tauto|]. intros [->|H]; [|exact H].
    rewrite <- Hsame. apply dict_get_in_keys. exists v.
    apply dict_get_set_same.
  - rewrite Hnew, in_app_iff. simpl. intuition congruence.
Qed.

Lemma analyze_loop_keys (items : list (str * Doc)) :
  forall all_text self w url,
    In url (keys (summaries (object (analyze_loop items all_text self w))))
    <-> In url (keys (summaries self)) \/ In url (keys items).
Proof.
  induction items as [|[k data] items IH]; intros all_text self w url; simpl.
  - unfold object; simpl. tauto.
  - destruct (summarize_text (text data) 500 self w) as [summary w'].
    rewrite IH. simpl. rewrite in_keys_dict_set. intuition congruence.
Qed.


Lemma summarize_text_with_summaries (text : str) (max_length : Z)
  (s : dict str) (self : WebScraperAI) (w : World) :
  summarize_text text max_length (with_summaries s self) w
  = summarize_text text max_length self w.
Proof. reflexivity. Qed.






End AnalysisCoverage.

Section MoreAnalysisRequests.

Context {services : Services}.


End MoreAnalysisRequests.

(** * More about the states an object goes through *)

Section MoreInvariants.

Context {services : Services}.

Lemma in_dict_get {V} (k : str) (v : V) (d : dict V) :
  NoDup (keys d) -> In (k, v) d -> dict_get k d = Some v.
Proof.
  induction d as [|[k' v'] d IH]; simpl; [tauto|].
  intros Hnd Hin. inversion Hnd as [|? ? Hnotin Hnd']; subst.
  destruct Hin as [[= -> ->]|Hin].
  - now rewrite str_eqb_refl.
  - destruct (str_eqb k k') eqn:E; [|now apply IH].
    apply str_eqb_eq in E. subst k'. exfalso. apply Hnotin.
    apply (in_map fst) in Hin. exact Hin.
Qed.

(** X17.  In every state an object goes through, the content map has one
    entry for a URL, and every document in it carries that URL as its
    [source_url] and a text of at least 50 characters once stripped. *)
Theorem stored_documents_keep_their_url (self : WebScraperAI) :
  reachable self ->
  NoDup (keys (content self)) /\
  forall url doc,
    In (url, doc) (content self) ->
    source_url doc = url /\ (50 <= len (strip (text doc)))%Z.
Proof.
  intros Hreach. apply reachable_well_formed in Hreach.
  destruct Hreach as [Hchecked _ Hnd _]. split; [exact Hnd|].
  intros url doc Hin. apply (@in_dict_get _ url doc _ Hnd) in Hin.
  destruct (Hchecked url doc Hin). auto.
Qed.

Lemma summaries_of_content_search_web (query : str) (n : Z)
  (self : WebScraperAI) (w : World) :
  summaries_of_content self ->
  summaries_of_content (object (search_web query n self w)).
Proof.
  intros H. destruct (truthy (serpapi_key self)) eqn:Hkey.
  - rewrite search_web_with_key by exact Hkey.
    destruct (reply_links _ _); exact H.
  - rewrite search_web_without_key by exact Hkey. exact H.
Qed.

Lemma summaries_of_content_scrape_website (url : str)
  (self : WebScraperAI) (w : World) :
  summaries_of_content self ->
  summaries_of_content (object (scrape_website url self w)).
Proof.
  intros H. rewrite scrape_website_extracted.
  destruct (extracted url _) as [doc|]; [|destruct (plain url)];
    unfold object; simpl; [|exact H|exact H].
  intros u Hu. simpl in *. destruct (H u Hu) as [->|Hin]; [now left|].
  right. apply in_keys_dict_set. now right.
Qed.

Lemma summaries_of_content_analyze (self : WebScraperAI) (w : World) :
  summaries_of_content self ->
  summaries_of_content (object (analyze_and_summarize self w)).
Proof.
  intros H. unfold analyze_and_summarize.
  pose proof (analyze_loop_frame (content self) [] self w) as Hframe.
  pose proof (analyze_loop_keys (content self) [] self w) as Hkeys.
  simpl in Hframe.
  destruct (analyze_loop (content self) [] self w) as [[all_text self1] w1].
  unfold object in *; simpl in *.
  destruct Hframe as (Hc & _).
  assert (H1 : summaries_of_content self1).
  { intros u Hu. unfold summaries_of_content in H. rewrite Hc.
    apply Hkeys in Hu. destruct Hu as [Hu|Hu]; [now apply H|now right]. }
  destruct (truthy all_text); [|exact H1].
  destruct (summarize_text all_text 1000 self1 w1) as [overall w2]; simpl.
  intros u Hu. simpl in Hu. apply in_keys_dict_set in Hu.
  destruct Hu as [->|Hu]; [now left|now apply H1].
Qed.

(** X18.  In every state an object goes through, every key of the
    summaries is the URL of a document in the content map, or
    ["overall"]. *)
Theorem summaries_belong_to_content (self : WebScraperAI) :
  reachable self -> summaries_of_content self.
Proof.
  induction 1 as [k1 k2|key self _ IH|key self _ IH|query n self w _ IH
                 |url self w _ IH|urls self w _ IH|self w _ IH
                 |url query self w _ IH].
  - intros u Hu. simpl in Hu. contradiction.
  - exact IH.
  - exact IH.
  - now apply summaries_of_content_search_web.
  - now apply summaries_of_content_scrape_website.
  - unfold batch_scrape.
    apply (batch_loop_preserves summaries_of_content).
    + intros. now apply summaries_of_content_scrape_website.
    + exact IH.
  - now apply summaries_of_content_analyze.
  - change (summaries_of_content
              (object (suggest_alternative_resources url query self w))).
    destruct (suggest_alternative_resources_object url query self w)
      as [->|[q ->]]; [exact IH|now apply summaries_of_content_search_web].
Qed.

End MoreInvariants.

(** * The [data] folder: what [clear_data_folder] leaves *)

Section DataFolder.

Lemma filter_keys_notin {V} (f : str * V -> bool) (d : dict V) (k : str) :
  ~ In k (keys d) -> ~ In k (keys (filter f d)).
Proof.
  intros Hnotin Hin. apply Hnotin. unfold keys in *.
  apply in_map_iff in Hin as ([k' v] & <- & Hin').
  apply filter_In in Hin' as [Hin' _]. now apply (in_map fst) in Hin'.
Qed.

Lemma filter_keys_NoDup {V} (f : str * V -> bool) (d : dict V) :
  NoDup (keys d) -> NoDup (keys (filter f d)).
Proof.
  induction d as [|[k v] d IH]; simpl; [constructor|].
  intros Hnd. inversion Hnd as [|? ? Hnotin Hnd']; subst.
  destruct (f (k, v)); simpl; [|now apply IH].
  constructor; [now apply filter_keys_notin|now apply IH].
Qed.

Lemma dict_get_notin {V} (k : str) (d : dict V) :
  ~ In k (keys d) -> dict_get k d = None.
Proof.
  induction d as [|[k' v] d IH]; simpl; [reflexivity|].
  intros Hnotin. destruct (str_eqb k k') eqn:E.
  - apply str_eqb_eq in E. subst. tauto.
  - apply IH. tauto.
Qed.

Lemma clear_step (filename : str) (listing : dict entry) :
  NoDup (keys listing) ->
  (if isfile filename listing then
     match unlink filename listing with
     | Some listing' => listing'
     | None => listing
     end
   else listing)
  = filter (fun item => negb (deleted_now filename item)) listing.
Proof.
  unfold isfile, unlink, deleted_now.
  induction listing as [|[k e] listing IH]; intros Hnd; simpl;
    [reflexivity|].
  inversion Hnd as [|? ? Hnotin Hnd']; subst.
  destruct (str_eqb filename k) eqn:E; simpl.
  - apply str_eqb_eq in E. subst k.
    assert (Hrest : filter (fun item =>
                       negb (str_eqb filename (fst item)
                             && negb (stays (snd item)))) listing
                    = listing).
    { clear - Hnotin. induction listing as [|[k' e'] l IHl]; simpl;
        [reflexivity|].
      destruct (str_eqb filename k') eqn:E'.
      - apply str_eqb_eq in E'. subst. simpl in Hnotin. tauto.
      - simpl. rewrite IHl; [reflexivity|]. simpl in Hnotin. tauto. }
    destruct e as [[|]|]; simpl; now rewrite Hrest.
  - specialize (IH Hnd').
    destruct (dict_get filename listing) as [[[|]|]|] eqn:Eget;
      simpl in *; rewrite <- IH; reflexivity.
Qed.

Lemma filter_twice {A} (f g : A -> bool) (l : list A) :
  filter f (filter g l) = filter (fun x => f x && g x) l.
Proof.
  induction l as [|x l IH]; simpl; [reflexivity|].
  destruct (g x); simpl; rewrite ?andb_true_r, ?andb_false_r;
    [destruct (f x)|]; now rewrite IH.
Qed.

Lemma reports_print_get (listing : dict entry) (filename : str) :
  reports_print listing = true ->
  dict_get filename listing = Some (RegularFile true) ->
  plain filename = true.
Proof.
  unfold reports_print.
  induction listing as [|[k e] listing IH]; simpl; [discriminate|].
  intros Hall. apply andb_true_iff in Hall as [Hk Hrest].
  destruct (str_eqb filename k) eqn:E; [|now apply IH].
  apply str_eqb_eq in E. subst k. intros [= ->]. exact Hk.
Qed.

Lemma reports_print_filter (f : str * entry -> bool) (listing : dict entry) :
  reports_print listing = true -> reports_print (filter f listing) = true.
Proof.
  unfold reports_print. intros Hall. apply forallb_forall.
  intros item Hin. apply filter_In in Hin as [Hin _].
  now apply (proj1 (forallb_forall _ _) Hall).
Qed.

(** A turn of the loop when the names of the files that stay can be
    printed: the loop goes on with the folder the turn leaves. *)
Lemma clear_loop_cons (filename : str) (rest : list str)
  (listing : dict entry) :
  reports_print listing = true ->
  clear_loop (filename :: rest) listing
  = clear_loop rest
      (if isfile filename listing then
         match unlink filename listing with
         | Some listing' => listing'
         | None => listing
         end
       else listing).
Proof.
  intros Hprint. cbn [clear_loop].
  destruct (isfile filename listing) eqn:Efile; [|reflexivity].
  destruct (unlink filename listing) as [listing'|] eqn:Eunlink;
    [reflexivity|].
  assert (Hlocked : dict_get filename listing = Some (RegularFile true)).
  { unfold isfile, unlink in *.
    destruct (dict_get filename listing) as [[[|]|]|]; congruence. }
  rewrite print_labelled by reflexivity.
  now rewrite (reports_print_get listing filename Hprint Hlocked).
Qed.

Lemma clear_loop_filter (filenames : list str) :
  forall listing : dict entry,
    NoDup (keys listing) ->
    reports_print listing = true ->
    clear_loop filenames listing
    = (Returned tt,
       filter (fun item =>
                 negb (existsb (fun f => str_eqb f (fst item)) filenames
                       && negb (stays (snd item)))) listing).
Proof.
  induction filenames as [|filename rest IH]; intros listing Hnd Hprint.
  - simpl. f_equal. symmetry. apply forallb_filter_id.
    now apply forallb_forall.
  - rewrite clear_loop_cons by exact Hprint.
    rewrite (@clear_step filename listing Hnd).
    rewrite IH by (now apply filter_keys_NoDup || now apply reports_print_filter).
    f_equal. rewrite filter_twice. apply filter_ext. intros [k e].
    unfold deleted_now. simpl.
    destruct (str_eqb filename k); destruct (stays e);
      destruct (existsb (fun f => str_eqb f k) rest); reflexivity.
Qed.

Lemma existsb_own_key {V} (d : dict V) (item : str * V) :
  In item d -> existsb (fun f => str_eqb f (fst item)) (keys d) = true.
Proof.
  intros Hin. apply existsb_exists. exists (fst item).
  split; [now apply in_map|apply str_eqb_refl].
Qed.

Lemma clear_loop_own_listing (listing : dict entry) :
  NoDup (keys listing) ->
  reports_print listing = true ->
  clear_loop (keys listing) listing
  = (Returned tt, filter (fun item => stays (snd item)) listing).
Proof.
  intros Hnd Hprint. rewrite clear_loop_filter by assumption. f_equal.
  apply filter_ext_in. intros item Hin.
  rewrite (existsb_own_key listing item Hin). simpl.
  apply negb_involutive.
Qed.

Lemma dict_get_remove_other {V} (k k0 : str) (d : dict V) :
  k0 <> k -> dict_get k0 (dict_remove k d) = dict_get k0 d.
Proof.
  intros Hne. induction d as [|[k' v] d IH]; simpl; [reflexivity|].
  destruct (str_eqb k k') eqn:E; simpl.
  - apply str_eqb_eq in E. subst k'.
    apply str_eqb_neq in Hne. now rewrite Hne.
  - now rewrite IH.
Qed.

(** The loop raises when it comes to a file that cannot be deleted and
    whose name cannot be printed, unless it has raised before. *)
Lemma clear_loop_raises (filenames : list str) (bad : str) :
  forall listing : dict entry,
    In bad filenames ->
    dict_get bad listing = Some (RegularFile true) ->
    plain bad = false ->
    fst (clear_loop filenames listing) = Raised UnicodeEncodeError.
Proof.
  induction filenames as [|filename rest IH]; intros listing Hin Hbad Hodd;
    [contradiction|].
  cbn [clear_loop]. unfold isfile, unlink.
  destruct (list_eq_dec N.eq_dec filename bad) as [->|Hne].
  - rewrite Hbad, print_labelled, Hodd by reflexivity. reflexivity.
  - assert (Hrest : In bad rest) by (destruct Hin; congruence).
    destruct (dict_get filename listing) as [[[|]|]|] eqn:Eget.
    + rewrite print_labelled by reflexivity.
      destruct (plain filename); [now apply IH|reflexivity].
    + apply IH; try assumption.
      rewrite dict_get_remove_other by congruence. exact Hbad.
    + now apply IH.
    + now apply IH.
Qed.

Lemma reports_print_false (listing : dict entry) :
  reports_print listing = false ->
  exists bad, In (bad, RegularFile true) listing /\ plain bad = false.
Proof.
  unfold reports_print.
  induction listing as [|[k e] listing IH]; simpl; [discriminate|].
  intros Hall. apply andb_false_iff in Hall as [Hk|Hrest].
  - destruct e as [[|]|]; try discriminate. exists k. split; [now left|exact Hk].
  - destruct (IH Hrest) as (bad & Hin & Hodd). exists bad.
    split; [now right|exact Hodd].
Qed.

(** X20.  On a folder, [clear_data_folder] deletes the regular files that
    can be deleted and nothing else: what stays, in the order it had, are
    the subfolders and the files whose deletion the system refused.  It
    returns when line 43 can print the name of every file whose deletion
    was refused, and raises [UnicodeEncodeError] when it cannot print one
    of them. *)
Theorem clear_data_folder_deletes_files (listing : dict entry) :
  NoDup (keys listing) ->
  (reports_print listing = true ->
   clear_data_folder (Folder listing)
   = (Returned tt, Folder (filter (fun item => stays (snd item)) listing)))
  /\
  (reports_print listing = false ->
   fst (clear_data_folder (Folder listing)) = Raised UnicodeEncodeError).
Proof.
  intros Hnd. split; intros Hprint; simpl.
  - now rewrite clear_loop_own_listing.
  - destruct (reports_print_false listing Hprint) as (bad & Hin & Hodd).
    pose proof (@clear_loop_raises (keys listing) bad listing
                  (in_map fst listing (bad, RegularFile true) Hin) (@in_dict_get _ bad (RegularFile true) listing Hnd Hin) Hodd)
      as Hraised.
    destruct (clear_loop (keys listing) listing) as [result listing'].
    exact Hraised.
Qed.

(** X21.  [clear_data_folder] does nothing when [data] is missing, and
    clearing again what a call that returned has left changes nothing
    more. *)
Theorem clear_data_folder_again (data : data_path) :
  well_listed data ->
  (data = Missing -> clear_data_folder data = (Returned tt, Missing)) /\
  (forall after,
     clear_data_folder data = (Returned tt, after) ->
     clear_data_folder after = (Returned tt, after)).
Proof.
  intros Hwl. split; [now intros ->|].
  destruct data as [| | |listing]; simpl in *; intros after Hafter;
    try discriminate; [now injection Hafter as <-|].
  destruct (reports_print listing) eqn:Hprint.
  - rewrite clear_loop_own_listing in Hafter by assumption.
    injection Hafter as <-. simpl.
    rewrite clear_loop_own_listing
      by (now apply filter_keys_NoDup || now apply reports_print_filter).
    f_equal. f_equal.
    apply forallb_filter_id. apply forallb_forall.
    intros item Hin. now apply filter_In in Hin.
  - destruct (reports_print_false listing Hprint) as (bad & Hin & Hodd).
    pose proof (@clear_loop_raises (keys listing) bad listing
                  (in_map fst listing (bad, RegularFile true) Hin) (@in_dict_get _ bad (RegularFile true) listing Hwl Hin) Hodd)
      as Hraised.
    destruct (clear_loop (keys listing) listing) as [result listing'].
    simpl in Hraised. congruence.
Qed.

End DataFolder.

(** * The page: the URLs of the text area *)

Section TypedUrls.

Lemma lstrip_idem (s : str) : lstrip (lstrip s) = lstrip s.
Proof.
  induction s as [|c s IH]; simpl; [reflexivity|].
  destruct (isspace c) eqn:E; [exact IH|]. simpl. now rewrite E.
Qed.

Lemma lstrip_app (a b : str) :
  lstrip (a ++ b)
  = match lstrip a with
    | [] => lstrip b
    | _ :: _ => lstrip a ++ b
    end.
Proof.
  induction a as [|c a IH]; simpl; [reflexivity|].
  destruct (isspace c); [exact IH|reflexivity].
Qed.

Lemma lstrip_in (c : char) (s : str) : In c (lstrip s) -> In c s.
Proof.
  induction s as [|x s IH]; simpl; [tauto|].
  destruct (isspace x); [|exact (fun H => H)]. intros H. right. now apply IH.
Qed.

Lemma rstrip_in (c : char) (s : str) : In c (rstrip s) -> In c s.
Proof.
  unfold rstrip. rewrite <- in_rev. intros H. apply lstrip_in in H.
  now rewrite <- in_rev in H.
Qed.

Lemma strip_in (c : char) (s : str) : In c (strip s) -> In c s.
Proof. intros H. now apply lstrip_in, rstrip_in. Qed.

Lemma rstrip_idem (s : str) : rstrip (rstrip s) = rstrip s.
Proof. unfold rstrip. now rewrite rev_involutive, lstrip_idem. Qed.

(** [rstrip] from the front. *)
Lemma rstrip_cons (c : char) (s : str) :
  rstrip (c :: s)
  = match rstrip s with
    | [] => if isspace c then [] else [c]
    | _ :: _ => c :: rstrip s
    end.
Proof.
  unfold rstrip. simpl. rewrite lstrip_app.
  destruct (lstrip (rev s)) as [|x l] eqn:E; simpl.
  - destruct (isspace c); reflexivity.
  - rewrite rev_app_distr. simpl.
    destruct (rev l ++ [x]) eqn:E'; [|reflexivity].
    destruct (rev l); discriminate.
Qed.

(** A string without white space in front keeps its front when stripped
    at the end. *)
Lemma lstrip_length (s : str) :
  (List.length (lstrip s) <= List.length s)%nat.
Proof.
  induction s as [|c s IH]; simpl; [lia|].
  destruct (isspace c); simpl; lia.
Qed.

Lemma lstrip_rstrip (s : str) : lstrip s = s -> lstrip (rstrip s) = rstrip s.
Proof.
  destruct s as [|c s]; [reflexivity|]. intros H.
  destruct (isspace c) eqn:E.
  - exfalso. cbn [lstrip] in H. rewrite E in H.
    pose proof (lstrip_length s) as Hlen. rewrite H in Hlen.
    simpl in Hlen. lia.
  - rewrite rstrip_cons.
    destruct (rstrip s); rewrite ?E; cbn [lstrip]; now rewrite E.
Qed.

Lemma strip_idem (s : str) : strip (strip s) = strip s.
Proof.
  unfold strip. rewrite (@lstrip_rstrip (lstrip s) (lstrip_idem s)).
  apply rstrip_idem.
Qed.

Lemma split_from_app (a b : str) :
  forall current,
    split_from current (a ++ 0x0A%N :: b)
    = split_from current a ++ split_from [] b.
Proof.
  induction a as [|c a IH]; intros current; simpl; [reflexivity|].
  destruct (c =? 10)%N; simpl; now rewrite IH.
Qed.

Lemma split_from_no_newline (s : str) :
  forall current piece,
    ~ In 0x0A%N current ->
    In piece (split_from current s) -> ~ In 0x0A%N piece.
Proof.
  induction s as [|c s IH]; intros current piece Hcur; simpl.
  - intros [<-|[]]. now rewrite <- in_rev.
  - destruct (N.eqb_spec c 10) as [->|Hc]; simpl.
    + intros [<-|Hin]; [now rewrite <- in_rev|].
      apply (IH [] piece); [tauto|exact Hin].
    + apply IH. simpl. intros [H|H]; [congruence|tauto].
Qed.

Lemma split_from_in (s : str) :
  forall current piece c,
    In piece (split_from current s) -> In c piece ->
    In c current \/ In c s.
Proof.
  induction s as [|x s IH]; intros current piece c; simpl.
  - intros [<-|[]] Hc. left. now apply in_rev.
  - destruct (N.eqb_spec x 10) as [->|Hx]; simpl.
    + intros [<-|Hin] Hc; [left; now apply in_rev|].
      destruct (IH [] piece c Hin Hc) as [[]|H]. auto.
    + intros Hin Hc. destruct (IH (x :: current) piece c Hin Hc) as [[<-|H]|H];
        auto.
Qed.

(** The URLs read from a text without surrogates have none. *)
Lemma typed_urls_plain (urls_input : str) :
  plain urls_input = true -> forallb plain (typed_urls urls_input) = true.
Proof.
  intros Hplain. apply forallb_forall. intros url Hurl.
  unfold typed_urls in Hurl.
  apply in_map_iff in Hurl as (line & <- & Hline).
  apply filter_In in Hline as [Hline _].
  apply forallb_forall. intros c Hc. apply strip_in in Hc.
  destruct (split_from_in urls_input [] line c Hline Hc) as [[]|Hin].
  now apply (proj1 (forallb_forall _ _) Hplain).
Qed.

(** X22.  Every URL read from the text area is a line of it with the white
    space around it removed: it is not empty, has no white space at either
    end and holds no line break; lines that are blank are left out. *)
Theorem typed_urls_clean (urls_input url : str) :
  In url (typed_urls urls_input) ->
  url <> [] /\ strip url = url /\ ~ In 0x0A%N url /\
  exists line,
    In line (split_newline urls_input) /\ url = strip line.
Proof.
  unfold typed_urls. intros Hin.
  apply in_map_iff in Hin as (line & <- & Hline).
  apply filter_In in Hline as [Hline Hkept].
  split; [intros Hempty; rewrite Hempty in Hkept; discriminate|].
  split; [apply strip_idem|]. split.
  - intros Hnl. apply strip_in in Hnl.
    apply (split_from_no_newline urls_input [] line); auto.
  - now exists line.
Qed.

(** X23.  The text area is read line by line: the URLs of two texts put
    one under the other are the URLs of the first followed by the URLs of
    the second. *)
Theorem typed_urls_lines (a b : str) :
  typed_urls (a ++ newline ++ b) = typed_urls a ++ typed_urls b.
Proof.
  unfold typed_urls, split_newline, newline. simpl.
  now rewrite split_from_app, filter_app, map_app.
Qed.

End TypedUrls.

(** * The page: what a click does *)

Section PageFacts.

Context {services : Services}.

Lemma batch_scrape_frame (urls : list str) (self : WebScraperAI)
  (w : World) :
  let r := batch_scrape urls self w in
  serpapi_key (object r) = serpapi_key self /\
  hf_api_key (object r) = hf_api_key self /\
  search_results (object r) = search_results self /\
  summaries (object r) = summaries self /\
  searches (sent (world r)) = searches (sent w).
Proof.
  unfold batch_scrape. rewrite batch_loop_run. unfold object, world; simpl.
  repeat split. unfold searches. rewrite filter_app.
  assert (H : forall l, filter is_search (map ReqArticle l) = []).
  { induction l as [|u l IH]; simpl; [reflexivity|exact IH]. }
  rewrite H. apply app_nil_r.
Qed.

Lemma store_all_nonempty (docs : list (str * Doc)) (c : dict Doc) :
  c <> [] \/ docs <> [] -> store_all docs c <> [].
Proof.
  revert c. induction docs as [|[url doc] docs IH]; intros c H; simpl.
  - destruct H as [H|H]; [exact H|now elim H].
  - apply IH. left. apply dict_set_not_empty.
Qed.

Lemma batch_scrape_content_nonempty (urls : list str)
  (self : WebScraperAI) (w : World) :
  content self <> [] \/
  (exists results,
     value (batch_scrape urls self w) = Returned results /\ results <> []) ->
  content (object (batch_scrape urls self w)) <> [].
Proof.
  unfold batch_scrape. rewrite batch_loop_run. unfold value, object; simpl.
  intros H. apply store_all_nonempty.
  destruct H as [H|(results & Hvalue & Hne)]; [now left|right].
  destruct (forallb plain urls); [|discriminate].
  injection Hvalue as <-. exact Hne.
Qed.

Lemma summarize_text_searches (text : str) (max_length : Z)
  (self : WebScraperAI) (w : World) :
  searches (sent (snd (summarize_text text max_length self w)))
  = searches (sent w).
Proof.
  destruct (truthy (hf_api_key self)) eqn:Hkey.
  - rewrite summarize_text_sent by exact Hkey.
    unfold searches. rewrite filter_app. apply app_nil_r.
  - now rewrite summarize_text_without_key.
Qed.

Lemma analyze_loop_searches (items : list (str * Doc)) :
  forall all_text self w,
    searches (sent (world (analyze_loop items all_text self w)))
    = searches (sent w).
Proof.
  induction items as [|[url data] items IH]; intros all_text self w; simpl;
    [reflexivity|].
  pose proof (summarize_text_searches (text data) 500 self w) as H.
  destruct (summarize_text (text data) 500 self w) as [summary w'].
  rewrite IH. exact H.
Qed.

(** What [analyze_and_summarize] leaves as it was, and what it returns. *)
Lemma analyze_and_summarize_frame (self : WebScraperAI) (w : World) :
  let r := analyze_and_summarize self w in
  serpapi_key (object r) = serpapi_key self /\
  hf_api_key (object r) = hf_api_key self /\
  search_results (object r) = search_results self /\
  content (object r) = content self /\
  failed_urls (object r) = failed_urls self /\
  searches (sent (world r)) = searches (sent w) /\
  value r = summaries (object r) /\
  (content self <> [] -> truthy (value r) = true).
Proof.
  unfold analyze_and_summarize.
  pose proof (analyze_loop_frame (content self) [] self w) as Hframe.
  pose proof (analyze_loop_text (content self) [] self w) as Htext.
  pose proof (analyze_loop_searches (content self) [] self w) as Hsearch.
  simpl in Hframe, Htext.
  destruct (analyze_loop (content self) [] self w) as [[all_text self1] w1].
  unfold value, object, world in *; simpl in *. subst all_text.
  destruct Hframe as (Hc & Hf & Hs & Hk & Hh & _).
  destruct (truthy (combined_text (content self))) eqn:E.
  - pose proof (summarize_text_searches (combined_text (content self)) 1000
                  self1 w1) as H.
    destruct (summarize_text _ 1000 self1 w1) as [overall w2]; simpl in *.
    repeat split; try assumption; try congruence.
    intros _.
    destruct (dict_set (lit "overall") overall (summaries self1)) eqn:Eset;
      [|reflexivity].
    now apply dict_set_not_empty in Eset.
  - apply combined_text_empty in E.
    repeat split; try assumption. intros H. contradiction.
Qed.

Lemma search_web_frame (query : str) (n : Z) (self : WebScraperAI)
  (w : World) :
  let r := search_web query n self w in
  serpapi_key (object r) = serpapi_key self /\
  hf_api_key (object r) = hf_api_key self /\
  content (object r) = content self /\
  summaries (object r) = summaries self /\
  failed_urls (object r) = failed_urls self.
Proof.
  destruct (truthy (serpapi_key self)) eqn:Hkey.
  - rewrite search_web_with_key by exact Hkey.
    destruct (reply_links _ _); unfold object; simpl; auto.
  - rewrite search_web_without_key by exact Hkey.
    unfold object; simpl; auto.
Qed.

(** [search_web] raises for the missing key only. *)
Lemma search_web_raised (query : str) (n : Z) (self : WebScraperAI)
  (w : World) (e : exn) :
  value (search_web query n self w) = Raised e ->
  e = ValueError serpapi_key_message /\ truthy (serpapi_key self) = false.
Proof.
  destruct (truthy (serpapi_key self)) eqn:Hkey.
  - rewrite search_web_with_key by exact Hkey.
    destruct (reply_links _ _); discriminate.
  - rewrite search_web_without_key by exact Hkey.
    unfold value; simpl. intros [= <-]. now split.
Qed.

(** What [analyze_and_save] does, case by case. *)
Lemma analyze_and_save_cases (p : Page) :
  reachable (pg_scraper p) ->
  (ss_scraped (pg_session p) = true -> content (pg_scraper p) <> []) ->
  let analysed := analyze_and_summarize (pg_scraper p) (pg_world p) in
  let r := analyze_and_save p in
  (ss_scraped (pg_session p) = false /\ r = (Returned tt, [], p)) \/
  (ss_scraped (pg_session p) = true /\
   pg_scraper (snd r) = object analysed /\
   pg_world (snd r) = world analysed /\
   ss_urls (pg_session (snd r)) = ss_urls (pg_session p) /\
   ss_search_query (pg_session (snd r)) = ss_search_query (pg_session p) /\
   ss_scraped (pg_session (snd r)) = true /\
   ss_summaries (pg_session (snd r)) = true /\
   ss_failed_urls (pg_session (snd r)) = ss_failed_urls (pg_session p) /\
   ((plain_state (object analysed) = true /\
     fst r = (Returned tt, [SuccessAnalysisComplete; Balloons]) /\
     ss_filename (pg_session (snd r)) = Some default_filename /\
     reload default_filename (pg_disk (snd r))
     = Some (results_of (object analysed))) \/
    (plain_state (object analysed) = false /\
     fst r = (Raised UnicodeEncodeError, [SuccessAnalysisComplete]) /\
     ss_filename (pg_session (snd r)) = ss_filename (pg_session p) /\
     reload default_filename (pg_disk (snd r)) = None))).
Proof.
  intros Hreach Hscraped analysed r. subst r. unfold analyze_and_save.
  destruct (ss_scraped (pg_session p)) eqn:Es; [right|left; auto].
  specialize (Hscraped eq_refl).
  pose proof (analyze_and_summarize_frame (pg_scraper p) (pg_world p))
    as Hframe.
  assert (Hreach' : reachable (object analysed))
    by now apply reach_analyze_and_summarize.
  subst analysed.
  destruct (analyze_and_summarize (pg_scraper p) (pg_world p))
    as [[summaries scraper] w] eqn:Ea.
  unfold value, object, world in *; simpl in *.
  destruct Hframe as (_ & _ & _ & _ & _ & _ & _ & Htruthy).
  rewrite (Htruthy Hscraped).
  apply reachable_well_formed in Hreach'.
  destruct Hreach' as [_ _ Hc Hs].
  destruct (locate default_filename) as [place|] eqn:Hplace;
    [|now elim locate_default].
  assert (Hname : plain default_filename = true) by reflexivity.
  destruct (plain_state scraper) eqn:Eplain.
  - destruct (@save_results_plain _ default_filename place scraper
                (pg_disk p) Hplace Eplain) as (data & Hdata & Hsave).
    rewrite Hsave, Hname; simpl. repeat split.
    left. repeat split. unfold reload, read_back.
    rewrite Hplace, dict_get_set_same, Hdata. now apply loads_dumps_results.
  - rewrite (@save_results_surrogate _ default_filename place scraper
               (pg_disk p) Hplace Eplain); simpl. repeat split.
    right. repeat split. unfold reload, read_back.
    now rewrite Hplace, dict_get_set_same.
Qed.

End PageFacts.

Section ClickFacts.

Context {services : Services}.

Lemma scrape_and_analyze_returned (p : Page) (url : str) (urls : list str)
  (results : list (str * Doc)) (scraper : WebScraperAI) (w : World) :
  ss_urls (pg_session p) = Some (url :: urls) ->
  batch_scrape (url :: urls) (pg_scraper p) (pg_world p)
  = (Returned results, scraper, w) ->
  let r := analyze_and_save (after_batch results scraper w p) in
  scrape_and_analyze p
  = (outcome_of r,
     (if truthy results then [SuccessScraped (len results)] else [])
     ++ shown_by r,
     page_after r).
Proof.
  intros Hurls Hbatch r. subst r.
  unfold scrape_and_analyze. rewrite Hurls, Hbatch.
  destruct (analyze_and_save _) as [[result shown'] p']. reflexivity.
Qed.

Lemma scrape_and_analyze_raised (p : Page) (url : str) (urls : list str)
  (e : exn) (scraper : WebScraperAI) (w : World) :
  ss_urls (pg_session p) = Some (url :: urls) ->
  batch_scrape (url :: urls) (pg_scraper p) (pg_world p)
  = (Raised e, scraper, w) ->
  scrape_and_analyze p
  = (Raised e, [],
     {| pg_scraper := scraper; pg_session := pg_session p;
        pg_world := w; pg_disk := pg_disk p |}).
Proof.
  intros Hurls Hbatch. unfold scrape_and_analyze. now rewrite Hurls, Hbatch.
Qed.

Lemma scrape_and_analyze_no_urls (p : Page) :
  ss_urls (pg_session p) = None \/ ss_urls (pg_session p) = Some [] ->
  scrape_and_analyze p = (Returned tt, [], p).
Proof.
  unfold scrape_and_analyze. intros [-> | ->]; reflexivity.
Qed.

(** The page after the batch, whether the batch returned or raised. *)
Lemma batch_page_sound (env_serpapi_key : str) (urls : list str)
  (p : Page) :
  page_sound env_serpapi_key p ->
  let r := batch_scrape urls (pg_scraper p) (pg_world p) in
  page_sound env_serpapi_key
    {| pg_scraper := object r; pg_session := pg_session p;
       pg_world := world r; pg_disk := pg_disk p |} /\
  forall results,
    value r = Returned results ->
    page_sound env_serpapi_key (after_batch results (object r) (world r) p).
Proof.
  intros [Hreach Hkey Hscraped Hfailed Hfile].
  pose proof (batch_scrape_frame urls (pg_scraper p) (pg_world p)) as Hframe.
  pose proof (batch_scrape_content_nonempty urls (pg_scraper p) (pg_world p))
    as Hcontent.
  simpl in Hframe. destruct Hframe as (Hk & _). simpl. split.
  - split; simpl.
    + now apply reach_batch_scrape.
    + intros Henv. rewrite Hk. now apply Hkey.
    + intros Hs. apply Hcontent. left. now apply Hscraped.
    + exact Hfailed.
    + exact Hfile.
  - intros results Hresults. unfold after_batch. split; simpl.
    + now apply reach_batch_scrape.
    + intros Henv. rewrite Hk. now apply Hkey.
    + destruct (truthy results) eqn:E; simpl.
      * intros _. apply Hcontent. right. exists results.
        split; [exact Hresults|]. intros ->. discriminate.
      * intros Hs. apply Hcontent. left. now apply Hscraped.
    + destruct (truthy results); exact Hfailed.
    + destruct (truthy results); exact Hfile.
Qed.

(** What [analyze_and_save] gives on a sound page. *)
Lemma analyze_and_save_sound (env_serpapi_key : str) (p : Page) :
  page_sound env_serpapi_key p ->
  let r := analyze_and_save p in
  page_sound env_serpapi_key (page_after r) /\
  ss_urls (pg_session (page_after r)) = ss_urls (pg_session p) /\
  content (pg_scraper (page_after r)) = content (pg_scraper p) /\
  failed_urls (pg_scraper (page_after r)) = failed_urls (pg_scraper p) /\
  search_results (pg_scraper (page_after r))
  = search_results (pg_scraper p) /\
  searches (sent (pg_world (page_after r)))
  = searches (sent (pg_world p)) /\
  ~ In WarningNoContent (shown_by r) /\
  (forall t, ~ In (ErrorText t) (shown_by r)) /\
  (forall n, ~ In (SuccessScraped n) (shown_by r)) /\
  (In Balloons (shown_by r) ->
   outcome_of r = Returned tt /\
   ss_filename (pg_session (page_after r)) = Some default_filename /\
   reload default_filename (pg_disk (page_after r))
   = Some (results_of (pg_scraper (page_after r)))) /\
  (forall e, outcome_of r = Raised e ->
     e = UnicodeEncodeError /\
     plain_state (pg_scraper (page_after r)) = false /\
     reload default_filename (pg_disk (page_after r)) = None /\
     ss_summaries (pg_session (page_after r)) = true /\
     ss_filename (pg_session (page_after r)) = ss_filename (pg_session p)) /\
  (ss_scraped (pg_session p) = true ->
   plain_state (pg_scraper (page_after r)) = true ->
   In Balloons (shown_by r)).
Proof.
  intros [Hreach Hkey Hscraped Hfailed Hfile] r.
  pose proof (analyze_and_save_cases p Hreach Hscraped) as Hcases.
  pose proof (analyze_and_summarize_frame (pg_scraper p) (pg_world p))
    as Hframe.
  simpl in Hcases, Hframe.
  assert (Hreach' : reachable
            (object (analyze_and_summarize (pg_scraper p) (pg_world p))))
    by now apply reach_analyze_and_summarize.
  fold r in Hcases. unfold outcome_of, shown_by, page_after.
  destruct Hframe as (Hk & _ & Hsr & Hc & Hf & Hse & _).
  destruct Hcases
    as [[Hs ->]|(Hs & Hscr & Hw & Hu & Hq & Hs' & Hsum & Hfl & Hsave)].
  - simpl. split; [now split|].
    repeat split; auto; try (intros; intuition discriminate).
    all: intros; congruence.
  - rewrite Hscr, Hw.
    assert (Hsound : page_sound env_serpapi_key (snd r)).
    { split.
      - now rewrite Hscr.
      - rewrite Hscr, Hk. exact Hkey.
      - intros _. rewrite Hscr, Hc. now apply Hscraped.
      - now rewrite Hfl.
      - intros f Hf'.
        destruct Hsave as [(_ & _ & Hfn & _)|(_ & _ & Hfn & _)];
          rewrite Hfn in Hf'; [congruence|now apply Hfile]. }
    split; [exact Hsound|].
    destruct Hsave as [(Hplain & Hfst & Hfn & Hreload)
                      |(Hplain & Hfst & Hfn & Hreload)];
      rewrite Hfst; simpl.
    + repeat split; auto; try (intros; intuition discriminate).
      all: try (now rewrite <- Hscr).
      all: intros; congruence.
    + repeat split; auto; try (intros; intuition discriminate).
      all: try (intros e [= <-]; now auto).
      all: intros; congruence.
Qed.

(** The keys, and what of the session the analysis leaves alone. *)
Lemma analyze_and_save_keys (p : Page) :
  let r := analyze_and_save p in
  serpapi_key (pg_scraper (page_after r)) = serpapi_key (pg_scraper p) /\
  hf_api_key (pg_scraper (page_after r)) = hf_api_key (pg_scraper p) /\
  ss_search_query (pg_session (page_after r))
  = ss_search_query (pg_session p) /\
  ss_scraped (pg_session (page_after r)) = ss_scraped (pg_session p).
Proof.
  pose proof (analyze_and_summarize_frame (pg_scraper p) (pg_world p))
    as Hframe.
  simpl in *. destruct Hframe as (Hk & Hh & _).
  unfold analyze_and_save, page_after.
  destruct (ss_scraped (pg_session p)) eqn:Hs; [|simpl; auto].
  destruct (analyze_and_summarize (pg_scraper p) (pg_world p))
    as [[table scraper] w].
  unfold object in *; simpl in Hk, Hh.
  destruct (truthy table); [|simpl; auto].
  destruct (save_results default_filename scraper (pg_disk p))
    as [[filename|e] disk]; simpl; auto.
Qed.

Lemma scrape_and_analyze_keys (p : Page) :
  let r := scrape_and_analyze p in
  serpapi_key (pg_scraper (page_after r)) = serpapi_key (pg_scraper p) /\
  hf_api_key (pg_scraper (page_after r)) = hf_api_key (pg_scraper p) /\
  ss_search_query (pg_session (page_after r))
  = ss_search_query (pg_session p).
Proof.
  simpl. destruct (ss_urls (pg_session p)) as [[|url urls]|] eqn:Hurls.
  - rewrite scrape_and_analyze_no_urls by auto. auto.
  - pose proof (batch_scrape_frame (url :: urls) (pg_scraper p) (pg_world p))
      as Hframe.
    simpl in Hframe. destruct Hframe as (Hk' & Hh' & _).
    destruct (batch_scrape (url :: urls) (pg_scraper p) (pg_world p))
      as [[[results|e] scraper] w] eqn:Hbatch;
      unfold object in Hk', Hh'; simpl in Hk', Hh'.
    + rewrite (scrape_and_analyze_returned p Hurls Hbatch).
      pose proof (analyze_and_save_keys (after_batch results scraper w p))
        as Hsave.
      simpl in Hsave. destruct Hsave as (Hk & Hh & Hq & _).
      unfold page_after in *. cbn [snd].
      rewrite Hk, Hh, Hq. unfold after_batch; cbn [pg_scraper pg_session].
      repeat split; auto. destruct (truthy results); reflexivity.
    + rewrite (scrape_and_analyze_raised p Hurls Hbatch).
      unfold page_after; simpl. auto.
  - rewrite scrape_and_analyze_no_urls by auto. auto.
Qed.

End ClickFacts.

Section ClickSound.

Context {services : Services}.

(** What the batch and the analysis give on a sound page. *)
Lemma scrape_and_analyze_sound (env_serpapi_key : str) (p : Page) :
  page_sound env_serpapi_key p ->
  let r := scrape_and_analyze p in
  page_sound env_serpapi_key (page_after r) /\
  ss_urls (pg_session (page_after r)) = ss_urls (pg_session p) /\
  search_results (pg_scraper (page_after r))
  = search_results (pg_scraper p) /\
  searches (sent (pg_world (page_after r)))
  = searches (sent (pg_world p)) /\
  ~ In WarningNoContent (shown_by r) /\
  (forall t, ~ In (ErrorText t) (shown_by r)) /\
  (In Balloons (shown_by r) ->
   outcome_of r = Returned tt /\
   ss_filename (pg_session (page_after r)) = Some default_filename /\
   reload default_filename (pg_disk (page_after r))
   = Some (results_of (pg_scraper (page_after r)))) /\
  (In SuccessAnalysisComplete (shown_by r) ->
   forall e, outcome_of r = Raised e ->
     e = UnicodeEncodeError /\
     plain_state (pg_scraper (page_after r)) = false /\
     reload default_filename (pg_disk (page_after r)) = None /\
     ss_summaries (pg_session (page_after r)) = true /\
     ss_filename (pg_session (page_after r)) = ss_filename (pg_session p)).
Proof.
  intros Hsound r. subst r.
  destruct (ss_urls (pg_session p)) as [[|url urls]|] eqn:Hurls.
  - rewrite scrape_and_analyze_no_urls by auto.
    unfold outcome_of, shown_by, page_after; simpl.
    split; [exact Hsound|].
    repeat split; auto; try (intros; intuition discriminate).
  - destruct (batch_page_sound (url :: urls) Hsound) as [Hraised Hreturned].
    pose proof (batch_scrape_frame (url :: urls) (pg_scraper p) (pg_world p))
      as Hframe.
    simpl in Hraised, Hreturned, Hframe.
    destruct Hframe as (_ & _ & Hsr & _ & Hse).
    destruct (batch_scrape (url :: urls) (pg_scraper p) (pg_world p))
      as [[[results|e] scraper] w] eqn:Hbatch;
      unfold value, object, world in *; cbn [fst snd] in *.
    + rewrite (scrape_and_analyze_returned p Hurls Hbatch).
      pose proof (analyze_and_save_sound (Hreturned results eq_refl))
        as Hsave.
      destruct Hsave
        as (H1 & H2 & _ & _ & H3 & H4 & H5 & H6 & H7 & H8 & H9 & _).
      unfold outcome_of, shown_by, page_after in *. cbn [fst snd] in *.
      assert (Hin : forall m, (forall n, m <> SuccessScraped n) ->
                In m ((if truthy results
                       then [SuccessScraped (len results)] else [])
                      ++ snd (fst (analyze_and_save
                                     (after_batch results scraper w p)))) ->
                In m (snd (fst (analyze_and_save
                                  (after_batch results scraper w p))))).
      { intros m Hm Hin. apply in_app_or in Hin as [Hin|Hin]; [|exact Hin].
        destruct (truthy results); simpl in Hin; [|contradiction].
        destruct Hin as [<-|[]]. now elim (Hm _ eq_refl). }
      assert (Hfn : ss_filename (pg_session (after_batch results scraper w p))
                    = ss_filename (pg_session p))
        by (unfold after_batch; simpl; now destruct (truthy results)).
      split; [exact H1|].
      split; [rewrite H2; unfold after_batch; simpl;
              destruct (truthy results); exact Hurls|].
      split; [rewrite H3; exact Hsr|]. split; [rewrite H4; exact Hse|].
      split; [intros H; apply H5, Hin; [discriminate|exact H]|].
      split; [intros t H; apply (H6 t), Hin; [discriminate|exact H]|].
      split; [intros H; apply H8, Hin; [discriminate|exact H]|].
      intros _ e He. destruct (H9 e He) as (E1 & E2 & E3 & E4 & E5).
      rewrite <- Hfn. auto.
    + rewrite (scrape_and_analyze_raised p Hurls Hbatch).
      unfold outcome_of, shown_by, page_after; simpl.
      split; [exact Hraised|]. split; [exact Hurls|].
      repeat split; auto; try (intros; intuition discriminate).
      all: intros; contradiction.
  - rewrite scrape_and_analyze_no_urls by auto.
    unfold outcome_of, shown_by, page_after; simpl.
    split; [exact Hsound|].
    repeat split; auto; try (intros; intuition discriminate).
Qed.

(** What the batch leaves in the scraper when the session holds URLs. *)
Lemma scrape_and_analyze_batch (env_serpapi_key : str) (p : Page)
  (url : str) (urls : list str) :
  page_sound env_serpapi_key p ->
  ss_urls (pg_session p) = Some (url :: urls) ->
  let r := scrape_and_analyze p in
  let batch := batch_scrape (url :: urls) (pg_scraper p) (pg_world p) in
  content (pg_scraper (page_after r)) = content (object batch) /\
  failed_urls (pg_scraper (page_after r)) = failed_urls (object batch) /\
  (ss_scraped (pg_session p) = true ->
   forallb plain (url :: urls) = true ->
   plain_state (pg_scraper (page_after r)) = true ->
   In Balloons (shown_by r)).
Proof.
  intros Hsound Hurls. cbv zeta.
  destruct (batch_page_sound (url :: urls) Hsound) as [_ Hreturned].
  pose proof (batch_scrape_returns (url :: urls) (pg_scraper p) (pg_world p))
    as Hreturns.
  destruct (batch_scrape (url :: urls) (pg_scraper p) (pg_world p))
    as [[[results|e] scraper] w] eqn:Hbatch;
    unfold value, object, world in *; cbn [fst snd] in *.
  - rewrite (scrape_and_analyze_returned p Hurls Hbatch).
    pose proof (analyze_and_save_sound (Hreturned results eq_refl)) as Hsave.
    destruct Hsave as (_ & _ & Hc & Hf & _ & _ & _ & _ & _ & _ & _ & Hlive).
    unfold page_after, shown_by in *. cbn [fst snd].
    split; [exact Hc|]. split; [exact Hf|].
    intros Hs _ Hplain. apply in_or_app. right. apply Hlive; [|exact Hplain].
    unfold after_batch; cbn [pg_session].
    destruct (truthy results); [reflexivity|exact Hs].
  - rewrite (scrape_and_analyze_raised p Hurls Hbatch).
    unfold page_after, shown_by; simpl.
    split; [reflexivity|]. split; [reflexivity|].
    intros _ Hplain _. apply Hreturns in Hplain as [results Hresults].
    discriminate.
Qed.

(** What the choice of the URLs gives on a sound page. *)
Lemma choose_urls_sound (env_serpapi_key query : str) (n : Z)
  (urls_input : str) (p : Page) :
  page_sound env_serpapi_key p ->
  let r := choose_urls env_serpapi_key query n urls_input p in
  outcome_of r = Returned tt /\
  page_sound env_serpapi_key (page_after r) /\
  pg_disk (page_after r) = pg_disk p /\
  content (pg_scraper (page_after r)) = content (pg_scraper p) /\
  failed_urls (pg_scraper (page_after r)) = failed_urls (pg_scraper p) /\
  ss_filename (pg_session (page_after r)) = ss_filename (pg_session p) /\
  (forall t, ~ In (ErrorText t) (shown_by r)) /\
  ~ In WarningNoContent (shown_by r) /\
  ~ In Balloons (shown_by r) /\
  ~ In SuccessAnalysisComplete (shown_by r).
Proof.
  intros Hsound r. subst r. unfold choose_urls, outcome_of, shown_by,
    page_after.
  destruct Hsound as [Hreach Hkey Hscraped Hfailed Hfile].
  destruct (negb (truthy env_serpapi_key)
            && negb (truthy (serpapi_key (pg_scraper p)))
            && truthy query) eqn:Eguard.
  { simpl. split; [reflexivity|]. split; [now split|].
    repeat split; auto; try (intros; intuition discriminate). }
  destruct (truthy query) eqn:Eq.
  - assert (Hset : truthy (serpapi_key (pg_scraper p)) = true).
    { destruct (truthy (serpapi_key (pg_scraper p))) eqn:E; [reflexivity|].
      destruct (truthy env_serpapi_key) eqn:Ee; [now apply Hkey|].
      discriminate. }
    pose proof (search_web_frame query n (pg_scraper p) (pg_world p))
      as Hframe.
    pose proof (reach_search_web query n (pg_world p) Hreach) as Hreach'.
    pose proof (@search_web_raised _ query n (pg_scraper p) (pg_world p))
      as Hraise.
    destruct (search_web query n (pg_scraper p) (pg_world p))
      as [[[urls|e] scraper] w]; unfold value, object in *; simpl in *.
    + destruct Hframe as (Hk & _ & Hc & _ & Hf).
      assert (Hs : page_sound env_serpapi_key
                     {| pg_scraper := scraper; pg_session := pg_session p;
                        pg_world := w; pg_disk := pg_disk p |}).
      { split; simpl; auto.
        - intros He. rewrite Hk. now apply Hkey.
        - intros Hsc. rewrite Hc. now apply Hscraped. }
      destruct (truthy urls); simpl.
      * split; [reflexivity|].
        split; [destruct Hs as [S1 S2 S3 S4 S5]; split; simpl in *; auto|].
        repeat split; auto; intros; intuition discriminate.
      * split; [reflexivity|]. split; [exact Hs|].
        repeat split; auto; intros; intuition discriminate.
    + destruct (Hraise e eq_refl) as [_ Hnone]. congruence.
  - destruct (truthy urls_input); simpl.
    + split; [reflexivity|]. split; [split; simpl; auto|].
      repeat split; auto; intros; intuition discriminate.
    + split; [reflexivity|]. split; [now split|].
      repeat split; auto; intros; intuition discriminate.
Qed.

Lemma choose_urls_keys (env_serpapi_key query : str) (n : Z)
  (urls_input : str) (p : Page) :
  let r := choose_urls env_serpapi_key query n urls_input p in
  serpapi_key (pg_scraper (page_after r)) = serpapi_key (pg_scraper p) /\
  hf_api_key (pg_scraper (page_after r)) = hf_api_key (pg_scraper p) /\
  ss_scraped (pg_session (page_after r)) = ss_scraped (pg_session p).
Proof.
  simpl. unfold choose_urls, page_after.
  pose proof (search_web_frame query n (pg_scraper p) (pg_world p)) as Hframe.
  simpl in Hframe. destruct Hframe as (Hk & Hh & _).
  destruct (negb (truthy env_serpapi_key)
            && negb (truthy (serpapi_key (pg_scraper p)))
            && truthy query); [simpl; auto|].
  destruct (truthy query).
  - destruct (search_web query n (pg_scraper p) (pg_world p))
      as [[[urls|e] scraper] w]; unfold object in *; simpl in Hk, Hh.
    + destruct (truthy urls); simpl; auto.
    + destruct e; simpl; auto.
  - destruct (truthy urls_input); simpl; auto.
Qed.

Lemma sidebar_frame (env_serpapi_key env_huggingface_key : str)
  (serpapi_input hf_input : str) (scraper : WebScraperAI) :
  let after := sidebar env_serpapi_key env_huggingface_key
                       serpapi_input hf_input scraper in
  search_results after = search_results scraper /\
  content after = content scraper /\
  summaries after = summaries scraper /\
  failed_urls after = failed_urls scraper /\
  (truthy (serpapi_key scraper) = true ->
   truthy (serpapi_key after) = true) /\
  (truthy (hf_api_key scraper) = true ->
   truthy (hf_api_key after) = true) /\
  (reachable scraper -> reachable after).
Proof.
  unfold sidebar.
  destruct (truthy env_serpapi_key), (truthy env_huggingface_key),
           (truthy serpapi_input) eqn:Es, (truthy hf_input) eqn:Eh;
    simpl; repeat split; auto;
    try (intros; assumption);
    try (intros H; repeat apply reach_set_hf_api_key;
         repeat apply reach_set_serpapi_key;
         repeat apply reach_set_hf_api_key; exact H).
Qed.

(** A click is the choice of the URLs followed by the batch and the
    analysis. *)
Lemma click_eq (env_serpapi_key query : str) (n : Z) (urls_input : str)
  (p : Page) :
  page_sound env_serpapi_key p ->
  click env_serpapi_key query n urls_input p
  = (outcome_of
       (scrape_and_analyze
          (page_after (choose_urls env_serpapi_key query n urls_input p))),
     shown_by (choose_urls env_serpapi_key query n urls_input p)
     ++ shown_by
          (scrape_and_analyze
             (page_after
                (choose_urls env_serpapi_key query n urls_input p))),
     page_after
       (scrape_and_analyze
          (page_after (choose_urls env_serpapi_key query n urls_input p)))).
Proof.
  intros Hsound.
  destruct (choose_urls_sound query n urls_input Hsound) as (Hchosen & _).
  unfold click, outcome_of, shown_by, page_after in *.
  destruct (choose_urls env_serpapi_key query n urls_input p)
    as [[chosen shown] p1].
  simpl in *. rewrite Hchosen.
  destruct (scrape_and_analyze p1) as [[result shown'] p2].
  reflexivity.
Qed.

Lemma click_chosen (env_serpapi_key query : str) (n : Z) (urls_input : str)
  (p p1 : Page) (shown : list Message) :
  choose_urls env_serpapi_key query n urls_input p = (Returned tt, shown, p1) ->
  click env_serpapi_key query n urls_input p
  = (outcome_of (scrape_and_analyze p1),
     shown ++ shown_by (scrape_and_analyze p1),
     page_after (scrape_and_analyze p1)).
Proof.
  intros Hchoose. unfold click, outcome_of, shown_by, page_after.
  rewrite Hchoose. now destruct (scrape_and_analyze p1) as [[result shown'] p2].
Qed.

Lemma click_keys (env_serpapi_key query : str) (n : Z) (urls_input : str)
  (p : Page) :
  let r := click env_serpapi_key query n urls_input p in
  serpapi_key (pg_scraper (page_after r)) = serpapi_key (pg_scraper p) /\
  hf_api_key (pg_scraper (page_after r)) = hf_api_key (pg_scraper p).
Proof.
  simpl.
  pose proof (choose_urls_keys env_serpapi_key query n urls_input p) as H1.
  pose proof (scrape_and_analyze_keys
                (page_after
                   (choose_urls env_serpapi_key query n urls_input p)))
    as H2.
  simpl in H1, H2. destruct H1 as (Hk & Hh & _), H2 as (Hk' & Hh' & _).
  unfold click, page_after in *.
  destruct (choose_urls env_serpapi_key query n urls_input p)
    as [[chosen shown] p1].
  cbn [snd] in *. destruct chosen as [[]|e]; [|now split].
  destruct (scrape_and_analyze p1) as [[result shown'] p2].
  cbn [snd] in *. split; congruence.
Qed.

Lemma click_sound (env_serpapi_key query : str) (n : Z) (urls_input : str)
  (p : Page) :
  page_sound env_serpapi_key p ->
  page_sound env_serpapi_key
    (page_after (click env_serpapi_key query n urls_input p)).
Proof.
  intros Hsound. rewrite (click_eq query n urls_input Hsound).
  destruct (choose_urls_sound query n urls_input Hsound)
    as (_ & Hsound1 & _).
  now destruct (scrape_and_analyze_sound Hsound1) as (Hsound2 & _).
Qed.

Lemma page_reachable_sound (env_serpapi_key env_huggingface_key : str)
  (p : Page) :
  page_reachable env_serpapi_key env_huggingface_key p ->
  page_sound env_serpapi_key p.
Proof.
  induction 1 as [w disk|serpapi_input hf_input p _ IH
                 |query n urls_input p _ IH|w disk p _ IH|p _ IH].
  - split; simpl; auto; try discriminate. apply reach_init.
  - destruct IH as [Hreach Hkey Hscraped Hfailed Hfile].
    pose proof (sidebar_frame env_serpapi_key env_huggingface_key
                  serpapi_input hf_input (pg_scraper p)) as Hframe.
    simpl in Hframe. destruct Hframe as (_ & Hc & _ & _ & Hk & _ & Hr).
    split; simpl; auto.
    + intros Hs. rewrite Hc. now apply Hscraped.
  - now apply click_sound.
  - destruct IH as [Hreach Hkey Hscraped Hfailed Hfile]. split; auto.
  - destruct IH as [Hreach Hkey Hscraped Hfailed Hfile].
    split; simpl; auto; discriminate.
Qed.

(** What a click on a sound page shows and leaves. *)
Lemma click_facts (env_serpapi_key query : str) (n : Z) (urls_input : str)
  (p : Page) :
  page_sound env_serpapi_key p ->
  let r := click env_serpapi_key query n urls_input p in
  (forall t, ~ In (ErrorText t) (shown_by r)) /\
  ~ In WarningNoContent (shown_by r) /\
  (In Balloons (shown_by r) ->
   outcome_of r = Returned tt /\
   ss_filename (pg_session (page_after r)) = Some default_filename /\
   reload default_filename (pg_disk (page_after r))
   = Some (results_of (pg_scraper (page_after r)))) /\
  (In SuccessAnalysisComplete (shown_by r) ->
   forall e, outcome_of r = Raised e ->
     e = UnicodeEncodeError /\
     plain_state (pg_scraper (page_after r)) = false /\
     reload default_filename (pg_disk (page_after r)) = None /\
     ss_summaries (pg_session (page_after r)) = true /\
     ss_filename (pg_session (page_after r)) = ss_filename (pg_session p)).
Proof.
  intros Hsound. cbv zeta. rewrite (click_eq query n urls_input Hsound).
  destruct (choose_urls_sound query n urls_input Hsound)
    as (_ & Hsound1 & _ & _ & _ & Hfn & He & Hw & Hb & Ha).
  destruct (scrape_and_analyze_sound Hsound1)
    as (_ & _ & _ & _ & Hw' & He' & Hb' & Hr').
  unfold outcome_of at 1 3 4, shown_by at 1 4 6 8, page_after at 1 4 7 10 13 16.
  cbn [fst snd].
  split; [intros t Hin; apply in_app_or in Hin as [Hin|Hin];
          [exact (He t Hin)|exact (He' t Hin)]|].
  split; [intros Hin; apply in_app_or in Hin as [Hin|Hin]; tauto|].
  split; [intros Hin; apply in_app_or in Hin as [Hin|Hin]; tauto|].
  intros Hin e Hraised. apply in_app_or in Hin as [Hin|Hin]; [tauto|].
  rewrite <- Hfn. exact (Hr' Hin e Hraised).
Qed.

End ClickSound.

Section ClickTheorems.

Context {services : Services}.

(** Take the three components of each result. *)
Ltac components :=
  unfold outcome_of, shown_by, page_after in *; cbn [fst snd] in *.

(** X24.  A click with a query, while neither the environment nor the
    scraper has a search key, shows the request for a key first, sends no
    search request and leaves the cached search results and the URLs of the
    session as they were; the URLs the session holds from an earlier click
    are nevertheless scraped again. *)
Theorem click_without_key
  (env_serpapi_key env_huggingface_key query : str) (num_results : Z)
  (urls_input : str) (p : Page) :
  page_reachable env_serpapi_key env_huggingface_key p ->
  truthy env_serpapi_key = false ->
  truthy (serpapi_key (pg_scraper p)) = false ->
  truthy query = true ->
  let r := click env_serpapi_key query num_results urls_input p in
  hd_error (shown_by r) = Some ErrorKeyRequired /\
  searches (sent (pg_world (page_after r))) = searches (sent (pg_world p)) /\
  search_results (pg_scraper (page_after r))
  = search_results (pg_scraper p) /\
  ss_urls (pg_session (page_after r)) = ss_urls (pg_session p) /\
  (forall url urls,
     ss_urls (pg_session p) = Some (url :: urls) ->
     content (pg_scraper (page_after r))
     = content (object (batch_scrape (url :: urls) (pg_scraper p)
                                     (pg_world p)))).
Proof.
  intros Hreach Henv Hkey Hquery. cbv zeta.
  apply page_reachable_sound in Hreach.
  assert (Hchoose : choose_urls env_serpapi_key query num_results
                                urls_input p
                    = (Returned tt, [ErrorKeyRequired], p)).
  { unfold choose_urls. now rewrite Henv, Hkey, Hquery. }
  rewrite (click_chosen _ _ _ _ _ Hchoose).
  destruct (scrape_and_analyze_sound Hreach) as (_ & Hu & Hsr & Hse & _).
  pose proof (fun url urls Hurls =>
                proj1 (@scrape_and_analyze_batch _ env_serpapi_key p url urls
                         Hreach Hurls)) as Hbatch.
  components. repeat split; auto.
Qed.

(** X25.  A click with an empty query and a filled text area searches
    nothing: the session gets the stripped non-blank lines as its URLs and
    no search query, and the scraper holds the content a batch over these
    lines leaves.  When every line is blank no batch runs and the scraper,
    its failed URLs included, is untouched; otherwise the failed URLs are
    those of the batch. *)
Theorem click_typed_urls
  (env_serpapi_key env_huggingface_key query : str) (num_results : Z)
  (urls_input : str) (p : Page) :
  page_reachable env_serpapi_key env_huggingface_key p ->
  truthy query = false ->
  truthy urls_input = true ->
  let r := click env_serpapi_key query num_results urls_input p in
  let batch :=
    batch_scrape (typed_urls urls_input) (pg_scraper p) (pg_world p) in
  hd_error (shown_by r)
  = Some (SuccessProcessing (len (typed_urls urls_input))) /\
  ss_urls (pg_session (page_after r)) = Some (typed_urls urls_input) /\
  ss_search_query (pg_session (page_after r)) = None /\
  searches (sent (pg_world (page_after r))) = searches (sent (pg_world p)) /\
  content (pg_scraper (page_after r)) = content (object batch) /\
  (typed_urls urls_input = [] -> pg_scraper (page_after r) = pg_scraper p) /\
  (typed_urls urls_input <> [] ->
   failed_urls (pg_scraper (page_after r)) = failed_urls (object batch)).
Proof.
  intros Hreach Hquery Hinput. cbv zeta.
  apply page_reachable_sound in Hreach.
  destruct (choose_urls_sound query num_results urls_input Hreach)
    as (_ & Hsound1 & _).
  assert (Hchoose : exists p1,
             choose_urls env_serpapi_key query num_results urls_input p
             = (Returned tt, [SuccessProcessing (len (typed_urls urls_input))],
                p1) /\
             pg_scraper p1 = pg_scraper p /\ pg_world p1 = pg_world p /\
             ss_urls (pg_session p1) = Some (typed_urls urls_input) /\
             ss_search_query (pg_session p1) = None).
  { unfold choose_urls. rewrite Hquery, Hinput, andb_false_r.
    eexists. split; [reflexivity|]. now repeat split. }
  destruct Hchoose as (p1 & Hchoose & Hscraper & Hworld & Hurls & Hnoquery).
  rewrite Hchoose in Hsound1. unfold page_after in Hsound1 at 1.
  cbn [snd] in Hsound1. rewrite (click_chosen _ _ _ _ _ Hchoose).
  destruct (scrape_and_analyze_sound Hsound1) as (_ & Hu & _ & Hse & _).
  destruct (scrape_and_analyze_keys p1) as (_ & _ & Hq).
  pose proof (fun url urls Hurls =>
                @scrape_and_analyze_batch _ env_serpapi_key p1 url urls
                  Hsound1 Hurls) as Hbatch.
  pose proof (scrape_and_analyze_no_urls p1) as Hnone.
  components. rewrite <- Hscraper, <- Hworld.
  split; [reflexivity|]. split; [now rewrite Hu|].
  split; [now rewrite Hq|]. split; [exact Hse|].
  destruct (typed_urls urls_input) as [|url urls] eqn:Htyped.
  - rewrite Hnone by now right. simpl.
    repeat split; auto. congruence.
  - destruct (Hbatch url urls Hurls) as (Hc & Hf & _).
    split; [exact Hc|]. split; [discriminate|]. intros _. exact Hf.
Qed.

(** X26.  Whatever is typed, the handler of the button never shows the
    text of an exception of the search and never warns that there is no
    content to analyse, and the session never gets a list of failed URLs,
    before or after a click, so the third tab lists nothing. *)
Theorem click_never_shows
  (env_serpapi_key env_huggingface_key query : str) (num_results : Z)
  (urls_input : str) (p : Page) :
  page_reachable env_serpapi_key env_huggingface_key p ->
  let r := click env_serpapi_key query num_results urls_input p in
  (forall t, ~ In (ErrorText t) (shown_by r)) /\
  ~ In WarningNoContent (shown_by r) /\
  ss_failed_urls (pg_session p) = None /\
  ss_failed_urls (pg_session (page_after r)) = None.
Proof.
  intros Hreach. simpl.
  apply page_reachable_sound in Hreach.
  destruct (click_facts query num_results urls_input Hreach)
    as (He & Hw & _).
  pose proof (click_sound query num_results urls_input Hreach) as Hsound.
  split; [exact He|]. split; [exact Hw|].
  split; [now destruct Hreach|now destruct Hsound].
Qed.

(** X27.  When a click shows the balloons, the script ran to its end, the
    session names [scraper_results.json], and reading that file back gives
    the search results, content, summaries and failed URLs the scraper
    holds after the click. *)
Theorem click_balloons
  (env_serpapi_key env_huggingface_key query : str) (num_results : Z)
  (urls_input : str) (p : Page) :
  page_reachable env_serpapi_key env_huggingface_key p ->
  let r := click env_serpapi_key query num_results urls_input p in
  In Balloons (shown_by r) ->
  outcome_of r = Returned tt /\
  ss_filename (pg_session (page_after r)) = Some default_filename /\
  reload default_filename (pg_disk (page_after r))
  = Some (results_of (pg_scraper (page_after r))).
Proof.
  intros Hreach. simpl.
  apply page_reachable_sound in Hreach.
  now destruct (click_facts query num_results urls_input Hreach)
    as (_ & _ & Hb & _).
Qed.

(** X28.  When the handler of the button has shown that the analysis is
    complete and then ends with the encoding error, the save has raised
    it: the scraper holds a string that UTF-8 cannot encode, the file does
    not read back, the session has its summaries all the same, and its
    file name is the one it had. *)
Theorem click_raises
  (env_serpapi_key env_huggingface_key query : str) (num_results : Z)
  (urls_input : str) (p : Page) :
  page_reachable env_serpapi_key env_huggingface_key p ->
  let r := click env_serpapi_key query num_results urls_input p in
  In SuccessAnalysisComplete (shown_by r) ->
  outcome_of r = Raised UnicodeEncodeError ->
  plain_state (pg_scraper (page_after r)) = false /\
  reload default_filename (pg_disk (page_after r)) = None /\
  ss_summaries (pg_session (page_after r)) = true /\
  ss_filename (pg_session (page_after r)) = ss_filename (pg_session p).
Proof.
  intros Hreach. simpl. intros Hshown Hraised.
  apply page_reachable_sound in Hreach.
  destruct (click_facts query num_results urls_input Hreach)
    as (_ & _ & _ & Hr).
  now destruct (Hr Hshown _ Hraised) as (_ & H).
Qed.

(** X29.  With a key in the environment, the scraper of every page holds
    exactly that key: the constructor reads it, the sidebar then has no
    field for it, and no method called by the page writes it.  This holds
    for the search key and for the summarization key. *)
Theorem environment_keys_stay
  (env_serpapi_key env_huggingface_key : str) (p : Page) :
  page_reachable env_serpapi_key env_huggingface_key p ->
  (truthy env_serpapi_key = true ->
   serpapi_key (pg_scraper p) = env_serpapi_key) /\
  (truthy env_huggingface_key = true ->
   hf_api_key (pg_scraper p) = env_huggingface_key).
Proof.
  induction 1 as [w disk|serpapi_input hf_input p _ IH
                 |query n urls_input p _ IH|w disk p _ IH|p _ IH];
    try exact IH.
  - simpl; auto.
  - destruct IH as [IHs IHh]. simpl. unfold sidebar. split.
    + intros He. rewrite He. simpl.
      destruct (negb (truthy env_huggingface_key));
        [destruct (truthy hf_input)|]; simpl; auto.
    + intros He. rewrite He. simpl.
      destruct (negb (truthy env_serpapi_key));
        [destruct (truthy serpapi_input)|]; simpl; auto.
  - pose proof (click_keys env_serpapi_key query n urls_input p) as Hkeys.
    simpl in Hkeys. unfold page_after in Hkeys.
    destruct Hkeys as [-> ->]. exact IH.
Qed.

(** X30.  Once a batch of the session has returned something, a click on
    typed URLs analyses and saves again whatever its own batch returns:
    if the scraper it leaves holds only strings UTF-8 can encode, the
    balloons are shown.  The text typed holds no surrogate, as is the case
    of a text the browser sends. *)
Theorem click_saves_again_once_scraped
  (env_serpapi_key env_huggingface_key query : str) (num_results : Z)
  (urls_input : str) (p : Page) :
  page_reachable env_serpapi_key env_huggingface_key p ->
  ss_scraped (pg_session p) = true ->
  truthy query = false ->
  typed_urls urls_input <> [] ->
  plain urls_input = true ->
  let r := click env_serpapi_key query num_results urls_input p in
  plain_state (pg_scraper (page_after r)) = true ->
  In Balloons (shown_by r).
Proof.
  intros Hreach Hscraped Hquery Htyped Hinput. cbv zeta.
  apply page_reachable_sound in Hreach.
  assert (Hfilled : truthy urls_input = true).
  { destruct urls_input; [now elim Htyped|reflexivity]. }
  destruct (choose_urls_sound query num_results urls_input Hreach)
    as (_ & Hsound1 & _).
  assert (Hchoose : exists p1,
             choose_urls env_serpapi_key query num_results urls_input p
             = (Returned tt, [SuccessProcessing (len (typed_urls urls_input))],
                p1) /\
             ss_urls (pg_session p1) = Some (typed_urls urls_input) /\
             ss_scraped (pg_session p1) = ss_scraped (pg_session p)).
  { unfold choose_urls. rewrite Hquery, Hfilled, andb_false_r.
    eexists. split; [reflexivity|]. now split. }
  destruct Hchoose as (p1 & Hchoose & Hurls & Hsame).
  rewrite Hchoose in Hsound1. unfold page_after in Hsound1 at 1.
  cbn [snd] in Hsound1. rewrite (click_chosen _ _ _ _ _ Hchoose).
  pose proof (typed_urls_plain urls_input Hinput) as Hplain.
  destruct (typed_urls urls_input) as [|url urls] eqn:Hlines;
    [now elim Htyped|].
  destruct (scrape_and_analyze_batch Hsound1 Hurls) as (_ & _ & Hlive).
  components.
  intros Hstate. apply in_or_app. right. apply Hlive.
  - now rewrite Hsame.
  - exact Hplain.
  - exact Hstate.
Qed.

End ClickTheorems.

(** * The theorems at work in the small world *)

Section Examples.

Import Demo.

#[local] Existing Instance Demo.services.







Lemma summarize_text_no_credential_witness :
  fst (summarize_text six_sentences 500 frugal fresh)
  = lit "One is first. Two is next! Is three here? Four. Five.".
Proof.
  rewrite (proj1 (summarize_text_no_credential six_sentences 500
                    frugal fresh eq_refl)).
  vm_compute. reflexivity.
Defined.

Lemma summarize_text_provider_failure_witness :
  fst (summarize_text six_sentences 500 scraper fresh)
  = fst (summarize_text six_sentences 500 (set_hf_api_key [] scraper) fresh).
Proof.
  refine (proj2 (summarize_text_provider_failure six_sentences 500
                   scraper fresh eq_refl _) _).
  - left. discriminate.
  - vm_compute. discriminate.
Defined.

(** C6, as stated, fails: with a key and an overloaded provider the summary
    of a text of 5001 letters is its first 5000 letters, while without a
    key it is the whole text. *)
Lemma summarize_text_fallback_cuts_text :
  truthy (hf_api_key scraper) = true /\
  provider_failed (provider_reply long_word 500 scraper fresh) /\
  fst (summarize_text long_word 500 scraper fresh)
  = repeat 0x61%N (N.to_nat 5000) /\
  fst (summarize_text long_word 500 (set_hf_api_key [] scraper) fresh)
  = repeat 0x61%N (N.to_nat 5001) /\
  fst (summarize_text long_word 500 scraper fresh)
  <> fst (summarize_text long_word 500 (set_hf_api_key [] scraper) fresh).
Proof.
  assert (H1 : fst (summarize_text long_word 500 scraper fresh)
               = repeat 0x61%N (N.to_nat 5000)) by (vm_compute; reflexivity).
  assert (H2 : fst (summarize_text long_word 500
                      (set_hf_api_key [] scraper) fresh)
               = repeat 0x61%N (N.to_nat 5001)) by (vm_compute; reflexivity).
  split; [reflexivity|]. split; [left; discriminate|].
  split; [exact H1|]. split; [exact H2|].
  rewrite H1, H2. intros H. apply (f_equal (@List.length _)) in H.
  rewrite !repeat_length in H. apply N2Nat.inj in H. discriminate.
Defined.

Lemma search_web_errors_witness :
  search_web (lit "rocq") 5 keyless fresh
  = (Raised (ValueError serpapi_key_message), keyless, fresh) /\
  value (search_web (lit "broken") 5 scraper fresh) = Returned [].
Proof.
  split.
  - exact (proj1 (search_web_errors (lit "rocq") 5 keyless fresh) eq_refl).
  - destruct (proj2 (search_web_errors (lit "broken") 5 scraper fresh)
                eq_refl) as (_ & _ & Hempty).
    apply Hempty. reflexivity.
Defined.

Lemma search_web_cache_witness :
  object (search_web (lit "rocq") 2 searched fresh)
  = with_search_results [good_url; short_url] searched /\
  object (search_web (lit "broken") 2 searched fresh) = searched.
Proof.
  split.
  - exact (proj2 (proj1 (search_web_cache (lit "rocq") 2 searched fresh)
                    [good_url; short_url] eq_refl eq_refl)).
  - apply (proj2 (search_web_cache (lit "broken") 2 searched fresh)).
    right. reflexivity.
Defined.

(** C8, as stated, fails: a search that finds no organic results returns
    the empty list and leaves the results of the earlier search in the
    cache. *)
Lemma search_web_keeps_cache :
  value (search_web (lit "nothing") 5 searched fresh) = Returned [] /\
  search_results searched = [lit "https://example.org/earlier"] /\
  search_results (object (search_web (lit "nothing") 5 searched fresh))
  = [lit "https://example.org/earlier"] /\
  search_results (object (search_web (lit "nothing") 5 searched fresh))
  <> [].
Proof.
  repeat split; try reflexivity. vm_compute. discriminate.
Defined.

Lemma analyze_and_summarize_empty_content_witness :
  let self := object (batch_scrape [gone_url; short_url] scraper fresh) in
  failed_urls self = [gone_url; short_url] /\
  forall w, analyze_and_summarize self w = ([], self, w).
Proof.
  intros self. split; [reflexivity|]. intros w.
  apply analyze_and_summarize_empty_content; [|reflexivity].
  apply reach_batch_scrape. apply reach_init.
Defined.

Lemma save_results_round_trip_witness :
  let self := object (batch_scrape [good_url; gone_url] scraper fresh) in
  fst (save_results results_file self []) = Returned results_file /\
  reload results_file (snd (save_results results_file self []))
  = Some (results_of self).
Proof.
  intros self.
  assert (Hcontent : NoDup (keys (content self)))
    by (repeat constructor; simpl; tauto).
  assert (Hsummaries : NoDup (keys (summaries self))) by constructor.
  destruct (save_results_round_trip results_file self [] Hcontent Hsummaries)
    as [Hplain _].
  destruct Hplain as (Hreturned & Hreload & _);
    [discriminate|vm_compute; reflexivity|].
  split; [now apply Hreturned|exact Hreload].
Defined.

(** C9, as stated, fails: when the summarization endpoint hands out a
    summary that holds half of a surrogate pair, the object reaches a state
    that [save_results] cannot write; it raises, and there is no document
    to read back.  Nor is there one when [open] refuses the path. *)
Lemma save_results_lone_surrogate :
  let scraped := @batch_scrape garbling [good_url] scraper fresh_garbling in
  let self :=
    object (@analyze_and_summarize garbling (object scraped)
                                   (world scraped)) in
  @reachable garbling self /\
  dict_get good_url (summaries self) = Some (lit "Proofs " ++ [0xD83D%N]) /\
  @save_results garbling results_file self []
  = (Raised UnicodeEncodeError, [(results_file, Torn)]) /\
  @reload garbling results_file
    (snd (@save_results garbling results_file self [])) = None /\
  save_results (lit "no_such_dir/out.json") scraper []
  = (Raised OSError, []) /\
  reload (lit "no_such_dir/out.json")
    (snd (save_results (lit "no_such_dir/out.json") scraper [])) = None.
Proof.
  intros scraped self. split.
  - apply (@reach_analyze_and_summarize garbling).
    apply (@reach_batch_scrape garbling). apply (@reach_init garbling).
  - vm_compute. repeat split.
Defined.

End Examples.

(** * More theorems at work in the small world *)

Section MoreExamples.

Import Demo.

#[local] Existing Instance Demo.services.

Lemma search_web_at_most_count_witness :
  value (search_web (lit "rocq") 2 scraper fresh)
  = Returned [good_url; short_url] /\
  (len [good_url; short_url] <= 2)%Z.
Proof.
  split; [reflexivity|].
  apply (proj1 (search_web_at_most_count (lit "rocq") scraper fresh
                  (n := 2) ltac:(lia))).
  reflexivity.
Defined.

Lemma suggest_alternative_resources_without_key_witness :
  value (suggest_alternative_resources gone_url None keyless fresh)
  = Returned [] /\
  suggest_alternative_resources bracket_url None keyless fresh
  = (Raised (ValueError (lit "Invalid IPv6 URL")), keyless, fresh).
Proof.
  split.
  - destruct (suggest_alternative_resources_without_key gone_url None
                keyless fresh eq_refl) as (_ & _ & _ & Hmade).
    exact (Hmade (or_introl eq_refl)).
  - destruct (suggest_alternative_resources_without_key bracket_url None
                keyless fresh eq_refl) as (Hobject & Hworld & _ & Hmade).
    specialize (Hmade (or_introl eq_refl)). simpl in Hmade.
    destruct (suggest_alternative_resources bracket_url None keyless fresh)
      as [[result self] w].
    unfold value, object, world in *; simpl in *. congruence.
Defined.

Lemma suggest_alternative_resources_with_key_witness :
  let r := suggest_alternative_resources gone_url (Some []) scraper fresh in
  value r = Returned [good_url; short_url; gone_url] /\
  sent (world r)
  = [ReqSearch {| sp_q := lit "site:example.org information";
                  sp_api_key := lit "serp-key"; sp_num := 3 |}] /\
  suggest_alternative_resources bracket_url (Some []) scraper fresh
  = (Raised (ValueError (lit "Invalid IPv6 URL")), scraper, fresh).
Proof.
  destruct (suggest_alternative_resources_with_key gone_url (Some [])
              scraper fresh eq_refl) as (Hsearch & _).
  destruct (Hsearch (lit "site:example.org information") eq_refl)
    as (Hvalue & _ & Hsent & _).
  destruct (suggest_alternative_resources_with_key bracket_url (Some [])
              scraper fresh eq_refl) as (_ & Hraised & _).
  split; [rewrite Hvalue; reflexivity|]. split; [exact Hsent|].
  apply Hraised. reflexivity.
Defined.

Lemma batch_scrape_accounts_for_every_url_witness :
  let after := object (batch_scrape [good_url; gone_url] scraper fresh) in
  In gone_url (keys (content after)) \/ In gone_url (failed_urls after).
Proof.
  apply batch_scrape_accounts_for_every_url.
  - right. now left.
  - left. right. now left.
Defined.

Lemma summarize_text_request_witness :
  sent (snd (summarize_text long_word 500 scraper fresh))
  = [ReqPost API_URL (summary_payload long_word 500 scraper)] /\
  (len (pl_inputs (summary_payload long_word 500 scraper)) <= 5000)%Z.
Proof.
  destruct (summarize_text_request long_word 500 scraper fresh eq_refl)
    as (Hsent & _ & Hlen & _).
  split; [exact Hsent|exact Hlen].
Defined.

Lemma summarize_text_reads_5000_witness :
  summarize_text long_word 500 scraper fresh
  = summarize_text (long_word ++ lit " and more.") 500 scraper fresh.
Proof.
  apply summarize_text_reads_5000; [reflexivity|].
  vm_compute. reflexivity.
Defined.




Lemma stored_documents_keep_their_url_witness :
  let self := object (batch_scrape [good_url; gone_url] scraper fresh) in
  content self = [(good_url, @make_doc Demo.services good_url good_article)]
  /\ NoDup (keys (content self)) /\
  source_url (@make_doc Demo.services good_url good_article) = good_url.
Proof.
  intros self.
  assert (Hreach : reachable self)
    by (apply reach_batch_scrape, reach_init).
  destruct (stored_documents_keep_their_url Hreach) as [Hnd Hdocs].
  split; [reflexivity|]. split; [exact Hnd|].
  apply (Hdocs good_url). now left.
Defined.

Lemma summaries_belong_to_content_witness :
  let scraped := batch_scrape [good_url] scraper fresh in
  summaries_of_content
    (object (analyze_and_summarize (object scraped) (world scraped))).
Proof.
  intros scraped. apply summaries_belong_to_content.
  apply reach_analyze_and_summarize, reach_batch_scrape, reach_init.
Defined.

End MoreExamples.

Section DataFolderExamples.

Import Demo.

Lemma clear_data_folder_deletes_files_witness :
  clear_data_folder (Folder data_folder)
  = (Returned tt,
     Folder [(lit "cache", Subfolder); (lit "busy.log", RegularFile true)])
  /\
  fst (clear_data_folder (Folder sealed_folder)) = Raised UnicodeEncodeError.
Proof.
  split.
  - apply clear_data_folder_deletes_files; [|reflexivity].
    repeat constructor; simpl; intuition discriminate.
  - apply clear_data_folder_deletes_files; [|reflexivity].
    repeat constructor; simpl; intuition discriminate.
Defined.

Lemma clear_data_folder_again_witness :
  clear_data_folder
    (Folder [(lit "cache", Subfolder); (lit "busy.log", RegularFile true)])
  = (Returned tt,
     Folder [(lit "cache", Subfolder); (lit "busy.log", RegularFile true)]).
Proof.
  assert (Hwl : well_listed (Folder data_folder))
    by (repeat constructor; simpl; intuition discriminate).
  destruct (clear_data_folder_again (Folder data_folder) Hwl)
    as (_ & Hagain).
  exact (Hagain _ eq_refl).
Defined.

End DataFolderExamples.

Section PageExamples.

Import Demo.

#[local] Existing Instance Demo.services.

Lemma typed_urls_clean_witness :
  typed_urls typed = [good_url; gone_url] /\
  good_url <> [] /\ strip good_url = good_url /\ ~ In 0x0A%N good_url.
Proof.
  split; [reflexivity|].
  destruct (typed_urls_clean typed good_url (or_introl eq_refl))
    as (Hne & Hstrip & Hnl & _).
  repeat split; assumption.
Defined.

Lemma click_without_key_witness :
  let r := click [] (lit "rocq") 5 typed first_page in
  hd_error (shown_by r) = Some ErrorKeyRequired /\
  searches (sent (pg_world (page_after r))) = [] /\
  search_results (pg_scraper (page_after r)) = [].
Proof.
  destruct (@click_without_key _ [] [] (lit "rocq") 5 typed first_page
              (page_start [] [] fresh []) eq_refl eq_refl eq_refl)
    as (Hshown & Hsearches & Hresults & _).
  repeat split; assumption.
Defined.

Lemma click_typed_urls_witness :
  let r := click [] [] 5 typed first_page in
  ss_urls (pg_session (page_after r)) = Some [good_url; gone_url] /\
  ss_search_query (pg_session (page_after r)) = None /\
  keys (content (pg_scraper (page_after r))) = [good_url] /\
  failed_urls (pg_scraper (page_after r)) = [gone_url].
Proof.
  destruct (@click_typed_urls _ [] [] [] 5 typed first_page
              (page_start [] [] fresh []) eq_refl eq_refl)
    as (_ & Hurls & Hquery & _ & Hcontent & _ & Hfailed).
  split; [exact Hurls|]. split; [exact Hquery|].
  split; [now rewrite Hcontent|].
  rewrite Hfailed; [reflexivity|discriminate].
Defined.

Lemma click_never_shows_witness :
  let r := click (lit "serp-key") (lit "broken") 5 [] keyed_page in
  shown_by r = [ErrorNoResults] /\
  ~ In WarningNoContent (shown_by r) /\
  ss_failed_urls (pg_session (page_after r)) = None.
Proof.
  destruct (@click_never_shows _ (lit "serp-key") (lit "hf-key")
              (lit "broken") 5 [] keyed_page
              (page_start (lit "serp-key") (lit "hf-key") fresh []))
    as (_ & Hwarning & _ & Hfailed).
  split; [reflexivity|]. split; assumption.
Defined.

Lemma click_balloons_witness :
  let r := click [] [] 5 typed first_page in
  shown_by r = [SuccessProcessing 2; SuccessScraped 1;
                SuccessAnalysisComplete; Balloons] /\
  outcome_of r = Returned tt /\
  ss_filename (pg_session (page_after r)) = Some results_file /\
  reload results_file (pg_disk (page_after r))
  = Some (results_of (pg_scraper (page_after r))).
Proof.
  assert (Hshown : shown_by (click [] [] 5 typed first_page)
                   = [SuccessProcessing 2; SuccessScraped 1;
                      SuccessAnalysisComplete; Balloons])
    by (vm_compute; reflexivity).
  split; [exact Hshown|].
  apply (@click_balloons _ [] [] [] 5 typed first_page
           (page_start [] [] fresh [])).
  rewrite Hshown. simpl. tauto.
Defined.

Lemma click_raises_witness :
  let r := @click garbling [] [] 5 good_url garbled_page in
  @outcome_of garbling r = Raised UnicodeEncodeError /\
  plain_state (@pg_scraper garbling (@page_after garbling r)) = false /\
  @reload garbling results_file
    (@pg_disk garbling (@page_after garbling r)) = None /\
  ss_summaries (@pg_session garbling (@page_after garbling r)) = true /\
  ss_filename (@pg_session garbling (@page_after garbling r)) = None.
Proof.
  assert (Hraised : @outcome_of garbling
                      (@click garbling [] [] 5 good_url garbled_page)
                    = Raised UnicodeEncodeError)
    by (vm_compute; reflexivity).
  assert (Hshown : In SuccessAnalysisComplete
                     (@shown_by garbling
                        (@click garbling [] [] 5 good_url garbled_page)))
    by (vm_compute; tauto).
  split; [exact Hraised|].
  exact (@click_raises garbling [] (lit "hf-key") [] 5 good_url
           garbled_page
           (@page_start garbling [] (lit "hf-key") fresh_garbling [])
           Hshown Hraised).
Defined.

(** A search that finds a link cut in the middle of an emoji: the batch
    stores the first page, line 117 cannot print the second link, and the
    error leaves the handler before anything is analysed or saved. *)
Lemma click_on_odd_link :
  let r := click (lit "serp-key") (lit "emoji") 5 [] keyed_page in
  outcome_of r = Raised UnicodeEncodeError /\
  shown_by r = [SuccessFound 2] /\
  keys (content (pg_scraper (page_after r))) = [good_url] /\
  ss_scraped (pg_session (page_after r)) = false /\
  pg_disk (page_after r) = [].
Proof.
  vm_compute. repeat split.
Qed.

Lemma environment_keys_stay_witness :
  let p := page_after (click (lit "serp-key") (lit "rocq") 2 [] keyed_page) in
  serpapi_key
    (sidebar (lit "serp-key") (lit "hf-key") (lit "typed") (lit "typed")
             (pg_scraper p)) = lit "serp-key" /\
  hf_api_key
    (sidebar (lit "serp-key") (lit "hf-key") (lit "typed") (lit "typed")
             (pg_scraper p)) = lit "hf-key".
Proof.
  destruct (@environment_keys_stay _ (lit "serp-key") (lit "hf-key") _
              (page_sidebar (lit "typed") (lit "typed")
                 (page_click (lit "rocq") 2 []
                    (page_start (lit "serp-key") (lit "hf-key") fresh []))))
    as (Hserp & Hhf).
  split; [exact (Hserp eq_refl)|exact (Hhf eq_refl)].
Defined.

Lemma click_saves_again_once_scraped_witness :
  let p := page_after (click [] [] 5 typed first_page) in
  let r := click [] [] 5 gone_url p in
  ss_scraped (pg_session p) = true /\
  value (batch_scrape [gone_url] (pg_scraper p) (pg_world p)) = Returned [] /\
  In Balloons (shown_by r).
Proof.
  split; [reflexivity|]. split; [reflexivity|].
  apply (@click_saves_again_once_scraped _ [] [] [] 5 gone_url _
           (page_click [] 5 typed (page_start [] [] fresh []))).
  - reflexivity.
  - reflexivity.
  - discriminate.
  - reflexivity.
  - vm_compute. reflexivity.
Defined.

End PageExamples.
